(** * Course planner: the four variants of the advising program

    A shallow embedding of the course-catalog programs of the repository
    (the original vector program and its map rewrite in [original.cpp],
    the binary-search-tree rewrite in [artifact2.cpp], the SQLite rewrite
    in [part3.cpp]) and the properties of their loaders, catalogs and
    reports.

    Conventions.  A [std::string] is a [string] of 8-bit characters; an
    input stream is its unread characters together with its state bits;
    [std::cout] is the text written, returned by the printing functions;
    the file system is a partial function from file names to contents. *)

From Stdlib Require Import Ascii String ZArith DecimalString Sorted Lia.
From stdpp Require Import base option list sorting strings gmap fin_maps.

(** ** The C library and [std::string] *)

Module Cstd.

(** [unsigned char] value of a character. *)
Definition code (ch : ascii) : N := N_of_ascii ch.

(** [std::isspace] in the "C" locale: space and the controls 9..13. *)
Definition isspace (ch : ascii) : bool :=
  (code ch =? 32)%N || ((9 <=? code ch)%N && (code ch <=? 13)%N).

(** [std::toupper] in the "C" locale: only [a]..[z] change. *)
Definition toupper (ch : ascii) : ascii :=
  if ((97 <=? code ch)%N && (code ch <=? 122)%N)
  then ascii_of_N (code ch - 32)
  else ch.

(** [std::isdigit]. *)
Definition isdigit (ch : ascii) : bool :=
  (48 <=? code ch)%N && (code ch <=? 57)%N.

(** [s.size()], [s.empty()], [s[i]] (for [i < s.size()]) and
    [s.substr(pos, n)]. *)
Definition size (s : string) : nat := String.length s.

Definition empty (s : string) : bool :=
  match s with EmptyString => true | String _ _ => false end.

Definition at_ (s : string) (i : nat) : ascii :=
  match String.get i s with Some ch => ch | None => "000"%char end.

Definition substr (s : string) (pos n : nat) : string :=
  String.substring pos n s.

(** [operator<] and [operator>] of [std::string]: lexicographic on the
    characters as unsigned values, a proper prefix being smaller. *)
Definition lt (a b : string) : bool := String.ltb a b.
Definition gt (a b : string) : bool := String.ltb b a.

(** The newline and comma characters. *)
Definition nl : ascii := "010"%char.
Definition comma : ascii := ","%char.
Definition endl : string := String nl EmptyString.

(** [s.c_str()] as a function of the C library reads it: the characters
    before the first NUL. *)
Definition nul : ascii := "000"%char.

Fixpoint c_str (s : string) : string :=
  match s with
  | EmptyString => EmptyString
  | String ch rest =>
      if Ascii.eqb ch nul then EmptyString else String ch (c_str rest)
  end.

End Cstd.

(** ** Input streams and [std::getline] *)

Module Stream.

(** An [istream] (a file, a string stream, standard input): the unread
    characters and the two state bits the programs test. *)
Record istream := mkStream {
  buf : string;
  eofbit : bool;
  failbit : bool
}.

(** A freshly opened stream over [s]. *)
Definition open (s : string) : istream := mkStream s false false.

Definition good (st : istream) : bool :=
  negb (eofbit st) && negb (failbit st).

(** Characters up to the delimiter.  [Some rest] when the delimiter was
    found (and is consumed), [None] when the end of input was reached. *)
Fixpoint read_until (delim : ascii) (s : string) : string * option string :=
  match s with
  | EmptyString => (EmptyString, None)
  | String ch rest =>
      if Ascii.eqb ch delim then (EmptyString, Some rest)
      else let '(field, r) := read_until delim rest in
           (String ch field, r)
  end.

(** [std::getline(is, str, delim)].  The result is the string read when
    the call succeeds ([is] converts to true afterwards).  A stream that
    is not good fails at once; a good stream with nothing left to
    extract sets [eofbit] and [failbit]; reaching the end after at least
    one character sets [eofbit] only. *)
Definition getline (st : istream) (delim : ascii) : option string * istream :=
  if good st then
    match buf st with
    | EmptyString => (None, mkStream EmptyString true true)
    | String _ _ =>
        match read_until delim (buf st) with
        | (field, Some rest) => (Some field, mkStream rest false false)
        | (field, None) => (Some field, mkStream EmptyString true false)
        end
    end
  else (None, mkStream (buf st) (eofbit st) true).

(** [while (std::getline(is, str, delim)) { acc = body(str, acc); }].
    Every successful call extracts at least one character, so
    [S (size (buf st))] rounds always reach the failing call. *)
Fixpoint while_getline {A : Type} (fuel : nat) (st : istream) (delim : ascii)
    (body : string -> A -> A) (acc : A) : A :=
  match fuel with
  | O => acc
  | S fuel' =>
      match getline st delim with
      | (Some str, st') => while_getline fuel' st' delim body (body str acc)
      | (None, _) => acc
      end
  end.

Definition for_each_line {A : Type} (st : istream) (delim : ascii)
    (body : string -> A -> A) (acc : A) : A :=
  while_getline (S (String.length (buf st))) st delim body acc.

(** The same loop when the body can leave the enclosing function with
    [return false]: the flag is [false] as soon as one round returned.
    The body gives [None] where the model does not say what it does, and
    so does the loop from then on. *)
Fixpoint while_getline_try {A : Type} (fuel : nat) (st : istream)
    (delim : ascii) (body : string -> A -> option (bool * A)) (acc : A)
    : option (bool * A) :=
  match fuel with
  | O => Some (true, acc)
  | S fuel' =>
      match getline st delim with
      | (Some str, st') =>
          match body str acc with
          | Some (true, acc') => while_getline_try fuel' st' delim body acc'
          | Some (false, acc') => Some (false, acc')
          | None => None
          end
      | (None, _) => Some (true, acc)
      end
  end.

Definition for_each_line_try {A : Type} (st : istream) (delim : ascii)
    (body : string -> A -> option (bool * A)) (acc : A)
    : option (bool * A) :=
  while_getline_try (S (String.length (buf st))) st delim body acc.

End Stream.

(** ** Normalisation helpers shared by the three rewrites

    [trim] and [toUpper] are defined identically in the map, tree and
    database programs; [normalizeCourseNumber] is their composition. *)

Module Norm.
Import Cstd.

(** [while (start < s.size() && isspace(s[start])) ++start;] *)
Fixpoint skip_front (fuel : nat) (s : string) (start : nat) : nat :=
  match fuel with
  | O => start
  | S fuel' =>
      if (start <? size s)%nat && isspace (at_ s start)
      then skip_front fuel' s (S start)
      else start
  end.

(** [while (end > start && isspace(s[end - 1])) --end;] *)
Fixpoint skip_back (s : string) (start end_ : nat) : nat :=
  match end_ with
  | O => O
  | S e =>
      if (start <? end_)%nat && isspace (at_ s e)
      then skip_back s start e
      else end_
  end.

Definition trim (s : string) : string :=
  let start := skip_front (size s) s 0 in
  let end_ := skip_back s start (size s) in
  substr s start (end_ - start).

Fixpoint toUpper (s : string) : string :=
  match s with
  | EmptyString => EmptyString
  | String ch rest => String (toupper ch) (toUpper rest)
  end.

Definition normalizeCourseNumber (s : string) : string := toUpper (trim s).

End Norm.

(** ** Courses *)

(** [struct Course] (a class with the same three members in the original
    program). *)
Record Course := mkCourse {
  courseNumber : string;
  title : string;
  prerequisites : list string
}.

(** The file system as seen by [std::ifstream]: the contents of the files
    that can be opened. *)
Definition FileSystem := string -> option string.

(** What one round of a menu loop does to the process. *)
Inductive Outcome (St : Type) :=
  | Next (s : St)            (* back to the top of the loop *)
  | Terminated (code : Z).   (* the process ended with this status *)
Arguments Next {St} s.
Arguments Terminated {St} code.

(** [operator<<] for an [int]. *)
Definition show_int (z : Z) : string := NilZero.string_of_int (Z.to_int z).

(** ** The original vector program (first program of [original.cpp]) *)

Module Original.
Import Cstd Stream.



(** [std::getline(ss, str, ',')] whose result is not tested, [str] being
    freshly constructed: a failed call leaves it empty. *)
Definition getField (ss : istream) : string * istream :=
  match getline ss comma with
  | (Some str, ss') => (str, ss')
  | (None, ss') => (EmptyString, ss')
  end.

(** The body of the line loop of [parseFile]: the course built from one
    line. *)
Definition parseLine (line : string) : Course :=
  let ss := open line in
  let '(courseNumber, ss) := getField ss in
  let '(title, ss) := getField ss in
  let prereqs := for_each_line ss comma (fun prereq ps => ps ++ [prereq]) [] in
  mkCourse courseNumber title prereqs.

(** [parseFile(file)]. *)
Definition parseFile (file : istream) : list Course :=
  for_each_line file nl (fun line courseList => courseList ++ [parseLine line])
    [].

Definition course_le (a b : Course) : Prop :=
  String.le (courseNumber a) (courseNumber b).

#[global] Instance course_le_dec (a b : Course) : Decision (course_le a b).
Proof. unfold course_le. apply _. Defined.

Definition courseLine (c : Course) : string :=
  courseNumber c +:+ ", " +:+ title c +:+ endl.

(** [printSortedCourses(courses)].  [std::sort] is not stable: it leaves
    the relative order of courses with equal numbers unspecified, and the
    program can write them in another order than this function, which
    keeps their input order.  What is stated about the listing holds for
    every order [std::sort] can give. *)
Definition printSortedCourses (courses : list Course) : string :=
  String.concat EmptyString (map courseLine (merge_sort course_le courses)).

(** [for (prereq : prerequisites) cout << prereq << " ";] *)
Fixpoint printPrereqs (ps : list string) : string :=
  match ps with
  | [] => EmptyString
  | p :: rest => p +:+ " " +:+ printPrereqs rest
  end.

Definition printCourse (c : Course) : string :=
  courseLine c +:+ "Prerequisites: " +:+
  (match prerequisites c with
   | [] => "None" +:+ endl
   | _ :: _ => printPrereqs (prerequisites c) +:+ endl
   end).

(** [searchCourse(courseNumber, courses)]: the first course whose number
    matches exactly. *)
Fixpoint searchCourse (number : string) (courses : list Course) : string :=
  match courses with
  | [] => "Error: Course not found" +:+ endl
  | c :: rest =>
      if String.eqb (courseNumber c) number then printCourse c
      else searchCourse number rest
  end.



End Original.

(** ** Menu input shared by the map and tree programs *)

Module Menu.
Import Cstd Stream Norm.

(** Leading white space skipped by [strtol]. *)
Fixpoint skip_ws (s : string) : string :=
  match s with
  | EmptyString => EmptyString
  | String ch rest => if isspace ch then skip_ws rest else s
  end.

(** The value of the leading decimal digits of [s], continuing [acc]. *)
Fixpoint digits (s : string) (acc : Z) : Z :=
  match s with
  | EmptyString => acc
  | String ch rest =>
      if isdigit ch then digits rest (acc * 10 + Z.of_N (code ch - 48))%Z
      else acc
  end.

Definition starts_with_digit (s : string) : bool :=
  match s with
  | EmptyString => false
  | String ch _ => isdigit ch
  end.

(** [std::stoi(s)]: [None] when it throws ([std::invalid_argument] without
    a digit to convert, [std::out_of_range] outside the range of [int]). *)
Definition stoi (s : string) : option Z :=
  let s := skip_ws s in
  let '(neg, s) :=
    match s with
    | String "-"%char rest => (true, rest)
    | String "+"%char rest => (false, rest)
    | _ => (false, s)
    end in
  if starts_with_digit s then
    let v := digits s 0 in
    let v := if neg then (- v)%Z else v in
    if ((-2147483648 <=? v)%Z && (v <=? 2147483647)%Z) then Some v else None
  else None.

Definition menuText : string :=
  endl +:+ "1. Load Data Structure." +:+ endl +:+
  "2. Print Course List." +:+ endl +:+
  "3. Print Course." +:+ endl +:+
  "9. Exit" +:+ endl +:+
  "What would you like to do? ".

(** [std::getline(std::cin, str)] into a freshly constructed [str]: the
    line read, or the empty string when the call fails. *)
Definition readLine (cin : istream) : string * istream :=
  match getline cin nl with
  | (Some str, cin') => (str, cin')
  | (None, cin') => (EmptyString, cin')
  end.

(** [displayMenu()]: the text written, the choice, and standard input
    after the call.  The [catch (...)] turns every exception of [stoi]
    into [-1]. *)
Definition displayMenu (cin : istream) : string * Z * istream :=
  let '(input, cin) := readLine cin in
  let input := trim input in
  let choice :=
    if empty input then (-1)%Z
    else match stoi input with
         | Some v => v
         | None => (-1)%Z
         end in
  (menuText, choice, cin).

Definition welcome : string := "Welcome to the course planner." +:+ endl.
Definition pleaseLoad : string :=
  "Please load data first using option 1." +:+ endl.
Definition goodbye : string :=
  "Thank you for using the course planner!" +:+ endl.
Definition notValid (choice : Z) : string :=
  show_int choice +:+ " is not a valid option." +:+ endl.

End Menu.

(** ** The map program ([part1 499.cpp] in [original.cpp]) *)

Module Part1.
Import Cstd Stream Norm.

(** The prerequisite loop of the loader:
    [while (getline(ss, prereq, ',')) { prereq = toUpper(trim(prereq));
       if (!prereq.empty()) c.prerequisites.push_back(prereq); }] *)
Definition addPrereq (prereq : string) (ps : list string) : list string :=
  let prereq := toUpper (trim prereq) in
  if empty prereq then ps else ps ++ [prereq].

(** The body of the line loop of [loadCoursesFromCsv]; every [continue]
    leaves [temp] as it was. *)
Definition loadLine (line : string) (temp : gmap string Course)
    : gmap string Course :=
  let line := trim line in
  if empty line then temp else
  let ss := open line in
  match getline ss comma with
  | (None, _) => temp
  | (Some courseNumber, ss) =>
      match getline ss comma with
      | (None, _) => temp
      | (Some title, ss) =>
          let courseNumber := toUpper (trim courseNumber) in
          let title := trim title in
          if empty courseNumber || empty title then temp else
          let prereqs := for_each_line ss comma addPrereq [] in
          <[courseNumber := mkCourse courseNumber title prereqs]> temp
      end
  end.

(** [loadCoursesFromCsv(fileName, coursesOut)]: the result and the new
    value of [coursesOut]. *)
Definition loadCoursesFromCsv (fs : FileSystem) (fileName : string)
    (coursesOut : gmap string Course) : bool * gmap string Course :=
  match fs fileName with
  | None => (false, coursesOut)
  | Some content =>
      let temp := for_each_line (open content) nl loadLine ∅ in
      (true, temp)
  end.

(** The keys in the order [printCourseList] visits them: collected from
    the map (in its unspecified iteration order) and sorted. *)
Definition sortedKeys (courses : gmap string Course) : list string :=
  merge_sort String.le (map_to_list courses).*1.

Definition courseLine (c : Course) : string :=
  courseNumber c +:+ ", " +:+ title c +:+ endl.

(** The courses [courses.at(key)] finds for the sorted keys (it cannot
    throw, the keys being those of the map). *)
Definition listed (courses : gmap string Course) : list Course :=
  omap (fun key => courses !! key) (sortedKeys courses).

Definition printCourseList (courses : gmap string Course) : string :=
  String.concat EmptyString (map courseLine (listed courses)).

(** [for (i = 0; i < n; ++i) { cout << p[i]; if (i + 1 < n) cout << ", "; }] *)
Fixpoint printPrereqs (ps : list string) : string :=
  match ps with
  | [] => EmptyString
  | p :: rest =>
      p +:+ (match rest with [] => EmptyString | _ :: _ => ", " end)
        +:+ printPrereqs rest
  end.

(** The two lines written for a course that was found. *)
Definition printCourse (c : Course) : string :=
  courseLine c +:+ "Prerequisites: " +:+
  (match prerequisites c with
   | [] => "None" +:+ endl
   | _ :: _ => printPrereqs (prerequisites c) +:+ endl
   end).

Definition printCourseDetails (courses : gmap string Course)
    (courseNumber : string) : string :=
  let courseNumber := toUpper (trim courseNumber) in
  match courses !! courseNumber with
  | None => "Error: Course not found" +:+ endl
  | Some c => printCourse c
  end.

(** The state of [main]: its two local variables. *)
Record State := mkState {
  courses : gmap string Course;
  dataLoaded : bool
}.

(** One round of [while (true) { ... }] in [main]. *)
Definition mainIter (fs : FileSystem) (st : State) (cin : istream)
    : string * Outcome (State * istream) :=
  let '(out, choice, cin) := Menu.displayMenu cin in
  match choice with
  | 1%Z =>
      let out := out +:+ "Enter file name: " in
      let '(filename, cin) := Menu.readLine cin in
      match loadCoursesFromCsv fs filename (courses st) with
      | (false, cs) =>
          (out +:+ "Error: File not found or could not be opened" +:+ endl,
           Next (mkState cs false, cin))
      | (true, cs) =>
          (out +:+ "Data loaded successfully." +:+ endl,
           Next (mkState cs true, cin))
      end
  | 2%Z =>
      if negb (dataLoaded st) then (out +:+ Menu.pleaseLoad, Next (st, cin))
      else (out +:+ "Here is a sample schedule:" +:+ endl +:+
            printCourseList (courses st), Next (st, cin))
  | 3%Z =>
      if negb (dataLoaded st) then (out +:+ Menu.pleaseLoad, Next (st, cin))
      else
        let out := out +:+ "What course do you want to know about? " in
        let '(courseNumber, cin) := Menu.readLine cin in
        (out +:+ printCourseDetails (courses st) courseNumber, Next (st, cin))
  | 9%Z => (out +:+ Menu.goodbye, Terminated 0%Z)
  | _ => (out +:+ Menu.notValid choice, Next (st, cin))
  end.

(** The first [rounds] rounds of the loop, from a given state. *)
Fixpoint mainLoop (rounds : nat) (fs : FileSystem) (st : State)
    (cin : istream) (out : string) : string * Outcome (State * istream) :=
  match rounds with
  | O => (out, Next (st, cin))
  | S rounds' =>
      match mainIter fs st cin with
      | (o, Next (st', cin')) => mainLoop rounds' fs st' cin' (out +:+ o)
      | (o, Terminated code) => (out +:+ o, Terminated code)
      end
  end.

Definition main (rounds : nat) (fs : FileSystem) (stdin : string)
    : string * Outcome (State * istream) :=
  mainLoop rounds fs (mkState ∅ false) (open stdin) Menu.welcome.

End Part1.

(** ** The binary-search-tree program ([artifact2.cpp]) *)

Module Artifact2.
Import Cstd Stream Norm.

(** A [Node*]: the null pointer, or a node owning its two children. *)
Inductive Node :=
  | nullptr
  | node (data : Course) (left right : Node).

(** [CourseBST::insert(Node*, const Course&)]. *)
Fixpoint insert (n : Node) (course : Course) : Node :=
  match n with
  | nullptr => node course nullptr nullptr
  | node data l r =>
      if lt (courseNumber course) (courseNumber data)
      then node data (insert l course) r
      else if gt (courseNumber course) (courseNumber data)
      then node data l (insert r course)
      else node course l r
  end.

(** [CourseBST::search(Node*, const std::string&)]; [None] is the null
    result. *)
Fixpoint search (n : Node) (key : string) : option Course :=
  match n with
  | nullptr => None
  | node data l r =>
      if String.eqb key (courseNumber data) then Some data
      else if lt key (courseNumber data) then search l key
      else search r key
  end.

(** The courses in the order [inOrderPrint] visits them. *)
Fixpoint inOrder (n : Node) : list Course :=
  match n with
  | nullptr => []
  | node data l r => inOrder l ++ data :: inOrder r
  end.

Definition courseLine (c : Course) : string :=
  courseNumber c +:+ ", " +:+ title c +:+ endl.

(** [CourseBST::inOrderPrint] on a node pointer: the text written. *)
Fixpoint inOrderPrint (n : Node) : string :=
  match n with
  | nullptr => EmptyString
  | node data l r => inOrderPrint l +:+ courseLine data +:+ inOrderPrint r
  end.

(** [class CourseBST]: its only member is the root. *)
Record CourseBST := mkBST { root : Node }.

Definition empty_bst : CourseBST := mkBST nullptr.

(** [clear()]: every node is destroyed and the root reset. *)
Definition clear (bst : CourseBST) : CourseBST := mkBST nullptr.

Definition bst_insert (bst : CourseBST) (course : Course) : CourseBST :=
  mkBST (insert (root bst) course).

Definition bst_search (bst : CourseBST) (courseNumber : string)
    : option Course :=
  search (root bst) courseNumber.

Definition printInOrder (bst : CourseBST) : string := inOrderPrint (root bst).

Definition addPrereq (prereq : string) (ps : list string) : list string :=
  let prereq := normalizeCourseNumber prereq in
  if empty prereq then ps else ps ++ [prereq].

(** The body of the line loop of [loadCoursesFromCsv]. *)
Definition loadLine (line : string) (bstOut : CourseBST) : CourseBST :=
  let line := trim line in
  if empty line then bstOut else
  let ss := open line in
  match getline ss comma with
  | (None, _) => bstOut
  | (Some courseNumber, ss) =>
      match getline ss comma with
      | (None, _) => bstOut
      | (Some title, ss) =>
          let prereqs := for_each_line ss comma addPrereq [] in
          bst_insert bstOut
            (mkCourse (normalizeCourseNumber courseNumber) (trim title)
                      prereqs)
      end
  end.

(** [loadCoursesFromCsv(fileName, bstOut)]. *)
Definition loadCoursesFromCsv (fs : FileSystem) (fileName : string)
    (bstOut : CourseBST) : bool * CourseBST :=
  match fs fileName with
  | None => (false, bstOut)
  | Some content =>
      (true, for_each_line (open content) nl loadLine (clear bstOut))
  end.

Fixpoint printPrereqs (ps : list string) : string :=
  match ps with
  | [] => EmptyString
  | p :: rest =>
      p +:+ (match rest with [] => EmptyString | _ :: _ => ", " end)
        +:+ printPrereqs rest
  end.

Definition printCourse (c : Course) : string :=
  courseLine c +:+ "Prerequisites: " +:+
  (match prerequisites c with
   | [] => "None" +:+ endl
   | _ :: _ => printPrereqs (prerequisites c) +:+ endl
   end).

Definition printCourseDetails (bst : CourseBST) (courseNumber : string)
    : string :=
  let courseNumber := normalizeCourseNumber courseNumber in
  match bst_search bst courseNumber with
  | None => "Error: Course not found" +:+ endl
  | Some c => printCourse c
  end.

Record State := mkState {
  bst : CourseBST;
  dataLoaded : bool
}.

(** One round of the loop of [main]. *)
Definition mainIter (fs : FileSystem) (st : State) (cin : istream)
    : string * Outcome (State * istream) :=
  let '(out, choice, cin) := Menu.displayMenu cin in
  match choice with
  | 1%Z =>
      let out := out +:+ "Enter file name: " in
      let '(filename, cin) := Menu.readLine cin in
      match loadCoursesFromCsv fs filename (bst st) with
      | (false, b) =>
          (out +:+ "Error: File not found or could not be opened" +:+ endl,
           Next (mkState b false, cin))
      | (true, b) =>
          (out +:+ "Data loaded successfully." +:+ endl,
           Next (mkState b true, cin))
      end
  | 2%Z =>
      if negb (dataLoaded st) then (out +:+ Menu.pleaseLoad, Next (st, cin))
      else (out +:+ "Here is a sample schedule:" +:+ endl +:+
            printInOrder (bst st), Next (st, cin))
  | 3%Z =>
      if negb (dataLoaded st) then (out +:+ Menu.pleaseLoad, Next (st, cin))
      else
        let out := out +:+ "What course do you want to know about? " in
        let '(courseNumber, cin) := Menu.readLine cin in
        (out +:+ printCourseDetails (bst st) courseNumber, Next (st, cin))
  | 9%Z => (out +:+ Menu.goodbye, Terminated 0%Z)
  | _ => (out +:+ Menu.notValid choice, Next (st, cin))
  end.

Fixpoint mainLoop (rounds : nat) (fs : FileSystem) (st : State)
    (cin : istream) (out : string) : string * Outcome (State * istream) :=
  match rounds with
  | O => (out, Next (st, cin))
  | S rounds' =>
      match mainIter fs st cin with
      | (o, Next (st', cin')) => mainLoop rounds' fs st' cin' (out +:+ o)
      | (o, Terminated code) => (out +:+ o, Terminated code)
      end
  end.

Definition main (rounds : nat) (fs : FileSystem) (stdin : string)
    : string * Outcome (State * istream) :=
  mainLoop rounds fs (mkState empty_bst false) (open stdin) Menu.welcome.

End Artifact2.

(** ** The database program ([part3.cpp]) *)

Module Part3.
Import Cstd Stream Norm.

(** The two relations of [createSchema], rows in insertion order:
    [courses(course_number PRIMARY KEY, title)] and
    [prerequisites(course_number, prereq_number)] with the pair as primary
    key and [course_number] referencing [courses] with cascading delete. *)
Record Database := mkDb {
  courses : list (string * string);
  prerequisites : list (string * string)
}.

Definition quote : ascii := "'"%char.

(** [strip_prefix p s]: what follows [p] in [s]. *)
Fixpoint strip_prefix (p s : string) : option string :=
  match p, s with
  | EmptyString, _ => Some s
  | String a p', String b s' =>
      if Ascii.eqb a b then strip_prefix p' s' else None
  | String _ _, EmptyString => None
  end.

(** An SQL string literal after its opening quote: the text up to the
    closing quote, a doubled quote standing for one quote. *)
Fixpoint read_literal (s : string) : option (string * string) :=
  match s with
  | EmptyString => None
  | String a rest =>
      if Ascii.eqb a quote then
        match rest with
        | String b rest' =>
            if Ascii.eqb b quote then
              match read_literal rest' with
              | Some (v, r) => Some (String quote v, r)
              | None => None
              end
            else Some (EmptyString, rest)
        | EmptyString => Some (EmptyString, rest)
        end
      else
        match read_literal rest with
        | Some (v, r) => Some (String a v, r)
        | None => None
        end
  end.

(** The statements [loadCoursesFromCSV] issues. *)
Inductive Statement :=
  | DeletePrerequisites
  | DeleteCourses
  | InsertOrReplaceCourse (number title : string)
  | InsertPrerequisite (number prereq : string).

(** [prefix ('v1', 'v2');] *)
Definition two_values (prefix sql : string) : option (string * string) :=
  r ← strip_prefix (prefix +:+ "('") sql;
  '(v1, r) ← read_literal r;
  r ← strip_prefix ", '" r;
  '(v2, r) ← read_literal r;
  if String.eqb r ");" then Some (v1, v2) else None.

(** The statement a text spells, when it is one statement of the four
    forms and nothing else. *)
Definition parse (sql : string) : option Statement :=
  if String.eqb sql "DELETE FROM prerequisites;" then Some DeletePrerequisites
  else if String.eqb sql "DELETE FROM courses;" then Some DeleteCourses
  else match two_values "INSERT OR REPLACE INTO courses VALUES " sql with
       | Some (n, t) => Some (InsertOrReplaceCourse n t)
       | None =>
           match two_values "INSERT INTO prerequisites VALUES " sql with
           | Some (n, q) => Some (InsertPrerequisite n q)
           | None => None
           end
       end.

Definition has_course (db : Database) (number : string) : bool :=
  existsb (fun row => String.eqb row.1 number) (courses db).

Definition has_prerequisite (db : Database) (number prereq : string) : bool :=
  existsb (fun row => String.eqb row.1 number && String.eqb row.2 prereq)
          (prerequisites db).

(** Modelled from the spec: the SQLite engine behind [sqlite3_exec], which
    is not among the sources, on the two relations of [createSchema]
    (section 6 of the specification) with foreign keys enforced by its
    pragma.  Deleting a course deletes its prerequisite rows, [REPLACE]
    deletes the row it replaces, and an insertion that breaks a primary
    or foreign key fails and changes nothing. *)
Definition run (db : Database) (stmt : Statement) : bool * Database :=
  match stmt with
  | DeletePrerequisites => (true, mkDb (courses db) [])
  | DeleteCourses =>
      (true, mkDb [] (List.filter (fun row => negb (has_course db row.1))
                                  (prerequisites db)))
  | InsertOrReplaceCourse number title =>
      if has_course db number then
        (true,
         mkDb (List.filter (fun row => negb (String.eqb row.1 number))
                           (courses db) ++ [(number, title)])
              (List.filter (fun row => negb (String.eqb row.1 number))
                           (prerequisites db)))
      else (true, mkDb (courses db ++ [(number, title)]) (prerequisites db))
  | InsertPrerequisite number prereq =>
      if has_prerequisite db number prereq then (false, db)
      else if has_course db number
      then (true, mkDb (courses db) (prerequisites db ++ [(number, prereq)]))
      else (false, db)
  end.

(** [Database::execute(sql)] on an open database: [sqlite3_exec] is given
    [sql.c_str()], so it sees the text up to the first NUL; the message on
    [std::cout] is left out.  The engine runs whatever SQL the text
    spells.  The result is given for the texts that are one statement of
    the four forms the loader is written to build; for every other text
    (the loader builds one only from a field that holds a quote or a NUL
    character) it is [None]: what the engine does then is not modelled. *)
Definition execute (db : Database) (sql : string)
    : option (bool * Database) :=
  match parse (c_str sql) with
  | Some stmt => Some (run db stmt)
  | None => None
  end.

Definition insertCourseSQL (courseNum title : string) : string :=
  "INSERT OR REPLACE INTO courses VALUES ('" +:+
  courseNum +:+ "', '" +:+ title +:+ "');".

Definition insertPrereqSQL (courseNum prereq : string) : string :=
  "INSERT INTO prerequisites VALUES ('" +:+
  courseNum +:+ "', '" +:+ prereq +:+ "');".

(** The body of the prerequisite loop; [Some (false, _)] is
    [return false]. *)
Definition loadPrereq (courseNum prereq : string) (db : Database)
    : option (bool * Database) :=
  let prereq := normalizeCourseNumber prereq in
  if empty prereq then Some (true, db)
  else execute db (insertPrereqSQL courseNum prereq).

(** The body of the line loop of [loadCoursesFromCSV]. *)
Definition loadLine (line : string) (db : Database)
    : option (bool * Database) :=
  let line := trim line in
  if empty line then Some (true, db) else
  let ss := open line in
  match getline ss comma with
  | (None, _) => Some (true, db)
  | (Some courseNum, ss) =>
      match getline ss comma with
      | (None, _) => Some (true, db)
      | (Some title, ss) =>
          let courseNum := normalizeCourseNumber courseNum in
          let title := trim title in
          match execute db (insertCourseSQL courseNum title) with
          | None => None
          | Some (false, db) => Some (false, db)
          | Some (true, db) =>
              for_each_line_try ss comma (loadPrereq courseNum) db
          end
      end
  end.

(** [loadCoursesFromCSV(filename, db)]: the result and the database
    afterwards.  The results of the two [DELETE] statements are not
    tested. *)
Definition loadCoursesFromCSV (fs : FileSystem) (filename : string)
    (db : Database) : option (bool * Database) :=
  match fs filename with
  | None => Some (false, db)
  | Some content =>
      match execute db "DELETE FROM prerequisites;" with
      | None => None
      | Some (_, db) =>
          match execute db "DELETE FROM courses;" with
          | None => None
          | Some (_, db) => for_each_line_try (open content) nl loadLine db
          end
      end
  end.

(** Modelled from the spec: the rows the engine returns for the two
    queries of [printCourseDetails], the parameter bound to [key].
    [SELECT title FROM courses WHERE course_number = ?] gives the title
    of the course, if there is one.
    [SELECT prereq_number FROM prerequisites WHERE course_number = ?] has
    no [ORDER BY]; the engine answers it from the index of the primary
    key [(course_number, prereq_number)], so the rows come in increasing
    order of [prereq_number], not in the order of insertion. *)
Definition title_query (db : Database) (key : string) : option string :=
  match List.find (fun row => String.eqb row.1 key) (courses db) with
  | Some row => Some row.2
  | None => None
  end.

Definition prereq_query (db : Database) (key : string) : list string :=
  merge_sort String.le
    (map snd (List.filter (fun row => String.eqb row.1 key)
                          (prerequisites db))).

(** [while (sqlite3_step(stmt) == SQLITE_ROW) { cout << text << " "; }],
    the column text written as a C string. *)
Fixpoint printPrereqs (ps : list string) : string :=
  match ps with
  | [] => EmptyString
  | p :: rest => c_str p +:+ " " +:+ printPrereqs rest
  end.

(** [printCourseDetails(db, courseNum)].  The parameter of both queries
    is bound to [courseNum.c_str()]; the first line writes [courseNum]
    itself. *)
Definition printCourseDetails (db : Database) (courseNum : string) : string :=
  let courseNum := normalizeCourseNumber courseNum in
  match title_query db (c_str courseNum) with
  | None => "Course not found" +:+ endl
  | Some title =>
      let ps := prereq_query db (c_str courseNum) in
      courseNum +:+ ", " +:+ c_str title +:+ endl +:+ "Prerequisites: " +:+
      (match ps with
       | [] => "None"
       | _ :: _ => printPrereqs ps
       end) +:+ endl
  end.

End Part3.

(** ** Notions used to state the properties *)

Module Spec.
Import Cstd Stream Norm.

(** [s] without its leading white space, and without its trailing white
    space. *)
Fixpoint lstrip (s : string) : string :=
  match s with
  | EmptyString => EmptyString
  | String ch rest => if isspace ch then lstrip rest else s
  end.

(** The leading white space of [s]. *)
Fixpoint leading (s : string) : string :=
  match s with
  | EmptyString => EmptyString
  | String ch rest => if isspace ch then String ch (leading rest) else EmptyString
  end.

Fixpoint rstrip (s : string) : string :=
  match s with
  | EmptyString => EmptyString
  | String ch rest =>
      match rstrip rest with
      | EmptyString => if isspace ch then EmptyString else String ch EmptyString
      | String _ _ as rest' => String ch rest'
      end
  end.

(** [ch] occurs in [s]. *)
Fixpoint contains (ch : ascii) (s : string) : bool :=
  match s with
  | EmptyString => false
  | String a rest => Ascii.eqb a ch || contains ch rest
  end.

(** The strings that successive calls of [std::getline] read from a
    stream until the first call that fails. *)
Definition reads (st : istream) (delim : ascii) : list string :=
  for_each_line st delim (fun str acc => acc ++ [str]) [].

(** The lines of a file and the comma-separated fields of a line. *)
Definition lines (content : string) : list string := reads (open content) nl.
Definition fields (line : string) : list string := reads (open line) comma.

(** The identifiers of a sequence of courses. *)
Definition numbers (cs : list Course) : list string := map courseNumber cs.

(** [s] starts with white space. *)
Definition headspace (s : string) : bool :=
  match s with
  | EmptyString => false
  | String ch _ => isspace ch
  end.

(** The prerequisite sequence of a record: the remaining fields, each
    normalised and kept, in input order, when it is not empty. *)
Definition prereqs_of (rest : list string) : list string :=
  filter (fun p => p <> EmptyString) (map normalizeCourseNumber rest).

(** The record parser as the specification words it: a line (trimmed)
    with fewer than two fields is skipped; the first field normalised is
    the identifier, the second trimmed is the title, and the line is
    skipped when either is empty. *)
Definition parse_line (line : string) : option Course :=
  match fields (trim line) with
  | raw :: rawTitle :: rest =>
      if empty (normalizeCourseNumber raw) || empty (trim rawTitle) then None
      else Some (mkCourse (normalizeCourseNumber raw) (trim rawTitle)
                          (prereqs_of rest))
  | _ => None
  end.

(** The same without the test for an empty identifier or title. *)
Definition parse_line_unchecked (line : string) : option Course :=
  match fields (trim line) with
  | raw :: rawTitle :: rest =>
      Some (mkCourse (normalizeCourseNumber raw) (trim rawTitle)
                     (prereqs_of rest))
  | _ => None
  end.

(** The records of the lines of a file, in input order. *)
Definition records (content : string) : list Course :=
  omap parse_line (lines content).

Definition records_unchecked (content : string) : list Course :=
  omap parse_line_unchecked (lines content).

(** Insert-or-replace in a catalog keyed by identifier. *)
Definition store (m : gmap string Course) (c : Course) : gmap string Course :=
  <[courseNumber c := c]> m.

(** The last course of [cs] whose identifier is [k]. *)
Definition latest (k : string) (cs : list Course) : option Course :=
  last (filter (fun c => courseNumber c = k) cs).

(** Every entry of the map sits under its own identifier. *)
Definition keyed (m : gmap string Course) : Prop :=
  forall k c, m !! k = Some c -> courseNumber c = k.

(** The ordering invariant of the tree: at every node the identifiers of
    the left subtree are smaller and those of the right subtree greater. *)
Fixpoint ordered (n : Artifact2.Node) : Prop :=
  match n with
  | Artifact2.nullptr => True
  | Artifact2.node data l r =>
      Forall (fun c => lt (courseNumber c) (courseNumber data) = true)
             (Artifact2.inOrder l)
      /\ Forall (fun c => lt (courseNumber data) (courseNumber c) = true)
                (Artifact2.inOrder r)
      /\ ordered l /\ ordered r
  end.

(** Strictly smaller, as a relation. *)
Definition slt (a b : string) : Prop := lt a b = true.

(** The detail report of the specification: the line of the course, then
    the prerequisites joined by comma and space, or [None]. *)
Definition detail (c : Course) : string :=
  courseNumber c +:+ ", " +:+ title c +:+ endl +:+
  "Prerequisites: " +:+
  (match prerequisites c with
   | [] => "None"
   | _ :: _ => String.concat ", " (prerequisites c)
   end) +:+ endl.

(** The same report with every prerequisite followed by one space. *)
Definition detail_spaced (c : Course) : string :=
  courseNumber c +:+ ", " +:+ title c +:+ endl +:+
  "Prerequisites: " +:+
  (match prerequisites c with
   | [] => "None"
   | _ :: _ => String.concat EmptyString (map (fun p => p +:+ " ") (prerequisites c))
   end) +:+ endl.

(** The public operations that change a tree, and a run of them from the
    empty tree. *)
Inductive Op :=
  | OpInsert (c : Course)
  | OpClear.

Definition apply_op (bst : Artifact2.CourseBST) (op : Op)
    : Artifact2.CourseBST :=
  match op with
  | OpInsert c => Artifact2.bst_insert bst c
  | OpClear => Artifact2.clear bst
  end.

Definition run (ops : list Op) : Artifact2.CourseBST :=
  fold_left apply_op ops Artifact2.empty_bst.

(** The courses inserted since the last [clear], oldest first. *)
Definition live (ops : list Op) : list Course :=
  fold_left (fun cs op => match op with
                          | OpInsert c => cs ++ [c]
                          | OpClear => []
                          end) ops [].

End Spec.

(** The input of the example of the specification, as the only file. *)
Definition sample : FileSystem := fun name =>
  if String.eqb name "courses.csv"
  then Some ("CS101, Intro to CS,CS100" +:+ Cstd.endl +:+ "CS100,Fundamentals")
  else None.

(** ** Further notions *)

Module More.
Import Cstd Stream Norm Spec.

(** Every character of [s] is white space. *)
Fixpoint all_space (s : string) : bool :=
  match s with
  | EmptyString => true
  | String ch rest => isspace ch && all_space rest
  end.

(** [s] ends with white space. *)
Fixpoint tailspace (s : string) : bool :=
  match s with
  | EmptyString => false
  | String ch EmptyString => isspace ch
  | String _ rest => tailspace rest
  end.

(** [ch] is one of [a]..[z]. *)
Definition islower (ch : ascii) : bool :=
  (97 <=? code ch)%N && (code ch <=? 122)%N.

Fixpoint has_lower (s : string) : bool :=
  match s with
  | EmptyString => false
  | String ch rest => islower ch || has_lower rest
  end.

(** A course as the loaders of the rewrites store it: identifier and
    prerequisites in normal form, title trimmed, no empty prerequisite. *)
Definition normal_course (c : Course) : Prop :=
  normalizeCourseNumber (courseNumber c) = courseNumber c
  /\ trim (title c) = title c
  /\ Forall (fun p => p <> EmptyString /\ normalizeCourseNumber p = p)
            (prerequisites c).

(** The height of a tree and the tree that is one chain of right
    children. *)
Fixpoint height (n : Artifact2.Node) : nat :=
  match n with
  | Artifact2.nullptr => O
  | Artifact2.node _ l r => S (Nat.max (height l) (height r))
  end.

Fixpoint right_spine (cs : list Course) : Artifact2.Node :=
  match cs with
  | [] => Artifact2.nullptr
  | c :: rest => Artifact2.node c Artifact2.nullptr (right_spine rest)
  end.

(** A file system whose files have no line with an empty identifier or
    title next to a second field: the two record parsers agree on them. *)
Definition clean (fs : FileSystem) : Prop :=
  forall name content, fs name = Some content ->
  records_unchecked content = records content.

(** The states of the map and tree programs that show the same catalog. *)
Definition same_catalog (st1 : Part1.State) (st2 : Artifact2.State) : Prop :=
  Part1.dataLoaded st1 = Artifact2.dataLoaded st2
  /\ Part1.printCourseList (Part1.courses st1)
     = Artifact2.printInOrder (Artifact2.bst st2)
  /\ forall k, Part1.courses st1 !! k
               = Artifact2.bst_search (Artifact2.bst st2) k.

(** The outcomes of a round of the two programs that agree. *)
Definition same_outcome
    (o1 : Outcome (Part1.State * istream))
    (o2 : Outcome (Artifact2.State * istream)) : Prop :=
  match o1, o2 with
  | Next (st1, cin1), Next (st2, cin2) => same_catalog st1 st2 /\ cin1 = cin2
  | Terminated c1, Terminated c2 => c1 = c2
  | _, _ => False
  end.

(** The catalog of the map program is empty or that of a file. *)
Definition from_file (fs : FileSystem) (m : gmap string Course) : Prop :=
  m = ∅
  \/ exists name content,
       fs name = Some content /\ m = fold_left store (records content) ∅.

(** The invariant of the states of the map program: the catalog is that
    of a file whenever the flag is set. *)
Definition map_inv (fs : FileSystem) (st : Part1.State) : Prop :=
  from_file fs (Part1.courses st)
  /\ (Part1.dataLoaded st = true ->
      exists name content,
        fs name = Some content
        /\ Part1.courses st = fold_left store (records content) ∅).

(** The conversion [std::stoi] does after white space and sign. *)
Definition convert (neg : bool) (s : string) : option Z :=
  if Menu.starts_with_digit s then
    let v := Menu.digits s 0 in
    let v := if neg then (- v)%Z else v in
    if ((-2147483648 <=? v)%Z && (v <=? 2147483647)%Z) then Some v else None
  else None.

(** The first course of [cs] whose identifier is [k]. *)
Definition first_match (k : string) (cs : list Course) : option Course :=
  List.find (fun c => String.eqb (courseNumber c) k) cs.

(** The course the original parser builds from the fields of a line. *)
Definition verbatim (fs : list string) : Course :=
  match fs with
  | [] => mkCourse EmptyString EmptyString []
  | [number] => mkCourse number EmptyString []
  | number :: title :: rest => mkCourse number title rest
  end.

(** The strings of [ls], each followed by the delimiter. *)
Fixpoint terminated (d : ascii) (ls : list string) : string :=
  match ls with
  | [] => EmptyString
  | l :: rest => l +:+ String d (terminated d rest)
  end.

(** The line of a course in the input format: identifier, title and
    prerequisites separated by commas. *)
Definition csv_line (c : Course) : string :=
  String.concat (String comma EmptyString)
    (courseNumber c :: title c :: prerequisites c).

(** No field of the course holds a comma or a newline. *)
Definition plain_course (c : Course) : Prop :=
  Forall (fun f => contains comma f = false /\ contains nl f = false)
         (courseNumber c :: title c :: prerequisites c).

(** A course that can be written as a line and read back. *)
Definition well_formed (c : Course) : Prop :=
  normal_course c /\ plain_course c
  /\ courseNumber c <> EmptyString /\ title c <> EmptyString.

(** A loop over [l] whose body can return [false] from the enclosing
    function, or do what the model does not cover. *)
Fixpoint fold_try {A B : Type} (body : B -> A -> option (bool * A))
    (l : list B) (acc : A) : option (bool * A) :=
  match l with
  | [] => Some (true, acc)
  | x :: rest =>
      match body x acc with
      | Some (true, acc') => fold_try body rest acc'
      | Some (false, acc') => Some (false, acc')
      | None => None
      end
  end.

(** The statements the database loader issues for one record: the course
    row, then one row for each prerequisite, stopping at the first
    statement that fails. *)
Definition db_store (c : Course) (db : Part3.Database)
    : option (bool * Part3.Database) :=
  match Part3.execute db
          (Part3.insertCourseSQL (courseNumber c) (title c)) with
  | None => None
  | Some (false, db') => Some (false, db')
  | Some (true, db') =>
      fold_try (fun p d =>
                  Part3.execute d (Part3.insertPrereqSQL (courseNumber c) p))
               (prerequisites c) db'
  end.

(** The rows of the two tables for a list of courses, in input order. *)
Definition course_rows (cs : list Course) : list (string * string) :=
  map (fun c => (courseNumber c, title c)) cs.

Definition prereq_rows (cs : list Course) : list (string * string) :=
  flat_map (fun c => map (fun p => (courseNumber c, p)) (prerequisites c)) cs.

(** No field of the course holds a quote or a NUL character, and no
    prerequisite is listed twice. *)
Definition sql_safe (c : Course) : Prop :=
  Forall (fun f => contains Part3.quote f = false /\ contains nul f = false)
         (courseNumber c :: title c :: prerequisites c)
  /\ NoDup (prerequisites c).

(** The course with its prerequisites in increasing order. *)
Definition by_prerequisite (c : Course) : Course :=
  mkCourse (courseNumber c) (title c)
           (merge_sort String.le (prerequisites c)).

(** [n] copies of [s]. *)
Fixpoint repeated (n : nat) (s : string) : string :=
  match n with
  | O => EmptyString
  | S n' => s +:+ repeated n' s
  end.

End More.

(** * Properties *)

#[local] Arguments String.append : simpl nomatch.

(** * Characters *)

Section Characters.
Import Cstd.

Lemma isspace_toupper ch : isspace (toupper ch) = isspace ch.
Proof. destruct ch as [[] [] [] [] [] [] [] []]; reflexivity. Qed.

Lemma toupper_idem ch : toupper (toupper ch) = toupper ch.
Proof. destruct ch as [[] [] [] [] [] [] [] []]; reflexivity. Qed.

Lemma comma_not_space : isspace comma = false.
Proof. reflexivity. Qed.

End Characters.

(** * Strings *)

Section Strings.
Import Cstd.

Lemma append_nil_r (s : string) : s +:+ EmptyString = s.
Proof. induction s as [|ch s IH]; simpl; [done | by rewrite IH]. Qed.

Lemma append_assoc (a b c : string) : (a +:+ b) +:+ c = a +:+ (b +:+ c).
Proof. induction a as [|ch a IH]; simpl; [done | by rewrite IH]. Qed.

Lemma length_append (a b : string) :
  String.length (a +:+ b) = (String.length a + String.length b)%nat.
Proof. induction a as [|ch a IH]; simpl; [done | by rewrite IH]. Qed.

Lemma append_snoc (a : string) (ch : ascii) (b : string) :
  a +:+ String ch b = (a +:+ String ch EmptyString) +:+ b.
Proof. by rewrite append_assoc. Qed.

(** Induction from the right end of a string. *)
Lemma string_rev_ind (P : string -> Prop) :
  P EmptyString ->
  (forall s ch, P s -> P (s +:+ String ch EmptyString)) ->
  forall s, P s.
Proof.
  intros Hnil Hsnoc s.
  rewrite <- (string_of_list_ascii_of_string s).
  induction (list_ascii_of_string s) as [|ch l IH] using rev_ind; [done|].
  assert (Happ : forall l1 l2, string_of_list_ascii (l1 ++ l2)
            = string_of_list_ascii l1 +:+ string_of_list_ascii l2).
  { intros l1 l2. induction l1 as [|a l1 IH1]; simpl; [done | by rewrite IH1]. }
  rewrite Happ. simpl. by apply Hsnoc.
Qed.

Lemma at_append (p : string) (ch : ascii) (r : string) :
  at_ (p +:+ String ch r) (String.length p) = ch.
Proof.
  unfold at_. induction p as [|a p IH]; simpl; [done | exact IH].
Qed.

Lemma substring_append_skip (p s : string) (n : nat) :
  String.substring (String.length p) n (p +:+ s) = String.substring 0 n s.
Proof. induction p as [|a p IH]; simpl; [done | exact IH]. Qed.

Lemma substring_prefix (a b : string) :
  String.substring 0 (String.length a) (a +:+ b) = a.
Proof.
  induction a as [|ch a IH]; simpl.
  - by destruct b.
  - by rewrite IH.
Qed.

End Strings.

(** * [trim] *)

Section Trim.
Import Cstd Norm Spec.

Lemma leading_lstrip (s : string) : leading s +:+ lstrip s = s.
Proof.
  induction s as [|ch s IH]; simpl; [done|].
  destruct (isspace ch); simpl; [by rewrite IH | done].
Qed.

Lemma skip_front_spec (r : string) : forall (p : string) (fuel : nat),
  (String.length r <= fuel)%nat ->
  skip_front fuel (p +:+ r) (String.length p)
  = (String.length p + String.length (leading r))%nat.
Proof.
  unfold size.
  induction r as [|ch r IH]; intros p fuel Hfuel.
  - rewrite append_nil_r. simpl. destruct fuel as [|fuel]; simpl; [lia|].
    unfold size. rewrite Nat.ltb_irrefl. simpl. lia.
  - destruct fuel as [|fuel]; simpl in Hfuel; [lia|].
    simpl. unfold size. rewrite length_append. simpl.
    replace (String.length p <? String.length p + S (String.length r))%nat
      with true by (symmetry; apply Nat.ltb_lt; lia).
    rewrite at_append. simpl. destruct (isspace ch) eqn:Hsp; simpl; [|lia].
    rewrite append_snoc.
    replace (S (String.length p))
      with (String.length (p +:+ String ch EmptyString))
      by (rewrite length_append; simpl; lia).
    rewrite IH by lia. rewrite length_append. simpl. lia.
Qed.

Lemma rstrip_snoc (b : string) (ch : ascii) :
  rstrip (b +:+ String ch EmptyString)
  = if isspace ch then rstrip b else b +:+ String ch EmptyString.
Proof.
  induction b as [|a b IH]; simpl.
  - by destruct (isspace ch).
  - rewrite IH. destruct (isspace ch) eqn:Hsp; [done|].
    destruct b; simpl; done.
Qed.

Lemma skip_back_spec (body : string) : forall (p extra : string),
  skip_back (p +:+ body +:+ extra) (String.length p)
            (String.length p + String.length body)
  = (String.length p + String.length (rstrip body))%nat.
Proof.
  induction body as [|body ch IH] using string_rev_ind; intros p extra.
  - simpl. rewrite Nat.add_0_r. destruct (String.length p) as [|n] eqn:Hn.
    + reflexivity.
    + simpl. by rewrite Nat.ltb_irrefl.
  - rewrite length_append. simpl.
    replace (String.length p + (String.length body + 1))%nat
      with (S (String.length p + String.length body)) by lia.
    simpl.
    replace (String.length p <? S (String.length p + String.length body))%nat
      with true by (symmetry; apply Nat.ltb_lt; lia).
    simpl.
    rewrite (append_assoc body). simpl.
    rewrite <- (append_assoc p body).
    replace (String.length p + String.length body)%nat
      with (String.length (p +:+ body)) by apply length_append.
    rewrite at_append. rewrite rstrip_snoc.
    destruct (isspace ch) eqn:Hsp.
    + rewrite length_append. rewrite append_assoc. apply IH.
    + rewrite !length_append. simpl. lia.
Qed.

Lemma rstrip_prefix (s : string) : exists t, s = rstrip s +:+ t.
Proof.
  induction s as [|ch s [t IH]]; simpl; [by exists EmptyString|].
  destruct (rstrip s) as [|a r] eqn:Hr.
  - destruct (isspace ch).
    + exists (String ch s). done.
    + exists s. done.
  - exists t. simpl in *. by f_equal.
Qed.

Lemma substring_rstrip (b : string) :
  String.substring 0 (String.length (rstrip b)) b = rstrip b.
Proof.
  destruct (rstrip_prefix b) as [t Ht].
  set (r := rstrip b) in *. rewrite Ht. apply substring_prefix.
Qed.

(** [trim] removes the white space at both ends. *)
Lemma trim_spec (s : string) : trim s = rstrip (lstrip s).
Proof.
  unfold trim, substr, size.
  assert (Hf : skip_front (String.length s) s 0 = String.length (leading s)).
  { exact (skip_front_spec s EmptyString (String.length s) (le_n _)). }
  assert (Hb : skip_back s (String.length (leading s)) (String.length s)
               = (String.length (leading s)
                  + String.length (rstrip (lstrip s)))%nat).
  { pose proof (skip_back_spec (lstrip s) (leading s) EmptyString) as Hb.
    rewrite append_nil_r, <- length_append, leading_lstrip in Hb. exact Hb. }
  rewrite Hf, Hb.
  replace (String.length (leading s) + String.length (rstrip (lstrip s))
           - String.length (leading s))%nat
    with (String.length (rstrip (lstrip s))) by lia.
  transitivity (String.substring (String.length (leading s))
                  (String.length (rstrip (lstrip s)))
                  (leading s +:+ lstrip s)).
  { by rewrite leading_lstrip. }
  rewrite substring_append_skip. apply substring_rstrip.
Qed.

End Trim.

(** * Normalisation *)

Section Normalise.
Import Cstd Norm Spec.

Lemma lstrip_fixed (s : string) : headspace s = false -> lstrip s = s.
Proof. destruct s as [|ch s]; simpl; [done | by intros ->]. Qed.

Lemma headspace_lstrip (s : string) : headspace (lstrip s) = false.
Proof.
  induction s as [|ch s IH]; simpl; [done|].
  destruct (isspace ch) eqn:Hsp; [done | by simpl].
Qed.

Lemma headspace_rstrip (s : string) :
  headspace s = false -> headspace (rstrip s) = false.
Proof.
  destruct s as [|ch s]; simpl; [done|]. intros Hsp.
  destruct (rstrip s); simpl; by rewrite ?Hsp.
Qed.

Lemma rstrip_idem (s : string) : rstrip (rstrip s) = rstrip s.
Proof.
  induction s as [|ch s IH]; simpl; [done|].
  destruct (rstrip s) as [|a r] eqn:Hr.
  - destruct (isspace ch) eqn:Hsp; simpl; [done | by rewrite Hsp].
  - change (rstrip (String ch (String a r))) with
      (match rstrip (String a r) with
       | EmptyString => if isspace ch then EmptyString else String ch EmptyString
       | String _ _ as rest' => String ch rest'
       end).
    by rewrite IH.
Qed.

Lemma trim_idem (s : string) : trim (trim s) = trim s.
Proof.
  rewrite !trim_spec.
  rewrite (lstrip_fixed (rstrip (lstrip s))).
  - apply rstrip_idem.
  - apply headspace_rstrip, headspace_lstrip.
Qed.

Lemma lstrip_toUpper (s : string) : lstrip (toUpper s) = toUpper (lstrip s).
Proof.
  induction s as [|ch s IH]; simpl; [done|].
  rewrite isspace_toupper. by destruct (isspace ch).
Qed.

Lemma rstrip_toUpper (s : string) : rstrip (toUpper s) = toUpper (rstrip s).
Proof.
  induction s as [|ch s IH]; simpl; [done|].
  rewrite IH, isspace_toupper.
  destruct (rstrip s); simpl; [by destruct (isspace ch) | done].
Qed.

Lemma trim_toUpper (s : string) : trim (toUpper s) = toUpper (trim s).
Proof. by rewrite !trim_spec, lstrip_toUpper, rstrip_toUpper. Qed.

Lemma toUpper_idem (s : string) : toUpper (toUpper s) = toUpper s.
Proof.
  induction s as [|ch s IH]; simpl; [done|]. by rewrite toupper_idem, IH.
Qed.

Lemma empty_true (s : string) : empty s = true <-> s = EmptyString.
Proof. by destruct s. Qed.

Lemma empty_false (s : string) : empty s = false <-> s <> EmptyString.
Proof. by destruct s. Qed.

Lemma empty_toUpper (s : string) : empty (toUpper s) = empty s.
Proof. by destruct s. Qed.

End Normalise.

(** C7. [normalize] (trim, then upper-case) is idempotent, both as
    [normalizeCourseNumber] of the tree and database programs and as the
    composition [toUpper (trim x)] the map program writes out. *)
Theorem normalize_idempotent (x : string) :
  Norm.normalizeCourseNumber (Norm.normalizeCourseNumber x)
  = Norm.normalizeCourseNumber x.
Proof.
  unfold Norm.normalizeCourseNumber.
  by rewrite trim_toUpper, trim_idem, toUpper_idem.
Qed.

(** * The order of [std::string] *)

Section Order.
Import Cstd.

Lemma compare_refl (a : string) : String.compare a a = Eq.
Proof.
  pose proof (String.compare_antisym a a) as H.
  destruct (String.compare a a); simpl in H; congruence.
Qed.

Lemma lt_compare (a b : string) : lt a b = true <-> String.compare a b = Lt.
Proof. unfold lt, String.ltb. destruct (String.compare a b); split; congruence. Qed.

Lemma lt_le_ne (a b : string) : lt a b = true <-> String.le a b /\ a <> b.
Proof.
  rewrite lt_compare. unfold String.le, String.leb. split.
  - intros H. rewrite H. split; [done|]. intros ->.
    rewrite compare_refl in H. done.
  - intros [Hle Hne]. destruct (String.compare a b) eqn:Hc; [|done|done].
    apply String.compare_eq_iff in Hc. done.
Qed.

Lemma lt_irrefl (a : string) : lt a a = false.
Proof.
  destruct (lt a a) eqn:H; [|done]. apply lt_le_ne in H as [_ H]. done.
Qed.

Lemma lt_trans (a b c : string) :
  lt a b = true -> lt b c = true -> lt a c = true.
Proof.
  rewrite !lt_le_ne. intros [Hab Nab] [Hbc Nbc]. split.
  - by etrans.
  - intros ->. apply Nab. by apply (anti_symm String.le).
Qed.

Lemma lt_asym (a b : string) : lt a b = true -> lt b a = false.
Proof.
  intros H. destruct (lt b a) eqn:H'; [|done].
  pose proof (lt_trans _ _ _ H H') as Hc. by rewrite lt_irrefl in Hc.
Qed.

(** When neither [a < b] nor [a > b], the strings are equal: the last
    branch of [insert]. *)
Lemma lt_total (a b : string) : lt a b = false -> gt a b = false -> a = b.
Proof.
  unfold gt, lt, String.ltb. rewrite (String.compare_antisym b a).
  destruct (String.compare a b) eqn:Hc; simpl; try done.
  intros _ _. by apply String.compare_eq_iff.
Qed.

Lemma lt_eqb (a b : string) : lt a b = true -> String.eqb a b = false.
Proof.
  intros H. apply String.eqb_neq. intros ->. by rewrite lt_irrefl in H.
Qed.

Lemma lt_le (a b : string) : lt a b = true -> String.le a b.
Proof. intros H. by apply lt_le_ne in H as [H _]. Qed.

End Order.

(** * Streams *)

Section Streams.
Import Cstd Stream Spec.

Lemma read_until_length (d : ascii) (s : string) :
  (String.length (read_until d s).1
   + from_option (fun r => S (String.length r)) 0%nat (read_until d s).2
   = String.length s)%nat.
Proof.
  induction s as [|ch s IH]; simpl; [done|].
  destruct (Ascii.eqb ch d); simpl; [done|].
  destruct (read_until d s) as [f r]. simpl in *. lia.
Qed.

(** A successful [getline] consumes at least one character. *)
Lemma getline_shrinks (st st' : istream) (d : ascii) (str : string) :
  getline st d = (Some str, st') ->
  (String.length (buf st') < String.length (buf st))%nat.
Proof.
  unfold getline. destruct (good st); [|done].
  destruct (buf st) as [|ch s] eqn:Hbuf; [done|].
  pose proof (read_until_length d (String ch s)) as Hlen.
  destruct (read_until d (String ch s)) as [f [r|]]; simpl in Hlen;
    intros [= <- <-]; simpl; lia.
Qed.

(** The loop does not depend on the fuel once it exceeds the input. *)
Lemma while_getline_fuel {A : Type} (d : ascii) (body : string -> A -> A) :
  forall (f1 f2 : nat) (st : istream) (acc : A),
  (String.length (buf st) < f1)%nat -> (String.length (buf st) < f2)%nat ->
  while_getline f1 st d body acc = while_getline f2 st d body acc.
Proof.
  induction f1 as [|f1 IH]; intros f2 st acc H1 H2; [lia|].
  destruct f2 as [|f2]; [lia|]. simpl.
  destruct (getline st d) as [[str|] st'] eqn:Hg; [|done].
  apply getline_shrinks in Hg. apply IH; lia.
Qed.

Lemma while_getline_try_fuel {A : Type} (d : ascii)
    (body : string -> A -> option (bool * A)) :
  forall (f1 f2 : nat) (st : istream) (acc : A),
  (String.length (buf st) < f1)%nat -> (String.length (buf st) < f2)%nat ->
  while_getline_try f1 st d body acc = while_getline_try f2 st d body acc.
Proof.
  induction f1 as [|f1 IH]; intros f2 st acc H1 H2; [lia|].
  destruct f2 as [|f2]; [lia|]. simpl.
  destruct (getline st d) as [[str|] st'] eqn:Hg; [|done].
  apply getline_shrinks in Hg.
  destruct (body str acc) as [[[] acc']|]; [apply IH; lia | done | done].
Qed.

Lemma while_getline_snoc (d : ascii) :
  forall (fuel : nat) (st : istream) (l0 : list string),
  while_getline fuel st d (fun str acc => acc ++ [str]) l0
  = l0 ++ while_getline fuel st d (fun str acc => acc ++ [str]) [].
Proof.
  induction fuel as [|fuel IH]; intros st l0; simpl.
  - by rewrite app_nil_r.
  - destruct (getline st d) as [[str|] st']; [|by rewrite app_nil_r].
    rewrite (IH st' (l0 ++ [str])), (IH st' [str]).
    by rewrite <- app_assoc.
Qed.

Lemma while_getline_fold {A : Type} (d : ascii) (body : string -> A -> A) :
  forall (fuel : nat) (st : istream) (acc : A),
  while_getline fuel st d body acc
  = fold_left (fun a str => body str a)
      (while_getline fuel st d (fun str l => l ++ [str]) []) acc.
Proof.
  induction fuel as [|fuel IH]; intros st acc; simpl; [done|].
  destruct (getline st d) as [[str|] st']; [|done].
  rewrite while_getline_snoc. simpl. apply IH.
Qed.

(** A [while (getline ...)] loop folds its body over the strings read. *)
Lemma for_each_line_fold {A : Type} (st : istream) (d : ascii)
    (body : string -> A -> A) (acc : A) :
  for_each_line st d body acc
  = fold_left (fun a str => body str a) (reads st d) acc.
Proof. apply while_getline_fold. Qed.

Lemma reads_step (st st' : istream) (d : ascii) (str : string) :
  getline st d = (Some str, st') -> reads st d = str :: reads st' d.
Proof.
  intros Hg. set (rhs := reads st' d).
  unfold reads, for_each_line. simpl. rewrite Hg.
  rewrite while_getline_snoc. simpl. f_equal.
  apply getline_shrinks in Hg. apply while_getline_fuel; lia.
Qed.

Lemma reads_stop (st st' : istream) (d : ascii) :
  getline st d = (None, st') -> reads st d = [].
Proof. intros Hg. unfold reads, for_each_line. simpl. by rewrite Hg. Qed.

Lemma read_until_found (d : ascii) (x rest : string) :
  contains d x = false ->
  read_until d (x +:+ String d rest) = (x, Some rest).
Proof.
  induction x as [|ch x IH]; simpl.
  - by rewrite Ascii.eqb_refl.
  - intros [Hch Hx]%orb_false_elim. rewrite Hch, (IH Hx). done.
Qed.

Lemma read_until_end (d : ascii) (x : string) :
  contains d x = false -> read_until d x = (x, None).
Proof.
  induction x as [|ch x IH]; simpl; [done|].
  intros [Hch Hx]%orb_false_elim. rewrite Hch, (IH Hx). done.
Qed.

Lemma getline_found (d : ascii) (x rest : string) :
  contains d x = false ->
  getline (open (x +:+ String d rest)) d = (Some x, open rest).
Proof.
  intros Hx. unfold getline, open, good. simpl.
  rewrite (read_until_found d x rest Hx).
  by destruct (x +:+ String d rest) eqn:E; [destruct x; done|].
Qed.

Lemma getline_end (d : ascii) (x : string) :
  contains d x = false -> x <> EmptyString ->
  getline (open x) d = (Some x, mkStream EmptyString true false).
Proof.
  intros Hx Hne. unfold getline, open, good. simpl.
  rewrite (read_until_end d x Hx). by destruct x.
Qed.

Lemma getline_empty (d : ascii) :
  getline (open EmptyString) d = (None, mkStream EmptyString true true).
Proof. done. Qed.

Lemma getline_eof (d : ascii) :
  getline (mkStream EmptyString true false) d
  = (None, mkStream EmptyString true true).
Proof. done. Qed.

(** Either the delimiter does not occur, or the string splits at its
    first occurrence. *)
Lemma contains_split (d : ascii) (s : string) :
  contains d s = false
  \/ exists x rest, s = x +:+ String d rest /\ contains d x = false.
Proof.
  induction s as [|ch s IH]; simpl; [by left|].
  destruct (Ascii.eqb ch d) eqn:Hch.
  - right. exists EmptyString, s. apply Ascii.eqb_eq in Hch as ->. done.
  - destruct IH as [IH | (x & rest & -> & Hx)]; [by left|].
    right. exists (String ch x), rest. simpl. by rewrite Hch, Hx.
Qed.

Lemma reads_nonempty (d : ascii) (s : string) :
  s <> EmptyString -> reads (open s) d <> [].
Proof.
  intros Hne. destruct (contains_split d s) as [Hs | (x & rest & -> & Hx)].
  - by rewrite (reads_step _ _ _ _ (getline_end d s Hs Hne)).
  - by rewrite (reads_step _ _ _ _ (getline_found d x rest Hx)).
Qed.

(** A string with fewer than two fields has no comma, or a single one at
    its very end. *)
Lemma fields_lt2 (s : string) :
  (length (fields s) < 2)%nat ->
  contains comma s = false
  \/ exists x, s = x +:+ String comma EmptyString /\ contains comma x = false.
Proof.
  intros Hlen.
  destruct (contains_split comma s) as [Hs | (x & rest & -> & Hx)]; [by left|].
  right. exists x. split; [|done].
  unfold fields in Hlen.
  rewrite (reads_step _ _ _ _ (getline_found comma x rest Hx)) in Hlen.
  destruct rest as [|ch rest]; [done|].
  pose proof (reads_nonempty comma (String ch rest)) as Hne.
  destruct (reads (open (String ch rest)) comma); simpl in Hlen; [|lia].
  by destruct Hne.
Qed.

End Streams.

(** * The record parser *)

Section Parser.
Import Cstd Stream Norm Spec.

Lemma fold_addPrereq (rest acc : list string) :
  fold_left (fun ps p => Part1.addPrereq p ps) rest acc
  = acc ++ prereqs_of rest.
Proof.
  unfold prereqs_of.
  revert acc. induction rest as [|p rest IH]; intros acc; simpl.
  - by rewrite app_nil_r.
  - rewrite IH. unfold Part1.addPrereq.
    change (toUpper (trim p)) with (normalizeCourseNumber p).
    rewrite filter_cons.
    destruct (normalizeCourseNumber p) as [|ch q] eqn:Hp; cbn [empty].
    + by rewrite decide_False by (by intros []).
    + rewrite decide_True by done. by rewrite <- app_assoc.
Qed.

Lemma prereq_loop (ss : istream) :
  for_each_line ss comma Part1.addPrereq [] = prereqs_of (reads ss comma).
Proof. by rewrite for_each_line_fold, fold_addPrereq. Qed.

Lemma addPrereq_same : Artifact2.addPrereq = Part1.addPrereq.
Proof. reflexivity. Qed.

(** The line loop body of the map loader refines the record parser of the
    specification. *)
Lemma map_loadLine_parse (line : string) (temp : gmap string Course) :
  Part1.loadLine line temp
  = match parse_line line with
    | Some c => store temp c
    | None => temp
    end.
Proof.
  unfold Part1.loadLine, parse_line, fields.
  destruct (trim line) as [|a t] eqn:Ht; [done|].
  cbn [empty].
  destruct (getline (open (String a t)) comma) as [[cn|] ss1] eqn:H1.
  2: { by rewrite (reads_stop _ _ _ H1). }
  rewrite (reads_step _ _ _ _ H1).
  destruct (getline ss1 comma) as [[ti|] ss2] eqn:H2.
  2: { by rewrite (reads_stop _ _ _ H2). }
  rewrite (reads_step _ _ _ _ H2).
  change (toUpper (trim cn)) with (normalizeCourseNumber cn).
  destruct (empty (normalizeCourseNumber cn) || empty (trim ti)); [done|].
  by rewrite prereq_loop.
Qed.

(** The tree loader does the same without rejecting an empty identifier
    or title. *)
Lemma tree_loadLine_parse (line : string) (bst : Artifact2.CourseBST) :
  Artifact2.loadLine line bst
  = match parse_line_unchecked line with
    | Some c => Artifact2.bst_insert bst c
    | None => bst
    end.
Proof.
  unfold Artifact2.loadLine, parse_line_unchecked, fields.
  destruct (trim line) as [|a t] eqn:Ht; [done|].
  cbn [empty].
  destruct (getline (open (String a t)) comma) as [[cn|] ss1] eqn:H1.
  2: { by rewrite (reads_stop _ _ _ H1). }
  rewrite (reads_step _ _ _ _ H1).
  destruct (getline ss1 comma) as [[ti|] ss2] eqn:H2.
  2: { by rewrite (reads_stop _ _ _ H2). }
  rewrite (reads_step _ _ _ _ H2).
  by rewrite addPrereq_same, prereq_loop.
Qed.

Lemma fold_parse {A : Type} (parse : string -> option Course)
    (step : string -> A -> A) (ins : A -> Course -> A) :
  (forall line acc, step line acc
     = match parse line with Some c => ins acc c | None => acc end) ->
  forall (ls : list string) (acc : A),
  fold_left (fun a l => step l a) ls acc = fold_left ins (omap parse ls) acc.
Proof.
  intros Hstep ls. induction ls as [|l ls IH]; intros acc; simpl; [done|].
  rewrite IH, Hstep. by destruct (parse l).
Qed.

(** What a successful load of the map program leaves in the catalog. *)
Lemma map_load_spec (fs : FileSystem) (fileName content : string)
    (old : gmap string Course) :
  fs fileName = Some content ->
  Part1.loadCoursesFromCsv fs fileName old
  = (true, fold_left store (records content) ∅).
Proof.
  intros Hfs. unfold Part1.loadCoursesFromCsv. rewrite Hfs. f_equal.
  rewrite for_each_line_fold.
  apply (fold_parse parse_line Part1.loadLine store), map_loadLine_parse.
Qed.

Lemma tree_load_spec (fs : FileSystem) (fileName content : string)
    (old : Artifact2.CourseBST) :
  fs fileName = Some content ->
  Artifact2.loadCoursesFromCsv fs fileName old
  = (true, fold_left Artifact2.bst_insert (records_unchecked content)
             Artifact2.empty_bst).
Proof.
  intros Hfs. unfold Artifact2.loadCoursesFromCsv. rewrite Hfs. f_equal.
  rewrite for_each_line_fold.
  apply (fold_parse parse_line_unchecked Artifact2.loadLine
           Artifact2.bst_insert), tree_loadLine_parse.
Qed.

Lemma parse_line_nonempty (line : string) (c : Course) :
  parse_line line = Some c ->
  courseNumber c <> EmptyString /\ title c <> EmptyString.
Proof.
  unfold parse_line. destruct (fields (trim line)) as [|raw [|rt rest]]; try done.
  destruct (empty (normalizeCourseNumber raw) || empty (trim rt)) eqn:He; [done|].
  apply orb_false_elim in He as [H1 H2]. intros [= <-]. simpl.
  by split; apply empty_false.
Qed.

End Parser.

(** * The map catalog *)

Section MapCatalog.
Import Cstd Spec.
Implicit Types (m : gmap string Course) (cs : list Course) (c : Course).

Lemma latest_snoc (k : string) cs c :
  latest k (cs ++ [c])
  = if decide (courseNumber c = k) then Some c else latest k cs.
Proof.
  unfold latest. rewrite filter_app, filter_cons, filter_nil.
  case_decide; [apply last_snoc | by rewrite app_nil_r].
Qed.

(** Last write wins: a key holds the last course stored under it. *)
Lemma lookup_fold_store cs : forall m (k : string),
  fold_left store cs m !! k
  = match latest k cs with Some c => Some c | None => m !! k end.
Proof.
  induction cs as [|c cs IH] using rev_ind; intros m k; [done|].
  rewrite fold_left_app, latest_snoc. simpl. unfold store at 1.
  case_decide as Hk.
  - subst k. apply lookup_insert_eq.
  - rewrite lookup_insert_ne by done. apply IH.
Qed.

Lemma latest_Some (k : string) cs c :
  latest k cs = Some c -> courseNumber c = k /\ c ∈ cs.
Proof.
  unfold latest. intros H. apply last_Some_elem_of in H.
  apply list_elem_of_filter in H. done.
Qed.

Lemma latest_None (k : string) cs :
  latest k cs = None <-> k ∉ numbers cs.
Proof.
  unfold latest, numbers. rewrite last_None. split.
  - intros Hnil Hin. apply list_elem_of_fmap in Hin as (c & -> & Hc).
    assert (c ∈ filter (fun c' => courseNumber c' = courseNumber c) cs) as Hf
      by (by apply list_elem_of_filter).
    rewrite Hnil in Hf. by apply elem_of_nil in Hf.
  - intros Hnot. induction cs as [|c cs IH]; [done|].
    rewrite filter_cons. rewrite decide_False.
    + apply IH. intros Hin. apply Hnot. simpl. by right.
    + intros Hk. apply Hnot. simpl. rewrite Hk. by left.
Qed.

Lemma keyed_fold_store cs m : keyed m -> keyed (fold_left store cs m).
Proof.
  intros Hm k c. rewrite lookup_fold_store.
  destruct (latest k cs) as [c'|] eqn:Hl.
  - intros [= <-]. by apply latest_Some in Hl as [? _].
  - apply Hm.
Qed.

Lemma keyed_empty : keyed ∅.
Proof. intros k c. by rewrite lookup_empty. Qed.

Lemma sortedKeys_perm m : Part1.sortedKeys m ≡ₚ (map_to_list m).*1.
Proof. apply merge_sort_Permutation. Qed.

Lemma elem_of_sortedKeys m (k : string) :
  k ∈ Part1.sortedKeys m <-> is_Some (m !! k).
Proof.
  rewrite sortedKeys_perm, list_elem_of_fmap. split.
  - intros ([k' c] & -> & H). apply elem_of_map_to_list in H. eauto.
  - intros [c H]. exists (k, c). split; [done|]. by apply elem_of_map_to_list.
Qed.

Lemma sortedKeys_NoDup m : NoDup (Part1.sortedKeys m).
Proof. rewrite sortedKeys_perm. apply NoDup_fst_map_to_list. Qed.

Lemma sortedKeys_sorted m : Sorted String.le (Part1.sortedKeys m).
Proof. apply (Sorted_merge_sort String.le). Qed.

Lemma omap_lookup_keys m (ks : list string) :
  keyed m -> Forall (fun k => is_Some (m !! k)) ks ->
  numbers (omap (fun k => m !! k) ks) = ks.
Proof.
  intros Hm. unfold numbers.
  induction 1 as [|k ks [c Hc] _ IH]; simpl; [done|].
  rewrite Hc. simpl. rewrite (Hm _ _ Hc). f_equal. exact IH.
Qed.

(** The identifiers [printCourseList] prints are the sorted keys. *)
Lemma numbers_listed m : keyed m -> numbers (Part1.listed m) = Part1.sortedKeys m.
Proof.
  intros Hm. apply omap_lookup_keys; [done|].
  apply Forall_forall. intros k. apply elem_of_sortedKeys.
Qed.

Lemma sortedKeys_fold_store cs :
  Part1.sortedKeys (fold_left store cs ∅) ≡ₚ remove_dups (numbers cs).
Proof.
  apply NoDup_Permutation.
  - apply sortedKeys_NoDup.
  - apply NoDup_remove_dups.
  - intros k. rewrite elem_of_sortedKeys, elem_of_remove_dups.
    rewrite lookup_fold_store, lookup_empty.
    destruct (latest k cs) as [c|] eqn:Hl.
    + apply latest_Some in Hl as [<- Hc]. split; [|by eauto].
      intros _. apply list_elem_of_fmap. eauto.
    + apply latest_None in Hl. split; [by intros [? ?] | done].
Qed.

End MapCatalog.

(** * The tree catalog *)

Section TreeCatalog.
Import Cstd Spec Artifact2.
Implicit Types (t l r : Node) (c d : Course) (k : string).

(** The three branches of [insert], by the position of the new key. *)
Lemma insert_cases c d :
  (lt (courseNumber c) (courseNumber d) = true)
  \/ (lt (courseNumber c) (courseNumber d) = false
      /\ gt (courseNumber c) (courseNumber d) = true)
  \/ (lt (courseNumber c) (courseNumber d) = false
      /\ gt (courseNumber c) (courseNumber d) = false
      /\ courseNumber c = courseNumber d).
Proof.
  destruct (lt (courseNumber c) (courseNumber d)) eqn:H1; [by left|].
  destruct (gt (courseNumber c) (courseNumber d)) eqn:H2; [by right; left|].
  right; right. by rewrite (lt_total _ _ H1 H2).
Qed.

Lemma insert_Forall (P : Course -> Prop) c t :
  P c -> Forall P (inOrder t) -> Forall P (inOrder (insert t c)).
Proof.
  intros Hc. induction t as [|d l IHl r IHr]; simpl.
  - intros _. by constructor.
  - rewrite Forall_app, Forall_cons. intros (Hl & Hd & Hr).
    destruct (insert_cases c d) as [H | [[H1 H2] | (H1 & H2 & _)]].
    + rewrite H. simpl. rewrite Forall_app, Forall_cons. auto.
    + rewrite H1, H2. simpl. rewrite Forall_app, Forall_cons. auto.
    + rewrite H1, H2. simpl. rewrite Forall_app, Forall_cons. auto.
Qed.

(** [insert] keeps the ordering invariant. *)
Lemma ordered_insert c t : ordered t -> ordered (insert t c).
Proof.
  induction t as [|d l IHl r IHr]; simpl.
  - intros _. repeat split; constructor.
  - intros (Hl & Hr & Ol & Or).
    destruct (insert_cases c d) as [H | [[H1 H2] | (H1 & H2 & He)]].
    + rewrite H. simpl. repeat split; auto. by apply insert_Forall.
    + rewrite H1, H2. simpl. repeat split; auto.
      apply insert_Forall; [exact H2 | done].
    + rewrite H1, H2. simpl. rewrite He. repeat split; auto.
Qed.

Lemma search_insert c t k :
  search (insert t c) k
  = if String.eqb k (courseNumber c) then Some c else search t k.
Proof.
  induction t as [|d l IHl r IHr]; simpl.
  - destruct (String.eqb k (courseNumber c)); [done|].
    by destruct (lt k (courseNumber c)).
  - destruct (insert_cases c d) as [H | [[H1 H2] | (H1 & H2 & He)]].
    + rewrite H. simpl. rewrite IHl.
      destruct (String.eqb k (courseNumber c)) eqn:Hk; [|done].
      apply String.eqb_eq in Hk as ->. by rewrite (lt_eqb _ _ H), H.
    + rewrite H1, H2. simpl. rewrite IHr.
      destruct (String.eqb k (courseNumber c)) eqn:Hk; [|done].
      apply String.eqb_eq in Hk as ->.
      rewrite H1. unfold gt in H2.
      rewrite String.eqb_sym, (lt_eqb _ _ H2). done.
    + rewrite H1, H2. simpl. rewrite He.
      by destruct (String.eqb k (courseNumber d)).
Qed.

Lemma numbers_insert c t k :
  k ∈ numbers (inOrder (insert t c))
  <-> k = courseNumber c \/ k ∈ numbers (inOrder t).
Proof.
  unfold numbers. induction t as [|d l IHl r IHr]; simpl.
  - rewrite list_elem_of_singleton, elem_of_nil. tauto.
  - destruct (insert_cases c d) as [H | [[H1 H2] | (H1 & H2 & He)]].
    + rewrite H. simpl. rewrite !fmap_app, !elem_of_app. simpl.
      rewrite IHl. tauto.
    + rewrite H1, H2. simpl. rewrite !fmap_app, !elem_of_app. simpl.
      rewrite !elem_of_cons, IHr. tauto.
    + rewrite H1, H2. simpl. rewrite !fmap_app, !elem_of_app. simpl.
      rewrite !elem_of_cons, He. tauto.
Qed.

Lemma StronglySorted_app_mid (R : relation string) (xs ys : list string) (m : string) :
  Transitive R ->
  StronglySorted R xs -> StronglySorted R ys ->
  Forall (fun x => R x m) xs -> Forall (R m) ys ->
  StronglySorted R (xs ++ m :: ys).
Proof.
  intros HR Hxs Hys Hxm Hmy.
  induction Hxs as [|x xs Hxs IH Hx]; simpl.
  - by constructor.
  - apply Forall_cons in Hxm as [Hx1 Hxm]. constructor; [by apply IH|].
    rewrite Forall_app, Forall_cons. repeat split; [done..|].
    eapply Forall_impl; [exact Hmy|]. intros y Hy. by etrans.
Qed.

#[local] Instance slt_trans : Transitive slt.
Proof. intros a b c. apply lt_trans. Qed.

(** In-order traversal of an ordered tree is strictly increasing. *)
Lemma ordered_inOrder t :
  ordered t -> StronglySorted slt (numbers (inOrder t)).
Proof.
  unfold numbers. induction t as [|d l IHl r IHr]; simpl.
  - constructor.
  - intros (Hl & Hr & Ol & Or). rewrite fmap_app. simpl.
    apply StronglySorted_app_mid; auto using slt_trans.
    + by apply Forall_fmap.
    + by apply Forall_fmap.
Qed.

Lemma slt_sorted_le (ks : list string) :
  StronglySorted slt ks -> Sorted String.le ks.
Proof.
  intros H. apply StronglySorted_Sorted.
  induction H as [|k ks Hks IH Hk]; constructor; [done|].
  eapply Forall_impl; [exact Hk|]. intros y. apply lt_le.
Qed.

Lemma slt_sorted_NoDup (ks : list string) : StronglySorted slt ks -> NoDup ks.
Proof.
  induction 1 as [|k ks Hks IH Hk]; constructor; [|done].
  intros Hin. rewrite Forall_forall in Hk. specialize (Hk _ Hin).
  unfold slt in Hk. by rewrite lt_irrefl in Hk.
Qed.

Lemma ordered_fold_insert cs t :
  ordered t -> ordered (fold_left insert cs t).
Proof.
  revert t. induction cs as [|c cs IH]; intros t Ht; simpl; [done|].
  by apply IH, ordered_insert.
Qed.

Lemma search_fold_insert cs : forall t k,
  search (fold_left insert cs t) k
  = match latest k cs with Some c => Some c | None => search t k end.
Proof.
  induction cs as [|c cs IH] using rev_ind; intros t k; [done|].
  rewrite fold_left_app, latest_snoc. simpl. rewrite search_insert.
  case_decide as Hk.
  - subst k. by rewrite String.eqb_refl.
  - rewrite (proj2 (String.eqb_neq _ _)) by done. apply IH.
Qed.

Lemma numbers_fold_insert cs : forall t k,
  k ∈ numbers (inOrder (fold_left insert cs t))
  <-> k ∈ numbers cs \/ k ∈ numbers (inOrder t).
Proof.
  induction cs as [|c cs IH]; intros t k; simpl.
  - rewrite elem_of_nil. tauto.
  - rewrite IH, numbers_insert, elem_of_cons. tauto.
Qed.

Lemma inOrder_fold_insert cs :
  numbers (inOrder (fold_left insert cs nullptr)) ≡ₚ remove_dups (numbers cs).
Proof.
  apply NoDup_Permutation.
  - apply slt_sorted_NoDup, ordered_inOrder. by apply ordered_fold_insert.
  - apply NoDup_remove_dups.
  - intros k. rewrite numbers_fold_insert, elem_of_remove_dups. simpl.
    rewrite elem_of_nil. tauto.
Qed.

Lemma root_fold_bst_insert cs : forall b,
  root (fold_left bst_insert cs b) = fold_left insert cs (root b).
Proof. induction cs as [|c cs IH]; intros b; simpl; [done | by rewrite IH]. Qed.

(** A run of inserts and clears builds the tree of the courses inserted
    since the last clear. *)
Lemma root_run (ops : list Op) :
  root (run ops) = fold_left insert (live ops) nullptr.
Proof.
  unfold run, live.
  induction ops as [|op ops IH] using rev_ind; [done|].
  rewrite !fold_left_app. simpl. destruct op as [c|]; simpl.
  - by rewrite fold_left_app, IH.
  - done.
Qed.

Lemma inOrderPrint_inOrder t :
  inOrderPrint t = String.concat EmptyString (map courseLine (inOrder t)).
Proof.
  assert (Hcat : forall xs ys, String.concat EmptyString (xs ++ ys)
            = String.concat EmptyString xs +:+ String.concat EmptyString ys).
  { intros xs ys. induction xs as [|x [|x' xs] IH]; simpl in *.
    - done.
    - destruct ys; simpl; [by rewrite append_nil_r | done].
    - by rewrite IH, !append_assoc. }
  induction t as [|d l IHl r IHr]; simpl; [done|].
  rewrite map_app, Hcat. simpl. rewrite IHl, IHr.
  by destruct (map courseLine (inOrder r)); simpl; rewrite ?append_nil_r.
Qed.

(** Search on an ordered tree finds exactly the courses of the tree. *)
Lemma search_found t : forall k c,
  ordered t ->
  search t k = Some c <-> c ∈ inOrder t /\ courseNumber c = k.
Proof.
  induction t as [|d l IHl r IHr]; intros k c; simpl.
  - intros _. split; [done|]. intros [H _]. by apply elem_of_nil in H.
  - intros (Hl & Hr & Ol & Or).
    rewrite Forall_forall in Hl, Hr.
    rewrite elem_of_app, elem_of_cons.
    destruct (String.eqb k (courseNumber d)) eqn:Hk.
    + apply String.eqb_eq in Hk. subst k. split.
      * intros [= <-]. auto.
      * intros [[Hc | [-> | Hc]] He]; [|done|].
        -- specialize (Hl _ Hc). rewrite He, lt_irrefl in Hl. done.
        -- specialize (Hr _ Hc). rewrite He, lt_irrefl in Hr. done.
    + apply String.eqb_neq in Hk.
      destruct (lt k (courseNumber d)) eqn:Hlt.
      * rewrite (IHl k c Ol). split; [intros [Hc He]; auto|].
        intros [[Hc | [-> | Hc]] He]; [done | done |].
        specialize (Hr _ Hc). rewrite He in Hr.
        by rewrite (lt_asym _ _ Hr) in Hlt.
      * rewrite (IHr k c Or). split; [intros [Hc He]; auto|].
        intros [[Hc | [-> | Hc]] He]; [| done | done].
        specialize (Hl _ Hc). rewrite He in Hl. by rewrite Hl in Hlt.
Qed.

End TreeCatalog.

(** * Lines with fewer than two fields *)

Section ShortLines.
Import Cstd Stream Norm Spec.

Lemma contains_lstrip (ch : ascii) (s : string) :
  contains ch s = false -> contains ch (lstrip s) = false.
Proof.
  induction s as [|a s IH]; simpl; [done|].
  intros [Ha Hs]%orb_false_elim.
  destruct (isspace a); [by apply IH | simpl; by rewrite Ha, Hs].
Qed.

Lemma contains_rstrip (ch : ascii) (s : string) :
  contains ch s = false -> contains ch (rstrip s) = false.
Proof.
  induction s as [|a s IH]; simpl; [done|].
  intros [Ha Hs]%orb_false_elim. specialize (IH Hs).
  destruct (rstrip s) as [|b r].
  - destruct (isspace a); simpl; [done | by rewrite Ha].
  - simpl in *. by rewrite Ha, IH.
Qed.

Lemma contains_trim (ch : ascii) (s : string) :
  contains ch s = false -> contains ch (trim s) = false.
Proof. intros H. rewrite trim_spec. by apply contains_rstrip, contains_lstrip. Qed.

Lemma lstrip_app_nonspace (x : string) (ch : ascii) (r : string) :
  isspace ch = false ->
  lstrip (x +:+ String ch r) = lstrip x +:+ String ch r.
Proof.
  intros Hch. induction x as [|a x IH]; simpl; [by rewrite Hch|].
  by destruct (isspace a).
Qed.

Lemma fields_no_comma (s : string) :
  contains comma s = false -> (length (fields s) < 2)%nat.
Proof.
  intros Hs. unfold fields. destruct s as [|a s].
  - rewrite (reads_stop _ _ _ (getline_empty comma)). simpl. lia.
  - rewrite (reads_step _ _ _ _ (getline_end comma _ Hs ltac:(done))).
    rewrite (reads_stop _ _ _ (getline_eof comma)). simpl. lia.
Qed.

Lemma fields_trailing_comma (x : string) :
  contains comma x = false ->
  fields (x +:+ String comma EmptyString) = [x].
Proof.
  intros Hx. unfold fields.
  rewrite (reads_step _ _ _ _ (getline_found comma x EmptyString Hx)).
  by rewrite (reads_stop _ _ _ (getline_empty comma)).
Qed.

(** Trimming a line with fewer than two fields leaves fewer than two. *)
Lemma fields_trim_lt2 (line : string) :
  (length (fields line) < 2)%nat -> (length (fields (trim line)) < 2)%nat.
Proof.
  intros [Hs | (x & -> & Hx)]%fields_lt2.
  - by apply fields_no_comma, contains_trim.
  - rewrite trim_spec, lstrip_app_nonspace by done.
    rewrite rstrip_snoc. change (isspace comma) with false. cbv iota.
    rewrite fields_trailing_comma by (by apply contains_lstrip).
    simpl. lia.
Qed.

Lemma parse_line_short (line : string) :
  (length (fields line) < 2)%nat ->
  parse_line line = None /\ parse_line_unchecked line = None.
Proof.
  intros H%fields_trim_lt2. unfold parse_line, parse_line_unchecked.
  destruct (fields (trim line)) as [|raw [|rt rest]]; simpl in H; [done..|lia].
Qed.

(** The two field reads of the loaders on a line with fewer than two
    fields: one of them fails. *)
Lemma getline_twice_short (t : string) :
  (length (fields t) < 2)%nat ->
  match getline (open t) comma with
  | (None, _) => True
  | (Some _, ss) => (getline ss comma).1 = None
  end.
Proof.
  unfold fields. intros H.
  destruct (getline (open t) comma) as [[cn|] ss1] eqn:H1; [|done].
  rewrite (reads_step _ _ _ _ H1) in H.
  destruct (getline ss1 comma) as [[ti|] ss2] eqn:H2; [|done].
  rewrite (reads_step _ _ _ _ H2) in H. simpl in H. lia.
Qed.

Lemma db_loadLine_short (line : string) (db : Part3.Database) :
  (length (fields line) < 2)%nat -> Part3.loadLine line db = Some (true, db).
Proof.
  intros H%fields_trim_lt2%getline_twice_short. unfold Part3.loadLine.
  destruct (empty (trim line)); [done|].
  destruct (getline (open (trim line)) comma) as [[cn|] ss1]; [|done].
  destruct (getline ss1 comma) as [[ti|] ss2]; [|done]. done.
Qed.

Lemma parseFile_length (content : string) :
  length (Original.parseFile (open content)) = length (lines content).
Proof.
  unfold Original.parseFile, lines. rewrite for_each_line_fold.
  generalize (reads (open content) nl). intros ls.
  assert (H : forall acc : list Course,
    length (fold_left (fun a str => a ++ [Original.parseLine str]) ls acc)
    = (length acc + length ls)%nat).
  { induction ls as [|l ls IH]; intros acc; simpl; [lia|].
    rewrite IH, length_app. simpl. lia. }
  apply (H []).
Qed.

End ShortLines.

(** C6 (amended).  In the map and tree programs a line that splits
    into fewer than two comma-separated fields is skipped, no record is
    stored for it, and a load whose file opened reports success whatever
    its lines are; the database program skips such a line as well.  The
    original program has no such check: [parseFile] stores one course for
    every line of the file. *)
Theorem short_line_skipped (line : string) :
  (length (Spec.fields line) < 2)%nat ->
  (forall temp, Part1.loadLine line temp = temp)
  /\ (forall bst, Artifact2.loadLine line bst = bst)
  /\ (forall db, Part3.loadLine line db = Some (true, db))
  /\ (forall fs fileName content old, fs fileName = Some content ->
        (Part1.loadCoursesFromCsv fs fileName old).1 = true)
  /\ (forall fs fileName content old, fs fileName = Some content ->
        (Artifact2.loadCoursesFromCsv fs fileName old).1 = true)
  /\ (forall content,
        length (Original.parseFile (Stream.open content))
        = length (Spec.lines content)).
Proof.
  intros Hshort.
  destruct (parse_line_short line Hshort) as [Hp Hu].
  repeat split.
  - intros temp. by rewrite map_loadLine_parse, Hp.
  - intros bst. by rewrite tree_loadLine_parse, Hu.
  - intros db. by apply db_loadLine_short.
  - intros fs fileName content old Hfs.
    by rewrite (map_load_spec _ _ _ _ Hfs).
  - intros fs fileName content old Hfs.
    by rewrite (tree_load_spec _ _ _ _ Hfs).
  - apply parseFile_length.
Qed.

(** The line [CS101 ] has one field and is skipped by the map loader. *)
Lemma short_line_skipped_witness :
  (length (Spec.fields "CS101 ") < 2)%nat
  /\ forall temp, Part1.loadLine "CS101 " temp = temp.
Proof.
  assert (H : (length (Spec.fields "CS101 ") < 2)%nat) by (vm_compute; lia).
  split; [exact H | exact (proj1 (short_line_skipped "CS101 " H))].
Defined.

(** C6 fails in the original program: it stores a course, with an empty
    title, for a line with one field. *)
Lemma short_line_stored_by_original :
  (length (Spec.fields "CS101") < 2)%nat
  /\ Original.parseFile (Stream.open "CS101") = [mkCourse "CS101" EmptyString []].
Proof. split; [vm_compute; lia | reflexivity]. Qed.

(** * Loading *)

Section Loading.
Import Cstd Stream Norm Spec.

(** A load of the map program fails only when the file cannot be opened,
    and then leaves the catalog as it was. *)
Lemma map_load_failed (fs : FileSystem) (fileName : string)
    (old : gmap string Course) :
  (Part1.loadCoursesFromCsv fs fileName old).1 = false ->
  fs fileName = None /\ (Part1.loadCoursesFromCsv fs fileName old).2 = old.
Proof.
  unfold Part1.loadCoursesFromCsv. by destruct (fs fileName).
Qed.

Lemma tree_load_failed (fs : FileSystem) (fileName : string)
    (old : Artifact2.CourseBST) :
  (Artifact2.loadCoursesFromCsv fs fileName old).1 = false ->
  fs fileName = None /\ (Artifact2.loadCoursesFromCsv fs fileName old).2 = old.
Proof.
  unfold Artifact2.loadCoursesFromCsv. by destruct (fs fileName).
Qed.

(** A file that cannot be opened: every loader returns [false] and leaves
    its catalog untouched. *)
Lemma load_not_found (fs : FileSystem) (fileName : string) :
  fs fileName = None ->
  (forall old, Part1.loadCoursesFromCsv fs fileName old = (false, old))
  /\ (forall old, Artifact2.loadCoursesFromCsv fs fileName old = (false, old))
  /\ (forall db, Part3.loadCoursesFromCSV fs fileName db = Some (false, db)).
Proof.
  intros Hfs. unfold Part1.loadCoursesFromCsv, Artifact2.loadCoursesFromCsv,
    Part3.loadCoursesFromCSV. by rewrite Hfs.
Qed.

Lemma map_loaded_keyed (content : string) :
  keyed (fold_left store (records content) ∅).
Proof. apply keyed_fold_store, keyed_empty. Qed.

(** Every course the map loader stores has an identifier and a title. *)
Lemma map_load_nonempty (fs : FileSystem) (fileName content : string)
    (old : gmap string Course) (k : string) (c : Course) :
  fs fileName = Some content ->
  (Part1.loadCoursesFromCsv fs fileName old).2 !! k = Some c ->
  courseNumber c <> EmptyString /\ title c <> EmptyString.
Proof.
  intros Hfs. rewrite (map_load_spec _ _ _ _ Hfs). simpl.
  rewrite lookup_fold_store, lookup_empty.
  destruct (latest k (records content)) as [c'|] eqn:Hl; [|done].
  intros [= <-]. apply latest_Some in Hl as [_ Hc].
  unfold records in Hc. apply list_elem_of_omap in Hc as (line & _ & Hp).
  by apply parse_line_nonempty in Hp.
Qed.

End Loading.

(** C8.  Loading the same source twice in succession leaves the catalog
    that loading it once leaves, in the map program and in the tree
    program (where the two trees are the same tree). *)
Theorem load_twice (fs : FileSystem) (fileName : string)
    (old : gmap string Course) (oldTree : Artifact2.CourseBST) :
  Part1.loadCoursesFromCsv fs fileName
    (Part1.loadCoursesFromCsv fs fileName old).2
  = Part1.loadCoursesFromCsv fs fileName old
  /\ Artifact2.loadCoursesFromCsv fs fileName
       (Artifact2.loadCoursesFromCsv fs fileName oldTree).2
     = Artifact2.loadCoursesFromCsv fs fileName oldTree.
Proof.
  unfold Part1.loadCoursesFromCsv, Artifact2.loadCoursesFromCsv.
  by destruct (fs fileName).
Qed.

(** C2.  After a load, the courses the sorted listing shows
    ([printCourseList] of the map program, the in-order traversal that
    [printInOrder] of the tree program writes) are in non-decreasing
    order of identifier, and there are as many of them as distinct
    identifiers among the records the load inserted. *)
Theorem sorted_enumeration (fs : FileSystem) (fileName content : string)
    (old : gmap string Course) (oldTree : Artifact2.CourseBST) :
  fs fileName = Some content ->
  (let catalog := (Part1.loadCoursesFromCsv fs fileName old).2 in
   let shown := Part1.listed catalog in
   catalog = fold_left Spec.store (Spec.records content) ∅
   /\ Part1.printCourseList catalog
      = String.concat EmptyString (map Part1.courseLine shown)
   /\ Sorted String.le (Spec.numbers shown)
   /\ length shown
      = length (remove_dups (Spec.numbers (Spec.records content))))
  /\ (let tree := (Artifact2.loadCoursesFromCsv fs fileName oldTree).2 in
      let shown := Artifact2.inOrder (Artifact2.root tree) in
      tree = fold_left Artifact2.bst_insert (Spec.records_unchecked content)
               Artifact2.empty_bst
      /\ Artifact2.printInOrder tree
         = String.concat EmptyString (map Artifact2.courseLine shown)
      /\ Sorted String.le (Spec.numbers shown)
      /\ length shown
         = length (remove_dups (Spec.numbers (Spec.records_unchecked content)))).
Proof.
  intros Hfs.
  rewrite (map_load_spec _ _ _ _ Hfs), (tree_load_spec _ _ _ _ Hfs).
  cbn [snd]. split; cbv zeta.
  - split; [done|]. split; [done|].
    pose proof (numbers_listed _ (map_loaded_keyed content)) as Hn.
    split.
    + rewrite Hn. apply sortedKeys_sorted.
    + rewrite <- (length_fmap courseNumber).
      change (length (Spec.numbers
                (Part1.listed (fold_left Spec.store (Spec.records content) ∅)))
              = length (remove_dups (Spec.numbers (Spec.records content)))).
      rewrite Hn. apply Permutation_length, sortedKeys_fold_store.
  - split; [done|]. split; [apply inOrderPrint_inOrder|].
    rewrite root_fold_bst_insert. simpl. split.
    + apply slt_sorted_le, ordered_inOrder, ordered_fold_insert. done.
    + rewrite <- (length_fmap courseNumber).
      apply Permutation_length, inOrder_fold_insert.
Qed.

(** A file with the same course under two spellings and a second course:
    two courses are listed, in order. *)
Lemma sorted_enumeration_witness :
  let fs : FileSystem := fun _ =>
    Some ("cs200,Data" +:+ Cstd.endl +:+ "CS100,Intro" +:+ Cstd.endl +:+
          " Cs200 ,Data Structures,cs100") in
  Part1.printCourseList (Part1.loadCoursesFromCsv fs "f" ∅).2
  = "CS100, Intro" +:+ Cstd.endl +:+ "CS200, Data Structures" +:+ Cstd.endl
  /\ Spec.numbers (Part1.listed (Part1.loadCoursesFromCsv fs "f" ∅).2)
     = ["CS100"; "CS200"]
  /\ Sorted String.le
       (Spec.numbers (Part1.listed (Part1.loadCoursesFromCsv fs "f" ∅).2)).
Proof.
  intros fs. split; [by vm_compute|]. split; [by vm_compute|].
  exact (proj1 (proj2 (proj2 (proj1
    (sorted_enumeration fs "f" _ ∅ Artifact2.empty_bst eq_refl))))).
Defined.

(** * Duplicate identifiers *)

Section Duplicates.
Import Cstd Stream Norm Spec.

(** A key occurring in a duplicate-free list of identifiers belongs to
    exactly one course. *)
Lemma one_entry (k : string) (cs : list Course) :
  NoDup (numbers cs) -> k ∈ numbers cs ->
  length (filter (fun c => courseNumber c = k) cs) = 1%nat.
Proof.
  unfold numbers. induction cs as [|c cs IH]; simpl.
  - intros _ H. by apply elem_of_nil in H.
  - rewrite NoDup_cons, elem_of_cons, filter_cons. intros [Hc Hnd] Hin.
    case_decide as Hk.
    + subst k. simpl. f_equal.
      assert (Hnil : filter (fun c' => courseNumber c' = courseNumber c) cs = []).
      { destruct (filter _ cs) as [|c' l] eqn:Hf; [done|].
        assert (Hc' : c' ∈ filter (fun c' => courseNumber c' = courseNumber c) cs)
          by (rewrite Hf; by left).
        apply list_elem_of_filter in Hc' as [He Hc'].
        destruct Hc. rewrite <- He. apply list_elem_of_fmap. eauto. }
      by rewrite Hnil.
    + destruct Hin as [-> | Hin]; [done|]. by apply IH.
Qed.

Lemma latest_last (k : string) (cs : list Course) (c : Course) :
  courseNumber c = k -> latest k (cs ++ [c]) = Some c.
Proof. intros Hk. rewrite latest_snoc. by rewrite decide_True. Qed.

(** Courses under other identifiers do not change the latest course of
    an identifier. *)
Lemma latest_app_other (k : string) (cs others : list Course) :
  Forall (fun c => courseNumber c <> k) others ->
  latest k (cs ++ others) = latest k cs.
Proof.
  induction others as [|c others IH] using rev_ind; intros H.
  - by rewrite app_nil_r.
  - apply Forall_app in H as [H1 H2]. rewrite Forall_singleton in H2.
    rewrite app_assoc, latest_snoc. rewrite decide_False by exact H2.
    by apply IH.
Qed.

(** The records of lines none of which has the identifier [k]. *)
Lemma records_other (k : string) (ls : list string) :
  (forall l raw t rest, l ∈ ls ->
     fields (trim l) = raw :: t :: rest -> normalizeCourseNumber raw <> k) ->
  Forall (fun c => courseNumber c <> k) (omap parse_line ls)
  /\ Forall (fun c => courseNumber c <> k) (omap parse_line_unchecked ls).
Proof.
  intros H. split; apply Forall_forall; intros c Hc;
    apply list_elem_of_omap in Hc as (l & Hl & Hp).
  - unfold parse_line in Hp.
    destruct (fields (trim l)) as [|raw [|t rest]] eqn:Hf; [done..|].
    destruct (_ || _); [done|]. injection Hp as <-. simpl. by eapply H.
  - unfold parse_line_unchecked in Hp.
    destruct (fields (trim l)) as [|raw [|t rest]] eqn:Hf; [done..|].
    injection Hp as <-. simpl. by eapply H.
Qed.

End Duplicates.

(** C4.  Two lines of a file whose identifier fields differ only in
    letter case or surrounding white space (their normalised forms are
    equal) leave exactly one entry for the normalised identifier in the
    catalog, holding the data of the later line: in the map program
    (which accepts a line when identifier and title are not empty) and in
    the tree program.  The two lines can stand anywhere in the file, with
    any lines before, between and after them; the later line is the last
    one of the file with that identifier. *)
Theorem last_write_wins (fs : FileSystem) (fileName content : string)
    (before between after : list string) (line1 line2 : string)
    (raw1 title1 raw2 title2 : string) (rest1 rest2 : list string)
    (old : gmap string Course) (oldTree : Artifact2.CourseBST) :
  fs fileName = Some content ->
  Spec.lines content = before ++ line1 :: between ++ line2 :: after ->
  Spec.fields (Norm.trim line1) = raw1 :: title1 :: rest1 ->
  Spec.fields (Norm.trim line2) = raw2 :: title2 :: rest2 ->
  Norm.normalizeCourseNumber raw1 = Norm.normalizeCourseNumber raw2 ->
  Norm.normalizeCourseNumber raw1 <> EmptyString ->
  Norm.trim title1 <> EmptyString ->
  Norm.trim title2 <> EmptyString ->
  (forall l raw t rest, l ∈ after ->
     Spec.fields (Norm.trim l) = raw :: t :: rest ->
     Norm.normalizeCourseNumber raw <> Norm.normalizeCourseNumber raw1) ->
  let k := Norm.normalizeCourseNumber raw1 in
  let c2 := mkCourse k (Norm.trim title2) (Spec.prereqs_of rest2) in
  (let catalog := (Part1.loadCoursesFromCsv fs fileName old).2 in
   catalog !! k = Some c2
   /\ length (filter (fun c => courseNumber c = k) (Part1.listed catalog))
      = 1%nat)
  /\ (let tree := (Artifact2.loadCoursesFromCsv fs fileName oldTree).2 in
      Artifact2.bst_search tree k = Some c2
      /\ length (filter (fun c => courseNumber c = k)
                        (Artifact2.inOrder (Artifact2.root tree)))
         = 1%nat).
Proof.
  intros Hfs Hlines Hf1 Hf2 Hnorm Hk Ht1 Ht2 Hafter k c2.
  rewrite (map_load_spec _ _ _ _ Hfs), (tree_load_spec _ _ _ _ Hfs).
  cbn [snd]. cbv zeta.
  destruct (records_other k after Hafter) as [Hoth Hothu].
  assert (Hp2 : Spec.parse_line line2 = Some c2).
  { unfold Spec.parse_line. rewrite Hf2. subst c2 k. rewrite <- Hnorm.
    apply empty_false in Hk, Ht2. by rewrite Hk, Ht2. }
  assert (Hu2 : Spec.parse_line_unchecked line2 = Some c2).
  { unfold Spec.parse_line_unchecked. rewrite Hf2. subst c2 k.
    by rewrite <- Hnorm. }
  assert (Hrec : exists cs, Spec.records content
                           = (cs ++ [c2]) ++ omap Spec.parse_line after).
  { unfold Spec.records. rewrite Hlines.
    replace (before ++ line1 :: between ++ line2 :: after)
      with ((before ++ line1 :: between) ++ [line2] ++ after)
      by (by rewrite <- app_assoc).
    rewrite !omap_app. simpl. rewrite Hp2, app_assoc. eauto. }
  assert (Hrecu : exists cs, Spec.records_unchecked content
                             = (cs ++ [c2])
                               ++ omap Spec.parse_line_unchecked after).
  { unfold Spec.records_unchecked. rewrite Hlines.
    replace (before ++ line1 :: between ++ line2 :: after)
      with ((before ++ line1 :: between) ++ [line2] ++ after)
      by (by rewrite <- app_assoc).
    rewrite !omap_app. simpl. rewrite Hu2, app_assoc. eauto. }
  destruct Hrec as [cs Hcs]. destruct Hrecu as [csu Hcsu].
  split.
  - assert (Hlook : fold_left Spec.store (Spec.records content) ∅ !! k = Some c2).
    { rewrite lookup_fold_store, Hcs, (latest_app_other _ _ _ Hoth),
        latest_last; done. }
    split; [exact Hlook|].
    apply one_entry.
    + rewrite numbers_listed by apply map_loaded_keyed. apply sortedKeys_NoDup.
    + rewrite numbers_listed by apply map_loaded_keyed.
      apply elem_of_sortedKeys. eauto.
  - unfold Artifact2.bst_search. rewrite root_fold_bst_insert. simpl.
    split.
    + rewrite search_fold_insert, Hcsu, (latest_app_other _ _ _ Hothu),
        latest_last; done.
    + apply one_entry.
      * apply slt_sorted_NoDup, ordered_inOrder, ordered_fold_insert. done.
      * apply numbers_fold_insert. left. rewrite Hcsu.
        unfold Spec.numbers. rewrite !fmap_app, !elem_of_app. left. right.
        simpl. by left.
Qed.

(** The identifiers [cs101] and [ CS101 ] of the specification, followed
    by the line of another course: one entry, with the data of the second
    line. *)
Lemma last_write_wins_witness :
  let fs : FileSystem := fun _ =>
    Some ("cs101,Intro" +:+ Cstd.endl +:+
          " CS101 ,Introduction, cs100" +:+ Cstd.endl +:+
          "CS200,Other") in
  (Part1.loadCoursesFromCsv fs "f" ∅).2 !! "CS101"
  = Some (mkCourse "CS101" "Introduction" ["CS100"]).
Proof.
  intros fs.
  refine (proj1 (proj1
    (last_write_wins fs "f" _ [] [] ["CS200,Other"]
       "cs101,Intro" " CS101 ,Introduction, cs100"
       "cs101" "Intro" "CS101 " "Introduction" [] [" cs100"]
       ∅ Artifact2.empty_bst eq_refl _ _ _ _ _ _ _ _))).
  1-7: by vm_compute.
  intros l raw t rest Hl%list_elem_of_singleton Hf. subst l.
  vm_compute in Hf. injection Hf as <- _ _. by vm_compute.
Defined.

(** * Reports *)

Section Reports.
Import Cstd Norm Spec.

Lemma map_printPrereqs (ps : list string) :
  Part1.printPrereqs ps = String.concat ", " ps.
Proof.
  induction ps as [|p [|q ps] IH]; simpl in *.
  - done.
  - by rewrite append_nil_r.
  - by rewrite IH.
Qed.

Lemma tree_printPrereqs (ps : list string) :
  Artifact2.printPrereqs ps = Part1.printPrereqs ps.
Proof. induction ps as [|p ps IH]; simpl; [done | by rewrite IH]. Qed.

Lemma concat_empty_cons (x : string) (l : list string) :
  String.concat EmptyString (x :: l) = x +:+ String.concat EmptyString l.
Proof. destruct l; simpl; [by rewrite append_nil_r | done]. Qed.

Lemma original_printPrereqs (ps : list string) :
  Original.printPrereqs ps
  = String.concat EmptyString (map (fun p => p +:+ " ") ps).
Proof.
  induction ps as [|p ps IH]; [done|].
  cbn [map Original.printPrereqs].
  by rewrite concat_empty_cons, IH, append_assoc.
Qed.

Lemma db_printPrereqs (ps : list string) :
  Part3.printPrereqs ps = Original.printPrereqs (map c_str ps).
Proof. induction ps as [|p ps IH]; simpl; [done | by rewrite IH]. Qed.

Lemma map_printCourse (c : Course) : Part1.printCourse c = detail c.
Proof.
  unfold Part1.printCourse, Part1.courseLine, detail.
  rewrite !append_assoc. do 5 f_equal.
  destruct (prerequisites c) as [|p ps] eqn:Hp; [done|].
  by rewrite map_printPrereqs.
Qed.

Lemma tree_printCourse (c : Course) : Artifact2.printCourse c = detail c.
Proof.
  unfold Artifact2.printCourse, Artifact2.courseLine, detail.
  rewrite !append_assoc. do 5 f_equal.
  destruct (prerequisites c) as [|p ps] eqn:Hp; [done|].
  by rewrite tree_printPrereqs, map_printPrereqs.
Qed.

Lemma original_printCourse (c : Course) :
  Original.printCourse c = detail_spaced c.
Proof.
  unfold Original.printCourse, Original.courseLine, detail_spaced.
  rewrite !append_assoc. do 5 f_equal.
  destruct (prerequisites c) as [|p ps] eqn:Hp; [done|].
  by rewrite original_printPrereqs.
Qed.

(** The search of the original program writes the report of the first
    course with the identifier. *)
Lemma original_search_found (number : string) (courses : list Course)
    (c : Course) :
  List.find (fun x => String.eqb (courseNumber x) number) courses = Some c ->
  Original.searchCourse number courses = detail_spaced c.
Proof.
  induction courses as [|x courses IH]; simpl; [done|].
  destruct (String.eqb (courseNumber x) number); [|exact IH].
  intros [= ->]. apply original_printCourse.
Qed.

(** The report of the database program in terms of the rows of its two
    queries. *)
Lemma db_report (db : Part3.Database) (number t : string) :
  Part3.title_query db (c_str (normalizeCourseNumber number)) = Some t ->
  Part3.printCourseDetails db number
  = detail_spaced
      (mkCourse (normalizeCourseNumber number) (c_str t)
         (map c_str
            (Part3.prereq_query db (c_str (normalizeCourseNumber number))))).
Proof.
  intros Ht. unfold Part3.printCourseDetails. rewrite Ht.
  unfold detail_spaced. cbn [courseNumber title prerequisites].
  do 5 f_equal.
  destruct (Part3.prereq_query db _) as [|p ps]; [done|].
  by rewrite db_printPrereqs, original_printPrereqs.
Qed.

(** The rows of the second query: those stored for the key, in increasing
    order. *)
Lemma prereq_query_sorted (db : Part3.Database) (key : string) :
  Sorted String.le (Part3.prereq_query db key)
  /\ Part3.prereq_query db key
     ≡ₚ map snd (List.filter (fun r => String.eqb r.1 key)
                             (Part3.prerequisites db)).
Proof.
  split; [apply (Sorted_merge_sort String.le) | apply merge_sort_Permutation].
Qed.

End Reports.

(** C5 (amended).  For a course that is found, the detail report of
    the map and tree programs is the line [<identifier>, <title>] and
    then [Prerequisites: ] followed by [None] when there are no
    prerequisites and otherwise by the prerequisite identifiers joined by
    comma and space, with no trailing separator.  The original program
    and the database program write every prerequisite followed by one
    space instead: the original program for the first course of its list
    with the identifier asked for, the database program for the rows of
    its two queries, where the prerequisite rows of the course come in
    increasing order and not in input order. *)
Theorem detail_format (c : Course) :
  (forall courses number,
     courses !! Norm.toUpper (Norm.trim number) = Some c ->
     Part1.printCourseDetails courses number = Spec.detail c)
  /\ (forall bst number,
        Artifact2.bst_search bst (Norm.normalizeCourseNumber number) = Some c ->
        Artifact2.printCourseDetails bst number = Spec.detail c)
  /\ (forall courses number,
        List.find (fun x => String.eqb (courseNumber x) number) courses
        = Some c ->
        Original.searchCourse number courses = Spec.detail_spaced c)
  /\ (forall db number t,
        let key := Norm.normalizeCourseNumber number in
        Part3.title_query db (Cstd.c_str key) = Some t ->
        key = courseNumber c ->
        Cstd.c_str t = title c ->
        map Cstd.c_str (Part3.prereq_query db (Cstd.c_str key))
        = prerequisites c ->
        Part3.printCourseDetails db number = Spec.detail_spaced c)
  /\ (forall db key,
        Sorted String.le (Part3.prereq_query db key)
        /\ Part3.prereq_query db key
           ≡ₚ map snd (List.filter (fun r => String.eqb r.1 key)
                                   (Part3.prerequisites db))).
Proof.
  split; [|split; [|split; [|split]]].
  - intros courses number H. unfold Part1.printCourseDetails. rewrite H.
    apply map_printCourse.
  - intros bst number H. unfold Artifact2.printCourseDetails. rewrite H.
    apply tree_printCourse.
  - intros courses number. apply original_search_found.
  - intros db number t key Ht Hkey Htitle Hps.
    subst key. rewrite (db_report db number t Ht), Hps, Htitle, Hkey.
    by destruct c.
  - apply prereq_query_sorted.
Qed.

(** The report of a course with two prerequisites in the map program. *)
Lemma detail_format_witness :
  Part1.printCourseDetails
    {[ "CS101" := mkCourse "CS101" "Intro" ["CS100"; "MATH1"] ]} " cs101 "
  = "CS101, Intro" +:+ Cstd.endl +:+
    "Prerequisites: CS100, MATH1" +:+ Cstd.endl.
Proof.
  exact (proj1 (detail_format (mkCourse "CS101" "Intro" ["CS100"; "MATH1"]))
           {[ "CS101" := mkCourse "CS101" "Intro" ["CS100"; "MATH1"] ]}
           " cs101 " eq_refl).
Defined.

(** C5 fails in the original program: its prerequisites are separated by
    spaces, with one at the end. *)
Lemma detail_format_original :
  let c := mkCourse "CS101" "Intro" ["CS100"; "MATH1"] in
  Original.searchCourse "CS101" [c]
  = "CS101, Intro" +:+ Cstd.endl +:+
    "Prerequisites: CS100 MATH1 " +:+ Cstd.endl
  /\ Original.searchCourse "CS101" [c] <> Spec.detail c.
Proof. split; [reflexivity | by vm_compute]. Qed.

(** * The menu loops *)

(** Case analysis on the scrutinee of a [match] of the goal, leaving the
    outcome of the round itself alone. *)
Ltac step_match :=
  match goal with
  | |- context [match ?x with _ => _ end] =>
      lazymatch type of x with
      | Outcome _ => fail
      | _ => destruct x
      end
  end.

Section Rounds.
Variable fs : FileSystem.

Lemma map_round (st : Part1.State) (cin : Stream.istream) :
  match (Part1.mainIter fs st cin).2 with
  | Next _ => True
  | Terminated code => (Menu.displayMenu cin).1.2 = 9%Z /\ code = 0%Z
  end.
Proof.
  unfold Part1.mainIter.
  destruct (Menu.displayMenu cin) as [[out choice] cin']. cbn [fst snd].
  repeat (step_match; cbn [fst snd]); done.
Qed.

Lemma tree_round (st : Artifact2.State) (cin : Stream.istream) :
  match (Artifact2.mainIter fs st cin).2 with
  | Next _ => True
  | Terminated code => (Menu.displayMenu cin).1.2 = 9%Z /\ code = 0%Z
  end.
Proof.
  unfold Artifact2.mainIter.
  destruct (Menu.displayMenu cin) as [[out choice] cin']. cbn [fst snd].
  repeat (step_match; cbn [fst snd]); done.
Qed.


(** However many rounds are run, the map and tree programs end only with
    status 0. *)
Lemma map_run_status (rounds : nat) :
  forall st cin out code,
  (Part1.mainLoop rounds fs st cin out).2 = Terminated code -> code = 0%Z.
Proof.
  induction rounds as [|rounds IH]; intros st cin out code; simpl; [done|].
  pose proof (map_round st cin) as Hr.
  destruct (Part1.mainIter fs st cin) as [o [[st' cin']|code']]; simpl in *.
  - apply IH.
  - intros [= <-]. by destruct Hr.
Qed.

Lemma tree_run_status (rounds : nat) :
  forall st cin out code,
  (Artifact2.mainLoop rounds fs st cin out).2 = Terminated code -> code = 0%Z.
Proof.
  induction rounds as [|rounds IH]; intros st cin out code; simpl; [done|].
  pose proof (tree_round st cin) as Hr.
  destruct (Artifact2.mainIter fs st cin) as [o [[st' cin']|code']]; simpl in *.
  - apply IH.
  - intros [= <-]. by destruct Hr.
Qed.

End Rounds.



(** * The tree invariant *)

(** C10.  The tree after any run of inserts and clears satisfies the
    ordering invariant; searching it for a key finds the course inserted
    last under exactly that key since the last clear, and finds nothing
    exactly when no course was inserted under it; and its in-order
    traversal, the one [printInOrder] writes line by line, is strictly
    increasing in the identifiers and visits exactly the courses a search
    finds: one for each identifier inserted since the last clear. *)
Theorem tree_invariant (ops : list Spec.Op) :
  let shown := Artifact2.inOrder (Artifact2.root (Spec.run ops)) in
  Spec.ordered (Artifact2.root (Spec.run ops))
  /\ (forall k, Artifact2.bst_search (Spec.run ops) k
                = Spec.latest k (Spec.live ops))
  /\ (forall k, Artifact2.bst_search (Spec.run ops) k = None
                <-> k ∉ Spec.numbers (Spec.live ops))
  /\ StronglySorted Spec.slt (Spec.numbers shown)
  /\ Artifact2.printInOrder (Spec.run ops)
     = String.concat EmptyString (map Artifact2.courseLine shown)
  /\ Spec.numbers shown ≡ₚ remove_dups (Spec.numbers (Spec.live ops))
  /\ (forall c, c ∈ shown
                <-> Spec.latest (courseNumber c) (Spec.live ops) = Some c).
Proof.
  intros shown.
  assert (Hsearch : forall k, Artifact2.bst_search (Spec.run ops) k
                              = Spec.latest k (Spec.live ops)).
  { intros k. unfold Artifact2.bst_search.
    rewrite root_run, search_fold_insert. simpl.
    by destruct (Spec.latest k (Spec.live ops)). }
  assert (Hord : Spec.ordered (Artifact2.root (Spec.run ops))).
  { rewrite root_run. by apply ordered_fold_insert. }
  split; [exact Hord|]. split; [exact Hsearch|].
  split; [intros k; rewrite Hsearch; apply latest_None|].
  split; [by apply ordered_inOrder|].
  split; [apply inOrderPrint_inOrder|].
  split.
  - subst shown. rewrite root_run. apply inOrder_fold_insert.
  - intros c. rewrite <- Hsearch. unfold Artifact2.bst_search.
    rewrite (search_found _ _ _ Hord). subst shown. tauto.
Qed.

(** * The defects *)

(** C1 holds in the map and tree programs and for a file that cannot be
    opened (see [map_load_failed], [tree_load_failed], [load_not_found]);
    it fails in the database program.  There a load deletes both tables,
    inserts row by row and returns [false] at the first statement that
    fails; here the second [CS100] of the second line breaks the primary
    key of [prerequisites].  The catalog that held [MATH1] is gone and
    the new one stops before [CS200]. *)
Theorem db_load_partial :
  let fs : FileSystem := fun _ =>
    Some ("CS100,Fundamentals" +:+ Cstd.endl +:+
          "CS101,Intro to CS,CS100,CS100" +:+ Cstd.endl +:+
          "CS200,Data Structures,CS101") in
  Part3.loadCoursesFromCSV fs "courses.csv"
    (Part3.mkDb [("MATH1", "Calculus")] [])
  = Some (false,
          Part3.mkDb [("CS100", "Fundamentals"); ("CS101", "Intro to CS")]
                     [("CS101", "CS100")]).
Proof. reflexivity. Qed.

(** C3 holds in the map program (see [parse_line_nonempty] and
    [map_load_nonempty]); it fails in the tree and database programs,
    whose loaders do not test the identifier and the title.  A line with
    an empty identifier and a line with a blank title are both stored;
    the map program skips both. *)
Theorem tree_load_empty_fields :
  let fs : FileSystem := fun _ =>
    Some (",Orphan title" +:+ Cstd.endl +:+ "CS101, ,CS100") in
  Artifact2.inOrder
    (Artifact2.root
       (Artifact2.loadCoursesFromCsv fs "courses.csv" Artifact2.empty_bst).2)
  = [mkCourse EmptyString "Orphan title" [];
     mkCourse "CS101" EmptyString ["CS100"]]
  /\ Part3.loadCoursesFromCSV fs "courses.csv" (Part3.mkDb [] [])
     = Some (true,
             Part3.mkDb [(EmptyString, "Orphan title"); ("CS101", EmptyString)]
                        [("CS101", "CS100")])
  /\ Part1.loadCoursesFromCsv fs "courses.csv" ∅ = (true, ∅).
Proof. repeat split; by vm_compute. Qed.

(** * The example of the specification *)

Example sample_find :
  (Part1.loadCoursesFromCsv sample "courses.csv" ∅).2 !! "CS101"
  = Some (mkCourse "CS101" "Intro to CS" ["CS100"]).
Proof. by vm_compute. Qed.

Example sample_sorted :
  Spec.numbers (Part1.listed (Part1.loadCoursesFromCsv sample "courses.csv" ∅).2)
  = ["CS100"; "CS101"]
  /\ Artifact2.printInOrder
       (Artifact2.loadCoursesFromCsv sample "courses.csv" Artifact2.empty_bst).2
     = "CS100, Fundamentals" +:+ Cstd.endl +:+
       "CS101, Intro to CS" +:+ Cstd.endl.
Proof. split; by vm_compute. Qed.

Example sample_missing_file :
  Part1.loadCoursesFromCsv sample "nothing.csv"
    (Part1.loadCoursesFromCsv sample "courses.csv" ∅).2
  = (false, (Part1.loadCoursesFromCsv sample "courses.csv" ∅).2).
Proof. reflexivity. Qed.

Example sample_not_found :
  Part1.printCourseDetails
    (Part1.loadCoursesFromCsv sample "courses.csv" ∅).2 "CS999"
  = "Error: Course not found" +:+ Cstd.endl.
Proof. by vm_compute. Qed.

(** * Further properties *)

(** * More on [trim] and [toUpper] *)

Section TrimShape.
Import Cstd Norm Spec More.

Lemma all_space_leading (s : string) : all_space (leading s) = true.
Proof.
  induction s as [|ch s IH]; simpl; [done|].
  destruct (isspace ch) eqn:Hsp; simpl; [by rewrite Hsp | done].
Qed.

Lemma rstrip_nil_all_space (s : string) :
  rstrip s = EmptyString <-> all_space s = true.
Proof.
  induction s as [|ch s IH]; simpl; [done|].
  destruct (rstrip s) as [|a r] eqn:Hr.
  - destruct (isspace ch); simpl; [|split; done].
    split; intros _; [by apply IH | done].
  - split; [done|]. intros [_ H]%andb_prop. apply IH in H. done.
Qed.

(** What [rstrip] removes is white space. *)
Lemma rstrip_split (s : string) :
  exists t, s = rstrip s +:+ t /\ all_space t = true.
Proof.
  induction s as [|ch s (t & IH & Ht)]; simpl; [by exists EmptyString|].
  destruct (rstrip s) as [|a r] eqn:Hr.
  - assert (Hs : all_space s = true) by (by apply rstrip_nil_all_space).
    destruct (isspace ch) eqn:Hsp.
    + exists (String ch s). simpl. by rewrite Hsp, Hs.
    + exists s. done.
  - exists t. split; [|done]. simpl in *. by f_equal.
Qed.

Lemma tailspace_rstrip (s : string) : tailspace (rstrip s) = false.
Proof.
  induction s as [|ch s IH]; simpl; [done|].
  destruct (rstrip s) as [|a r] eqn:Hr.
  - destruct (isspace ch) eqn:Hsp; simpl; [done | by rewrite Hsp].
  - exact IH.
Qed.

Lemma lstrip_nil_all_space (s : string) :
  lstrip s = EmptyString <-> all_space s = true.
Proof.
  induction s as [|ch s IH]; simpl; [done|].
  destruct (isspace ch); simpl; [exact IH | split; done].
Qed.

Lemma all_space_lstrip (s : string) :
  all_space s = true -> all_space (lstrip s) = true.
Proof. intros H. by apply lstrip_nil_all_space in H as ->. Qed.

Lemma all_space_app (a b : string) :
  all_space (a +:+ b) = all_space a && all_space b.
Proof.
  induction a as [|ch a IH]; simpl; [done|]. by rewrite IH, andb_assoc.
Qed.

Lemma toUpper_length (s : string) :
  String.length (toUpper s) = String.length s.
Proof. induction s as [|ch s IH]; simpl; [done | by rewrite IH]. Qed.

Lemma islower_toupper ch : islower (toupper ch) = false.
Proof. destruct ch as [[] [] [] [] [] [] [] []]; reflexivity. Qed.

Lemma toupper_not_lower ch : islower ch = false -> toupper ch = ch.
Proof. unfold toupper, islower. by intros ->. Qed.

End TrimShape.

(** X1.  [trim] removes white space and nothing else: the string is its
    trimmed form between two runs of white space, and the trimmed form
    neither starts nor ends with white space. *)
Theorem trim_shape (s : string) :
  (exists pre post,
     s = pre +:+ Norm.trim s +:+ post
     /\ More.all_space pre = true /\ More.all_space post = true)
  /\ Spec.headspace (Norm.trim s) = false
  /\ More.tailspace (Norm.trim s) = false.
Proof.
  rewrite trim_spec. split; [|split].
  - destruct (rstrip_split (Spec.lstrip s)) as (t & Ht & Hsp).
    exists (Spec.leading s), t. split; [|split].
    + rewrite <- Ht. symmetry. apply leading_lstrip.
    + apply all_space_leading.
    + exact Hsp.
  - apply headspace_rstrip, headspace_lstrip.
  - apply tailspace_rstrip.
Qed.

(** X2.  [trim] gives the empty string exactly for a string of white
    space (the blank lines the loaders skip). *)
Theorem trim_blank (s : string) :
  Norm.trim s = EmptyString <-> More.all_space s = true.
Proof.
  rewrite trim_spec, rstrip_nil_all_space. split.
  - intros H. rewrite <- (leading_lstrip s), all_space_app.
    by rewrite all_space_leading, H.
  - apply all_space_lstrip.
Qed.

(** X3.  [toUpper] keeps the length, leaves no letter of [a]..[z], and
    changes nothing in a string without such a letter. *)
Theorem toUpper_shape (s : string) :
  String.length (Norm.toUpper s) = String.length s
  /\ More.has_lower (Norm.toUpper s) = false
  /\ (More.has_lower s = false -> Norm.toUpper s = s).
Proof.
  split; [apply toUpper_length|]. split.
  - induction s as [|ch s IH]; simpl; [done|].
    by rewrite islower_toupper, IH.
  - induction s as [|ch s IH]; simpl; [done|].
    intros [Hc Hs]%orb_false_elim. by rewrite (toupper_not_lower _ Hc), IH.
Qed.

Lemma toUpper_shape_witness :
  More.has_lower "CS 101" = false /\ Norm.toUpper "CS 101" = "CS 101".
Proof.
  split; [reflexivity|].
  exact (proj2 (proj2 (toUpper_shape "CS 101")) eq_refl).
Defined.

(** * What the loaders store *)

Section Stored.
Import Cstd Stream Norm Spec More.

Lemma normalize_fixed (x : string) :
  normalizeCourseNumber (normalizeCourseNumber x) = normalizeCourseNumber x.
Proof.
  unfold normalizeCourseNumber. by rewrite trim_toUpper, trim_idem, toUpper_idem.
Qed.

Lemma prereqs_of_normal (rest : list string) :
  Forall (fun p => p <> EmptyString /\ normalizeCourseNumber p = p)
         (prereqs_of rest).
Proof.
  unfold prereqs_of. apply Forall_forall. intros p Hp.
  apply list_elem_of_filter in Hp as [Hne Hp].
  apply list_elem_of_fmap in Hp as (raw & -> & _).
  split; [done | apply normalize_fixed].
Qed.

Lemma parse_line_unchecked_normal (line : string) (c : Course) :
  parse_line_unchecked line = Some c -> normal_course c.
Proof.
  unfold parse_line_unchecked.
  destruct (fields (trim line)) as [|raw [|rt rest]]; try done.
  intros [= <-]. repeat split; simpl.
  - apply normalize_fixed.
  - apply trim_idem.
  - apply prereqs_of_normal.
Qed.

Lemma parse_line_checked (line : string) (c : Course) :
  parse_line line = Some c -> parse_line_unchecked line = Some c.
Proof.
  unfold parse_line, parse_line_unchecked.
  destruct (fields (trim line)) as [|raw [|rt rest]]; try done.
  by destruct (empty (normalizeCourseNumber raw) || empty (trim rt)).
Qed.

Lemma records_normal (content : string) :
  Forall normal_course (records content)
  /\ Forall normal_course (records_unchecked content).
Proof.
  unfold records, records_unchecked.
  split; apply Forall_forall; intros c (line & _ & Hp)%list_elem_of_omap.
  - by apply parse_line_checked, parse_line_unchecked_normal in Hp.
  - by apply parse_line_unchecked_normal in Hp.
Qed.

Lemma Forall_fold_insert (P : Course -> Prop) (cs : list Course) :
  forall t, Forall P cs -> Forall P (Artifact2.inOrder t) ->
  Forall P (Artifact2.inOrder (fold_left Artifact2.insert cs t)).
Proof.
  induction cs as [|c cs IH]; intros t Hcs Ht; simpl; [done|].
  apply Forall_cons in Hcs as [Hc Hcs]. apply IH; [done|].
  by apply insert_Forall.
Qed.

End Stored.

(** X4.  Every course a load leaves in the catalog is in normal form:
    its identifier and prerequisites are trimmed and upper-cased, no
    prerequisite is empty, the title is trimmed; in the map program it
    also sits under its own identifier. *)
Theorem stored_normal (fs : FileSystem) (fileName content : string)
    (old : gmap string Course) (oldTree : Artifact2.CourseBST) :
  fs fileName = Some content ->
  (forall k c, (Part1.loadCoursesFromCsv fs fileName old).2 !! k = Some c ->
     More.normal_course c /\ courseNumber c = k)
  /\ Forall More.normal_course
       (Artifact2.inOrder
          (Artifact2.root (Artifact2.loadCoursesFromCsv fs fileName oldTree).2)).
Proof.
  intros Hfs.
  rewrite (map_load_spec _ _ _ _ Hfs), (tree_load_spec _ _ _ _ Hfs).
  cbn [snd]. destruct (records_normal content) as [Hr Hu]. split.
  - intros k c. rewrite lookup_fold_store, lookup_empty.
    destruct (Spec.latest k (Spec.records content)) as [c'|] eqn:Hl; [|done].
    intros [= <-]. apply latest_Some in Hl as [Hk Hc]. split; [|done].
    rewrite Forall_forall in Hr. by apply Hr.
  - rewrite root_fold_bst_insert. apply Forall_fold_insert; [done|].
    simpl. constructor.
Qed.

Lemma stored_normal_witness :
  More.normal_course (mkCourse "CS101" "Intro to CS" ["CS100"]).
Proof.
  exact (proj1 (proj1 (stored_normal sample "courses.csv" _ ∅
                         Artifact2.empty_bst eq_refl)
                 "CS101" _ ltac:(by vm_compute))).
Defined.

(** X5.  After a load, a query finds under a key the record of the last
    line of the file with that identifier, and the report for a query is
    that of this record, or the not-found message when no line of the
    file has the identifier; the query is normalised first. *)
Theorem find_after_load (fs : FileSystem) (fileName content : string)
    (old : gmap string Course) (oldTree : Artifact2.CourseBST) :
  fs fileName = Some content ->
  (let catalog := (Part1.loadCoursesFromCsv fs fileName old).2 in
   (forall k, catalog !! k = Spec.latest k (Spec.records content))
   /\ forall query,
        Part1.printCourseDetails catalog query
        = match Spec.latest (Norm.normalizeCourseNumber query)
                  (Spec.records content) with
          | Some c => Spec.detail c
          | None => "Error: Course not found" +:+ Cstd.endl
          end)
  /\ (let tree := (Artifact2.loadCoursesFromCsv fs fileName oldTree).2 in
      (forall k, Artifact2.bst_search tree k
                 = Spec.latest k (Spec.records_unchecked content))
      /\ forall query,
           Artifact2.printCourseDetails tree query
           = match Spec.latest (Norm.normalizeCourseNumber query)
                     (Spec.records_unchecked content) with
             | Some c => Spec.detail c
             | None => "Error: Course not found" +:+ Cstd.endl
             end).
Proof.
  intros Hfs.
  rewrite (map_load_spec _ _ _ _ Hfs), (tree_load_spec _ _ _ _ Hfs).
  cbn [snd]. cbv zeta.
  assert (Hm : forall k, fold_left Spec.store (Spec.records content) ∅ !! k
                         = Spec.latest k (Spec.records content)).
  { intros k. rewrite lookup_fold_store, lookup_empty.
    by destruct (Spec.latest k (Spec.records content)). }
  assert (Ht : forall k,
    Artifact2.bst_search
      (fold_left Artifact2.bst_insert (Spec.records_unchecked content)
         Artifact2.empty_bst) k
    = Spec.latest k (Spec.records_unchecked content)).
  { intros k. unfold Artifact2.bst_search.
    rewrite root_fold_bst_insert, search_fold_insert. simpl.
    by destruct (Spec.latest k (Spec.records_unchecked content)). }
  split; (split; [done|]); intros query.
  - unfold Part1.printCourseDetails.
    change (Norm.toUpper (Norm.trim query))
      with (Norm.normalizeCourseNumber query).
    rewrite Hm.
    destruct (Spec.latest _ _); [apply map_printCourse | done].
  - unfold Artifact2.printCourseDetails. rewrite Ht.
    destruct (Spec.latest _ _); [apply tree_printCourse | done].
Qed.

Lemma find_after_load_witness :
  Part1.printCourseDetails
    (Part1.loadCoursesFromCsv sample "courses.csv" ∅).2 " cs100 "
  = Spec.detail (mkCourse "CS100" "Fundamentals" []).
Proof.
  exact (proj2 (proj1 (find_after_load sample "courses.csv" _ ∅
                         Artifact2.empty_bst eq_refl)) " cs100 ").
Defined.

(** * More on the tree *)

Section TreeMore.
Import Cstd Spec More Artifact2.
Implicit Types (t l r : Node) (c d : Course) (k : string).

Lemma insert_length c t :
  length (inOrder (insert t c))
  = match search t (courseNumber c) with
    | Some _ => length (inOrder t)
    | None => S (length (inOrder t))
    end.
Proof.
  induction t as [|d l IHl r IHr]; simpl; [done|].
  destruct (insert_cases c d) as [H | [[H1 H2] | (H1 & H2 & He)]].
  - rewrite H, (lt_eqb _ _ H). simpl. rewrite !length_app, IHl. simpl.
    destruct (search l (courseNumber c)); lia.
  - rewrite H1, H2. unfold gt in H2.
    rewrite String.eqb_sym, (lt_eqb _ _ H2). simpl.
    rewrite !length_app. simpl. rewrite IHr.
    destruct (search r (courseNumber c)); simpl; lia.
  - rewrite H1, H2, He, String.eqb_refl. simpl. by rewrite !length_app.
Qed.

Lemma insert_spine (cs : list Course) c :
  Forall (fun x => slt (courseNumber x) (courseNumber c)) cs ->
  insert (right_spine cs) c = right_spine (cs ++ [c]).
Proof.
  induction cs as [|x cs IH]; simpl; [done|].
  intros [Hx Hcs]%Forall_cons. unfold slt in Hx.
  assert (Hg : gt (courseNumber c) (courseNumber x) = true) by exact Hx.
  by rewrite (lt_asym _ _ Hx), Hg, IH.
Qed.

Lemma height_spine (cs : list Course) : height (right_spine cs) = length cs.
Proof. induction cs as [|c cs IH]; simpl; [done | by rewrite IH]. Qed.

Lemma fold_insert_sorted (cs : list Course) :
  StronglySorted slt (numbers cs) ->
  fold_left insert cs nullptr = right_spine cs.
Proof.
  unfold numbers.
  induction cs as [|c cs IH] using rev_ind; [done|].
  rewrite fmap_app. intros Hs. rewrite fold_left_app. simpl.
  rewrite IH by (by apply StronglySorted_app_1_l in Hs).
  apply insert_spine, Forall_forall. intros x Hx.
  apply (StronglySorted_app_1_elem_of _ _ _ _ _ Hs).
  - apply list_elem_of_fmap. eauto.
  - simpl. by left.
Qed.

End TreeMore.

(** X6.  In a tree that satisfies the ordering invariant, [search] finds a
    course under a key exactly when the tree holds that course with that
    identifier: the binary search misses nothing. *)
Theorem search_complete (t : Artifact2.Node) (k : string) (c : Course) :
  Spec.ordered t ->
  Artifact2.search t k = Some c
  <-> c ∈ Artifact2.inOrder t /\ courseNumber c = k.
Proof. apply search_found. Qed.

Lemma search_complete_witness :
  let t := Artifact2.insert
             (Artifact2.insert Artifact2.nullptr (mkCourse "B" "b" []))
             (mkCourse "A" "a" []) in
  Artifact2.search t "A" = Some (mkCourse "A" "a" []).
Proof.
  intros t.
  apply (search_complete t "A" (mkCourse "A" "a" [])).
  - simpl. repeat split; repeat constructor.
  - split; [|done]. simpl. by left.
Defined.

(** X7.  [insert] adds one node when [search] does not find the key of
    the course, and keeps the number of nodes (overwriting the data)
    when it does. *)
Theorem insert_size (t : Artifact2.Node) (c : Course) :
  length (Artifact2.inOrder (Artifact2.insert t c))
  = match Artifact2.search t (courseNumber c) with
    | Some _ => length (Artifact2.inOrder t)
    | None => S (length (Artifact2.inOrder t))
    end.
Proof. apply insert_length. Qed.

(** X8.  The tree is not balanced: courses inserted in increasing order
    of identifier form one chain of right children, as high as there are
    courses. *)
Theorem sorted_input_degenerates (cs : list Course) :
  StronglySorted Spec.slt (Spec.numbers cs) ->
  fold_left Artifact2.insert cs Artifact2.nullptr = More.right_spine cs
  /\ More.height (fold_left Artifact2.insert cs Artifact2.nullptr) = length cs.
Proof.
  intros Hs. rewrite (fold_insert_sorted cs Hs). split; [done|].
  apply height_spine.
Qed.

Lemma sorted_input_degenerates_witness :
  More.height
    (fold_left Artifact2.insert
       [mkCourse "CS100" "a" []; mkCourse "CS200" "b" []; mkCourse "CS300" "c" []]
       Artifact2.nullptr) = 3%nat.
Proof.
  refine (proj2 (sorted_input_degenerates
    [mkCourse "CS100" "a" []; mkCourse "CS200" "b" []; mkCourse "CS300" "c" []] _)).
  repeat constructor.
Defined.

(** * The map program and the tree program side by side *)

Section SideBySide.
Import Cstd Stream Norm Spec More.

Lemma omap_keys (f : string -> option Course) (l : list Course) :
  Forall (fun c => f (courseNumber c) = Some c) l ->
  omap f (numbers l) = l.
Proof.
  unfold numbers. induction 1 as [|c l Hc _ IH]; simpl; [done|].
  rewrite Hc. simpl. f_equal. exact IH.
Qed.

Lemma omap_pointwise {A B : Type} (f g : A -> option B) (l : list A) :
  (forall x, f x = g x) -> omap f l = omap g l.
Proof.
  intros Hfg. induction l as [|x l IH]; simpl; [done|].
  rewrite Hfg. destruct (g x); [f_equal|]; exact IH.
Qed.

(** The in-order traversal of the tree built from [cs] is the sorted
    listing of the map built from [cs]. *)
Lemma inOrder_listed (cs : list Course) :
  Artifact2.inOrder (fold_left Artifact2.insert cs Artifact2.nullptr)
  = Part1.listed (fold_left store cs ∅).
Proof.
  set (t := fold_left Artifact2.insert cs Artifact2.nullptr).
  set (m := fold_left store cs ∅).
  assert (Ot : ordered t) by (by apply ordered_fold_insert).
  assert (Km : keyed m) by apply keyed_fold_store, keyed_empty.
  assert (Hkeys : numbers (Artifact2.inOrder t) = Part1.sortedKeys m).
  { apply (Sorted_unique String.le).
    - by apply slt_sorted_le, ordered_inOrder.
    - apply sortedKeys_sorted.
    - subst t m. rewrite inOrder_fold_insert. symmetry.
      apply sortedKeys_fold_store. }
  rewrite <- (omap_keys (Artifact2.search t) (Artifact2.inOrder t)).
  2: { apply Forall_forall. intros c Hc. by apply search_found. }
  unfold Part1.listed. rewrite Hkeys.
  apply omap_pointwise. intros k. subst t m.
  rewrite search_fold_insert, lookup_fold_store, lookup_empty. done.
Qed.

Lemma courseLine_same : Artifact2.courseLine = Part1.courseLine.
Proof. reflexivity. Qed.

Lemma printCourse_same (c : Course) :
  Artifact2.printCourse c = Part1.printCourse c.
Proof. by rewrite tree_printCourse, map_printCourse. Qed.

(** The catalogs the two loaders build from the same records show the
    same. *)
Lemma loaded_same (cs : list Course) (b1 b2 : bool) :
  b1 = b2 ->
  same_catalog
    (Part1.mkState (fold_left store cs ∅) b1)
    (Artifact2.mkState
       (fold_left Artifact2.bst_insert cs Artifact2.empty_bst) b2).
Proof.
  intros ->. split; [done|]. simpl. split.
  - unfold Part1.printCourseList, Artifact2.printInOrder.
    rewrite inOrderPrint_inOrder, root_fold_bst_insert, courseLine_same.
    simpl. by rewrite inOrder_listed.
  - intros k. unfold Artifact2.bst_search.
    rewrite root_fold_bst_insert, search_fold_insert, lookup_fold_store.
    simpl. by rewrite lookup_empty.
Qed.

Lemma details_same (st1 : Part1.State) (st2 : Artifact2.State) (q : string) :
  same_catalog st1 st2 ->
  Part1.printCourseDetails (Part1.courses st1) q
  = Artifact2.printCourseDetails (Artifact2.bst st2) q.
Proof.
  intros (_ & _ & Hk). unfold Part1.printCourseDetails,
    Artifact2.printCourseDetails.
  change (toUpper (trim q)) with (normalizeCourseNumber q).
  rewrite Hk. destruct (Artifact2.bst_search _ _); [|done].
  symmetry. apply printCourse_same.
Qed.

(** One round of the two menu loops from states that show the same. *)
Lemma round_same (fs : FileSystem) (st1 : Part1.State)
    (st2 : Artifact2.State) (cin : istream) :
  clean fs -> same_catalog st1 st2 ->
  (Part1.mainIter fs st1 cin).1 = (Artifact2.mainIter fs st2 cin).1
  /\ same_outcome (Part1.mainIter fs st1 cin).2 (Artifact2.mainIter fs st2 cin).2.
Proof.
  intros Hclean Hsame.
  pose proof Hsame as (Hflag & Hlist & Hk).
  unfold Part1.mainIter, Artifact2.mainIter.
  destruct (Menu.displayMenu cin) as [[out choice] cin'].
  destruct (decide (choice = 1%Z)) as [-> | N1].
  { destruct (Menu.readLine cin') as [filename cin''].
    destruct (fs filename) as [content|] eqn:Hfs.
    - rewrite (map_load_spec _ _ _ _ Hfs), (tree_load_spec _ _ _ _ Hfs).
      rewrite (Hclean _ _ Hfs). cbn [fst snd same_outcome].
      split; [done|]. split; [|done]. by apply loaded_same.
    - unfold Part1.loadCoursesFromCsv, Artifact2.loadCoursesFromCsv.
      rewrite Hfs. cbn [fst snd same_outcome].
      split; [done|]. split; [|done]. split; [done|]. by split. }
  destruct (decide (choice = 2%Z)) as [-> | N2].
  { rewrite <- Hflag. destruct (Part1.dataLoaded st1); cbn [negb fst snd same_outcome].
    - split; [by rewrite Hlist | done].
    - done. }
  destruct (decide (choice = 3%Z)) as [-> | N3].
  { rewrite <- Hflag. destruct (Part1.dataLoaded st1); cbn [negb fst snd same_outcome].
    - destruct (Menu.readLine cin') as [q cin'']. cbn [fst snd same_outcome].
      split; [by rewrite (details_same _ _ q Hsame) | done].
    - done. }
  destruct (decide (choice = 9%Z)) as [-> | N9].
  { done. }
  assert (Hd1 : forall (A : Type) (a1 a2 a3 a9 d : A),
    match choice with
    | 1%Z => a1 | 2%Z => a2 | 3%Z => a3 | 9%Z => a9 | _ => d
    end = d).
  { intros A a1 a2 a3 a9 d.
    destruct choice as [|p|p]; try done.
    repeat (match goal with
            | |- context [match ?p with xH => _ | _ => _ end] =>
                is_var p; destruct p
            end; try done). }
  rewrite !Hd1. done.
Qed.

Lemma loop_same (fs : FileSystem) (rounds : nat) :
  clean fs ->
  forall st1 st2 cin out,
  same_catalog st1 st2 ->
  (Part1.mainLoop rounds fs st1 cin out).1
  = (Artifact2.mainLoop rounds fs st2 cin out).1
  /\ same_outcome (Part1.mainLoop rounds fs st1 cin out).2
                  (Artifact2.mainLoop rounds fs st2 cin out).2.
Proof.
  intros Hclean.
  induction rounds as [|rounds IH]; intros st1 st2 cin out Hsame; simpl.
  - done.
  - destruct (round_same fs st1 st2 cin Hclean Hsame) as [Hout Hnext].
    destruct (Part1.mainIter fs st1 cin) as [o1 [[st1' cin1]|code1]];
    destruct (Artifact2.mainIter fs st2 cin) as [o2 [[st2' cin2]|code2]];
    simpl in *; try done.
    + destruct Hnext as [Hs ->]. subst o2. by apply IH.
    + by subst.
Qed.

End SideBySide.

(** X9.  On a file whose lines all have an identifier and a title (the
    two record parsers agree on it), the map program and the tree program
    print the same course list and the same report for every query. *)
Theorem programs_agree_on_load (fs : FileSystem) (fileName content : string)
    (old : gmap string Course) (oldTree : Artifact2.CourseBST) :
  fs fileName = Some content ->
  Spec.records_unchecked content = Spec.records content ->
  let catalog := (Part1.loadCoursesFromCsv fs fileName old).2 in
  let tree := (Artifact2.loadCoursesFromCsv fs fileName oldTree).2 in
  Part1.printCourseList catalog = Artifact2.printInOrder tree
  /\ forall query,
       Part1.printCourseDetails catalog query
       = Artifact2.printCourseDetails tree query.
Proof.
  intros Hfs Hclean.
  rewrite (map_load_spec _ _ _ _ Hfs), (tree_load_spec _ _ _ _ Hfs), Hclean.
  cbn [snd]. cbv zeta.
  pose proof (loaded_same (Spec.records content) true true eq_refl) as Hsame.
  split.
  - exact (proj1 (proj2 Hsame)).
  - intros query. exact (details_same _ _ query Hsame).
Qed.

Lemma programs_agree_on_load_witness :
  Part1.printCourseList (Part1.loadCoursesFromCsv sample "courses.csv" ∅).2
  = Artifact2.printInOrder
      (Artifact2.loadCoursesFromCsv sample "courses.csv" Artifact2.empty_bst).2.
Proof.
  exact (proj1 (programs_agree_on_load sample "courses.csv" _ ∅
                  Artifact2.empty_bst eq_refl eq_refl)).
Defined.

(** X10.  When every file has only such lines, the map program and the
    tree program are indistinguishable at the terminal: for the same
    input they write the same text in every number of rounds and end
    with the same status, or are both still running with states that
    show the same catalog. *)
Theorem programs_agree (fs : FileSystem) (rounds : nat) (stdin : string) :
  More.clean fs ->
  (Part1.main rounds fs stdin).1 = (Artifact2.main rounds fs stdin).1
  /\ More.same_outcome (Part1.main rounds fs stdin).2
                       (Artifact2.main rounds fs stdin).2.
Proof.
  intros Hclean. unfold Part1.main, Artifact2.main.
  apply loop_same; [done|].
  split; [done|]. split; [done|]. intros k. apply lookup_empty.
Qed.

Lemma sample_clean : More.clean sample.
Proof.
  intros name content. unfold sample.
  destruct (String.eqb name "courses.csv"); [|done].
  intros [= <-]. by vm_compute.
Qed.

Lemma programs_agree_witness :
  (Part1.main 4 sample "1").1 = (Artifact2.main 4 sample "1").1.
Proof. exact (proj1 (programs_agree sample 4 "1" sample_clean)). Defined.

(** * More on the menu loops *)

Section MenuMore.
Import Cstd Stream Norm Spec More.

(** The default branch of the [switch] is taken for every other choice. *)
Lemma switch_default {A : Type} (choice : Z) (a1 a2 a3 a9 d : A) :
  choice <> 1%Z -> choice <> 2%Z -> choice <> 3%Z -> choice <> 9%Z ->
  match choice with
  | 1%Z => a1 | 2%Z => a2 | 3%Z => a3 | 9%Z => a9 | _ => d
  end = d.
Proof.
  intros N1 N2 N3 N9. destruct choice as [|p|p]; try done.
  repeat (match goal with
          | |- context [match ?p with xH => _ | _ => _ end] =>
              is_var p; destruct p
          end; try done).
Qed.

Lemma getline_at_end (cin : istream) (d : ascii) :
  buf cin = EmptyString ->
  (getline cin d).1 = None /\ buf (getline cin d).2 = EmptyString.
Proof.
  intros Hbuf. unfold getline. rewrite Hbuf. by destruct (good cin).
Qed.

Lemma displayMenu_at_end (cin : istream) :
  buf cin = EmptyString ->
  Menu.displayMenu cin = (Menu.menuText, (-1)%Z, (getline cin nl).2).
Proof.
  intros Hbuf. unfold Menu.displayMenu, Menu.readLine.
  destruct (getline_at_end cin nl Hbuf) as [H1 H2].
  destruct (getline cin nl) as [[str|] cin']; simpl in *; done.
Qed.

Lemma map_round_at_end (fs : FileSystem) (st : Part1.State) (cin : istream) :
  buf cin = EmptyString ->
  Part1.mainIter fs st cin
  = (Menu.menuText +:+ Menu.notValid (-1), Next (st, (getline cin nl).2)).
Proof.
  intros Hbuf. unfold Part1.mainIter.
  by rewrite (displayMenu_at_end cin Hbuf).
Qed.

Lemma tree_round_at_end (fs : FileSystem) (st : Artifact2.State)
    (cin : istream) :
  buf cin = EmptyString ->
  Artifact2.mainIter fs st cin
  = (Menu.menuText +:+ Menu.notValid (-1), Next (st, (getline cin nl).2)).
Proof.
  intros Hbuf. unfold Artifact2.mainIter.
  by rewrite (displayMenu_at_end cin Hbuf).
Qed.

End MenuMore.

(** X11.  At the end of standard input the menu loops do not stop: every
    further round reads nothing (its [getline] fails and leaves nothing
    to read), takes the choice for -1, writes the menu and the
    invalid-option line, and leaves the state as it is.  After any number
    of rounds the text written is that many copies of these lines, and
    the program is still in its loop. *)
Theorem end_of_input_spins (fs : FileSystem) (rounds : nat) :
  let round_text := Menu.menuText +:+ Menu.notValid (-1) in
  let failed := fun cin => (Stream.getline cin Cstd.nl).2 in
  (forall cin, Stream.buf cin = EmptyString ->
     (Stream.getline cin Cstd.nl).1 = None
     /\ Stream.buf (failed cin) = EmptyString
     /\ Menu.displayMenu cin = (Menu.menuText, (-1)%Z, failed cin))
  /\ (forall st cin out, Stream.buf cin = EmptyString ->
        Part1.mainLoop rounds fs st cin out
        = (out +:+ More.repeated rounds round_text,
           Next (st, Nat.iter rounds failed cin)))
  /\ (forall st cin out, Stream.buf cin = EmptyString ->
        Artifact2.mainLoop rounds fs st cin out
        = (out +:+ More.repeated rounds round_text,
           Next (st, Nat.iter rounds failed cin))).
Proof.
  intros round_text failed. split; [|split].
  - intros cin Hbuf. destruct (getline_at_end cin Cstd.nl Hbuf) as [H1 H2].
    split; [done|]. split; [done|]. by apply displayMenu_at_end.
  - induction rounds as [|rounds IH]; intros st cin out Hbuf.
    + simpl. by rewrite append_nil_r.
    + cbn [Part1.mainLoop]. rewrite (map_round_at_end fs st cin Hbuf).
      rewrite IH by (by apply getline_at_end).
      rewrite Nat.iter_succ_r. simpl. by rewrite append_assoc.
  - induction rounds as [|rounds IH]; intros st cin out Hbuf.
    + simpl. by rewrite append_nil_r.
    + cbn [Artifact2.mainLoop]. rewrite (tree_round_at_end fs st cin Hbuf).
      rewrite IH by (by apply getline_at_end).
      rewrite Nat.iter_succ_r. simpl. by rewrite append_assoc.
Qed.

(** Three rounds of the map program on an empty standard input. *)
Lemma end_of_input_spins_witness :
  Part1.mainLoop 3 sample (Part1.mkState ∅ false)
    (Stream.open EmptyString) Menu.welcome
  = (Menu.welcome
     +:+ More.repeated 3 (Menu.menuText +:+ Menu.notValid (-1)),
     Next (Part1.mkState ∅ false,
           Stream.mkStream EmptyString true true)).
Proof.
  exact (proj1 (proj2 (end_of_input_spins sample 3)) (Part1.mkState ∅ false)
           (Stream.open EmptyString) Menu.welcome eq_refl).
Defined.

Section MenuState.
Import Cstd Stream Norm Spec More.
Variable fs : FileSystem.

(** What a round of the map program does to the state: nothing, unless
    the choice is 1, and then the catalog and the flag are those of the
    load of the file named on the next line. *)
Lemma map_round_state (st : Part1.State) (cin : istream) :
  match (Part1.mainIter fs st cin).2 with
  | Terminated _ => True
  | Next (st', cin') =>
      if decide ((Menu.displayMenu cin).1.2 = 1%Z) then
        let name := (Menu.readLine (Menu.displayMenu cin).2).1 in
        st' = Part1.mkState
                (Part1.loadCoursesFromCsv fs name (Part1.courses st)).2
                (Part1.loadCoursesFromCsv fs name (Part1.courses st)).1
        /\ cin' = (Menu.readLine (Menu.displayMenu cin).2).2
      else st' = st
  end.
Proof.
  unfold Part1.mainIter.
  destruct (Menu.displayMenu cin) as [[out choice] cin0]. cbn [fst snd].
  case_decide as Hc.
  - subst choice. destruct (Menu.readLine cin0) as [name cin1]. cbn [fst snd].
    by destruct (Part1.loadCoursesFromCsv fs name (Part1.courses st)) as [[] cs].
  - destruct (decide (choice = 2%Z)) as [-> | N2].
    { by destruct (negb (Part1.dataLoaded st)). }
    destruct (decide (choice = 3%Z)) as [-> | N3].
    { destruct (negb (Part1.dataLoaded st)); [done|].
      by destruct (Menu.readLine cin0). }
    destruct (decide (choice = 9%Z)) as [-> | N9]; [done|].
    by rewrite switch_default.
Qed.

Lemma tree_round_state (st : Artifact2.State) (cin : istream) :
  match (Artifact2.mainIter fs st cin).2 with
  | Terminated _ => True
  | Next (st', cin') =>
      if decide ((Menu.displayMenu cin).1.2 = 1%Z) then
        let name := (Menu.readLine (Menu.displayMenu cin).2).1 in
        st' = Artifact2.mkState
                (Artifact2.loadCoursesFromCsv fs name (Artifact2.bst st)).2
                (Artifact2.loadCoursesFromCsv fs name (Artifact2.bst st)).1
        /\ cin' = (Menu.readLine (Menu.displayMenu cin).2).2
      else st' = st
  end.
Proof.
  unfold Artifact2.mainIter.
  destruct (Menu.displayMenu cin) as [[out choice] cin0]. cbn [fst snd].
  case_decide as Hc.
  - subst choice. destruct (Menu.readLine cin0) as [name cin1]. cbn [fst snd].
    by destruct (Artifact2.loadCoursesFromCsv fs name (Artifact2.bst st))
      as [[] b].
  - destruct (decide (choice = 2%Z)) as [-> | N2].
    { by destruct (negb (Artifact2.dataLoaded st)). }
    destruct (decide (choice = 3%Z)) as [-> | N3].
    { destruct (negb (Artifact2.dataLoaded st)); [done|].
      by destruct (Menu.readLine cin0). }
    destruct (decide (choice = 9%Z)) as [-> | N9]; [done|].
    by rewrite switch_default.
Qed.

Lemma map_inv_round (st : Part1.State) (cin : istream) :
  map_inv fs st ->
  match (Part1.mainIter fs st cin).2 with
  | Terminated _ => True
  | Next (st', _) => map_inv fs st'
  end.
Proof.
  intros [Hfrom Hflag]. pose proof (map_round_state st cin) as Hr.
  destruct (Part1.mainIter fs st cin) as [o [[st' cin']|code]]; [|done].
  cbn [snd] in *. case_decide; [|by subst].
  destruct Hr as [-> _]. cbv zeta.
  set (name := (Menu.readLine (Menu.displayMenu cin).2).1).
  destruct (fs name) as [content|] eqn:Hfs.
  - rewrite (map_load_spec _ _ _ _ Hfs). split; simpl.
    + right. eauto.
    + eauto.
  - unfold Part1.loadCoursesFromCsv. rewrite Hfs. by split.
Qed.

Lemma map_inv_loop (rounds : nat) :
  forall st cin out, map_inv fs st ->
  match (Part1.mainLoop rounds fs st cin out).2 with
  | Terminated _ => True
  | Next (st', _) => map_inv fs st'
  end.
Proof.
  induction rounds as [|rounds IH]; intros st cin out Hinv; simpl; [done|].
  pose proof (map_inv_round st cin Hinv) as Hr.
  destruct (Part1.mainIter fs st cin) as [o [[st' cin']|code]]; [|done].
  by apply IH.
Qed.

Lemma tree_inv_round (st : Artifact2.State) (cin : istream) :
  ordered (Artifact2.root (Artifact2.bst st)) ->
  match (Artifact2.mainIter fs st cin).2 with
  | Terminated _ => True
  | Next (st', _) => ordered (Artifact2.root (Artifact2.bst st'))
  end.
Proof.
  intros Hord. pose proof (tree_round_state st cin) as Hr.
  destruct (Artifact2.mainIter fs st cin) as [o [[st' cin']|code]]; [|done].
  cbn [snd] in *. case_decide; [|by subst].
  destruct Hr as [-> _]. cbv zeta.
  set (name := (Menu.readLine (Menu.displayMenu cin).2).1).
  destruct (fs name) as [content|] eqn:Hfs.
  - rewrite (tree_load_spec _ _ _ _ Hfs). simpl.
    rewrite root_fold_bst_insert. by apply ordered_fold_insert.
  - unfold Artifact2.loadCoursesFromCsv. by rewrite Hfs.
Qed.

Lemma tree_inv_loop (rounds : nat) :
  forall st cin out, ordered (Artifact2.root (Artifact2.bst st)) ->
  match (Artifact2.mainLoop rounds fs st cin out).2 with
  | Terminated _ => True
  | Next (st', _) => ordered (Artifact2.root (Artifact2.bst st'))
  end.
Proof.
  induction rounds as [|rounds IH]; intros st cin out Hinv; simpl; [done|].
  pose proof (tree_inv_round st cin Hinv) as Hr.
  destruct (Artifact2.mainIter fs st cin) as [o [[st' cin']|code]]; [|done].
  by apply IH.
Qed.

Lemma from_file_entries (m : gmap string Course) (k : string) (c : Course) :
  from_file fs m -> m !! k = Some c ->
  courseNumber c = k /\ courseNumber c <> EmptyString
  /\ title c <> EmptyString.
Proof.
  intros [-> | (name & content & Hfs & ->)].
  - by rewrite lookup_empty.
  - rewrite lookup_fold_store, lookup_empty.
    destruct (latest k (records content)) as [c'|] eqn:Hl; [|done].
    intros [= <-]. apply latest_Some in Hl as [Hk Hc]. split; [done|].
    unfold records in Hc. apply list_elem_of_omap in Hc as (line & _ & Hp).
    by apply parse_line_nonempty in Hp.
Qed.

End MenuState.

(** X12.  Only the choice 1 changes the state of a menu loop.  A round
    of the map or tree program that returns to the menu leaves catalog
    and flag as they were unless the choice is 1, and then both are what
    the load of the file named on the next input line returns (after a
    failed load: the old catalog, with the flag cleared). *)
Theorem only_load_changes_state (fs : FileSystem) :
  (forall st cin,
     match (Part1.mainIter fs st cin).2 with
     | Terminated _ => True
     | Next (st', cin') =>
         if decide ((Menu.displayMenu cin).1.2 = 1%Z) then
           let name := (Menu.readLine (Menu.displayMenu cin).2).1 in
           st' = Part1.mkState
                   (Part1.loadCoursesFromCsv fs name (Part1.courses st)).2
                   (Part1.loadCoursesFromCsv fs name (Part1.courses st)).1
           /\ cin' = (Menu.readLine (Menu.displayMenu cin).2).2
         else st' = st
     end)
  /\ (forall st cin,
        match (Artifact2.mainIter fs st cin).2 with
        | Terminated _ => True
        | Next (st', cin') =>
            if decide ((Menu.displayMenu cin).1.2 = 1%Z) then
              let name := (Menu.readLine (Menu.displayMenu cin).2).1 in
              st' = Artifact2.mkState
                      (Artifact2.loadCoursesFromCsv fs name (Artifact2.bst st)).2
                      (Artifact2.loadCoursesFromCsv fs name (Artifact2.bst st)).1
              /\ cin' = (Menu.readLine (Menu.displayMenu cin).2).2
            else st' = st
        end).
Proof. split; [apply map_round_state | apply tree_round_state]. Qed.

(** X13.  While no data is loaded the list and detail queries are
    refused: the round writes the menu and the please-load line, reads
    no further input line and leaves the state as it is.  This holds
    after a failed load too, whose catalog is intact but flagged as not
    loaded. *)
Theorem queries_need_data (fs : FileSystem) :
  (forall st cin,
     Part1.dataLoaded st = false ->
     (Menu.displayMenu cin).1.2 = 2%Z \/ (Menu.displayMenu cin).1.2 = 3%Z ->
     Part1.mainIter fs st cin
     = (Menu.menuText +:+ Menu.pleaseLoad, Next (st, (Menu.displayMenu cin).2)))
  /\ (forall st cin,
        Artifact2.dataLoaded st = false ->
        (Menu.displayMenu cin).1.2 = 2%Z \/ (Menu.displayMenu cin).1.2 = 3%Z ->
        Artifact2.mainIter fs st cin
        = (Menu.menuText +:+ Menu.pleaseLoad,
           Next (st, (Menu.displayMenu cin).2))).
Proof.
  split; intros st cin Hflag Hc.
  - unfold Part1.mainIter.
    assert (Hout : (Menu.displayMenu cin).1.1 = Menu.menuText)
      by (unfold Menu.displayMenu; by destruct (Menu.readLine cin)).
    destruct (Menu.displayMenu cin) as [[out choice] cin']. cbn [fst snd] in *.
    subst out. rewrite Hflag. by destruct Hc as [-> | ->].
  - unfold Artifact2.mainIter.
    assert (Hout : (Menu.displayMenu cin).1.1 = Menu.menuText)
      by (unfold Menu.displayMenu; by destruct (Menu.readLine cin)).
    destruct (Menu.displayMenu cin) as [[out choice] cin']. cbn [fst snd] in *.
    subst out. rewrite Hflag. by destruct Hc as [-> | ->].
Qed.

Lemma queries_need_data_witness :
  Part1.mainIter sample (Part1.mkState ∅ false) (Stream.open "2")
  = (Menu.menuText +:+ Menu.pleaseLoad,
     Next (Part1.mkState ∅ false, (Menu.displayMenu (Stream.open "2")).2)).
Proof.
  exact (proj1 (queries_need_data sample) (Part1.mkState ∅ false)
           (Stream.open "2") eq_refl (or_introl eq_refl)).
Defined.

(** X14.  Invariants of the running programs.  In every state the map
    program reaches, the catalog is empty or that of a file, it is that
    of a file whenever the flag is set, and every entry sits under its
    own identifier with identifier and title not empty; in every state
    the tree program reaches, the tree satisfies the ordering
    invariant. *)
Theorem reachable_states (fs : FileSystem) (rounds : nat) (stdin : string) :
  match (Part1.main rounds fs stdin).2 with
  | Terminated _ => True
  | Next (st, _) =>
      More.map_inv fs st
      /\ forall k c, Part1.courses st !! k = Some c ->
           courseNumber c = k /\ courseNumber c <> EmptyString
           /\ title c <> EmptyString
  end
  /\ match (Artifact2.main rounds fs stdin).2 with
     | Terminated _ => True
     | Next (st, _) => Spec.ordered (Artifact2.root (Artifact2.bst st))
     end.
Proof.
  split.
  - unfold Part1.main.
    pose proof (map_inv_loop fs rounds (Part1.mkState ∅ false)
                  (Stream.open stdin) Menu.welcome) as H.
    destruct (Part1.mainLoop _ _ _ _ _) as [o [[st cin]|code]]; [|done].
    cbn [snd] in *.
    assert (Hinv : More.map_inv fs st).
    { apply H. split; [by left | done]. }
    split; [done|]. intros k c. apply from_file_entries with (fs := fs).
    apply Hinv.
  - unfold Artifact2.main.
    pose proof (tree_inv_loop fs rounds (Artifact2.mkState Artifact2.empty_bst false)
                  (Stream.open stdin) Menu.welcome) as H.
    destruct (Artifact2.mainLoop _ _ _ _ _) as [o [[st cin]|code]]; [|done].
    cbn [snd] in *. by apply H.
Qed.

(** * Menu input *)

Section Stoi.
Import Cstd Norm Spec More Menu.

Lemma skip_ws_lstrip (s : string) : skip_ws s = lstrip s.
Proof. induction s as [|ch s IH]; simpl; [done | by rewrite IH]. Qed.

Lemma skip_ws_app (s rest : string) :
  skip_ws s <> EmptyString -> skip_ws (s +:+ rest) = skip_ws s +:+ rest.
Proof.
  induction s as [|ch s IH]; simpl; [done|].
  destruct (isspace ch); [exact IH | done].
Qed.

Lemma digits_tail (rest : string) :
  starts_with_digit rest = false ->
  forall d acc, digits (d +:+ rest) acc = digits d acc.
Proof.
  intros Hrest. induction d as [|ch d IH]; intros acc; simpl.
  - destruct rest as [|a rest]; simpl in *; [done | by rewrite Hrest].
  - destruct (isdigit ch); [apply IH | done].
Qed.

Lemma starts_with_digit_app (d rest : string) :
  starts_with_digit d = true -> starts_with_digit (d +:+ rest) = true.
Proof. by destruct d. Qed.

Lemma convert_tail (neg : bool) (s rest : string) :
  starts_with_digit rest = false ->
  convert neg (s +:+ rest) = convert neg s.
Proof.
  unfold convert. intros Hrest.
  destruct (starts_with_digit s) eqn:Hs.
  - by rewrite (starts_with_digit_app _ rest Hs), digits_tail.
  - destruct s as [|ch s]; simpl in *; by rewrite ?Hrest, ?Hs.
Qed.

Lemma stoi_sign (s : string) :
  stoi s
  = match skip_ws s with
    | String "-"%char r => convert true r
    | String "+"%char r => convert false r
    | s1 => convert false s1
    end.
Proof.
  unfold stoi, convert. destruct (skip_ws s) as [|ch r]; [done|].
  destruct ch as [[] [] [] [] [] [] [] []]; reflexivity.
Qed.

(** Text that does not start with a digit, after a string that is not
    blank, does not change the conversion. *)
Lemma stoi_tail (s rest : string) :
  starts_with_digit rest = false -> skip_ws s <> EmptyString ->
  stoi (s +:+ rest) = stoi s.
Proof.
  intros Hrest Hne. rewrite !stoi_sign, skip_ws_app by done.
  destruct (skip_ws s) as [|ch r] eqn:Hs; [done|].
  change (String ch r +:+ rest) with (String ch (r +:+ rest)).
  destruct ch as [[] [] [] [] [] [] [] []];
    first [ apply convert_tail; exact Hrest
          | apply (convert_tail false (String _ r)); exact Hrest ].
Qed.

Lemma stoi_blank (s : string) : skip_ws s = EmptyString -> stoi s = None.
Proof. intros H. by rewrite stoi_sign, H. Qed.

Lemma space_not_digit ch : isspace ch = true -> isdigit ch = false.
Proof. destruct ch as [[] [] [] [] [] [] [] []]; done. Qed.

Lemma all_space_no_digit (t : string) :
  all_space t = true -> starts_with_digit t = false.
Proof.
  destruct t as [|ch t]; simpl; [done|].
  intros [H _]%andb_prop. by apply space_not_digit.
Qed.

Lemma stoi_lstrip (s : string) : stoi (lstrip s) = stoi s.
Proof.
  rewrite !stoi_sign, !skip_ws_lstrip.
  by rewrite (lstrip_fixed (lstrip s)) by apply headspace_lstrip.
Qed.

Lemma stoi_rstrip (s : string) : stoi (rstrip s) = stoi s.
Proof.
  destruct (rstrip_split s) as (t & Hs & Ht).
  destruct (skip_ws (rstrip s)) as [|ch r] eqn:Hr.
  - rewrite (stoi_blank _ Hr). symmetry. apply stoi_blank.
    rewrite skip_ws_lstrip in *. apply lstrip_nil_all_space.
    apply lstrip_nil_all_space in Hr.
    rewrite Hs, all_space_app, Ht.
    assert (H : rstrip (rstrip s) = EmptyString)
      by (by apply rstrip_nil_all_space).
    rewrite rstrip_idem in H. by rewrite H.
  - rewrite Hs at 2. symmetry. apply stoi_tail.
    + by apply all_space_no_digit.
    + by rewrite Hr.
Qed.

Lemma stoi_trim (s : string) : stoi (trim s) = stoi s.
Proof. by rewrite trim_spec, stoi_rstrip, stoi_lstrip. Qed.

End Stoi.

(** X15.  [std::stoi], and so the menu, reads the number at the start of
    the line and ignores what follows it: text that does not start with
    a digit, appended to a string that converts, leaves the result. *)
Theorem stoi_ignores_tail (s rest : string) (v : Z) :
  Menu.starts_with_digit rest = false ->
  Menu.stoi s = Some v -> Menu.stoi (s +:+ rest) = Some v.
Proof.
  intros Hrest Hs. rewrite stoi_tail; [done | done |].
  intros Hblank. by rewrite (stoi_blank _ Hblank) in Hs.
Qed.

Lemma stoi_ignores_tail_witness : Menu.stoi "9 lives" = Some 9%Z.
Proof. exact (stoi_ignores_tail "9" " lives" 9%Z eq_refl eq_refl). Defined.

(** X16.  The choice [displayMenu] returns is the conversion of the input
    line as it was typed (trimming it first changes nothing), and -1
    whenever the conversion throws: for a blank line, for text that does
    not start with a number, for a number outside [int]. *)
Theorem menu_choice (cin : Stream.istream) :
  (Menu.displayMenu cin).1.2
  = match Menu.stoi (Menu.readLine cin).1 with
    | Some v => v
    | None => (-1)%Z
    end.
Proof.
  unfold Menu.displayMenu. destruct (Menu.readLine cin) as [input cin'].
  cbn [fst snd]. rewrite <- (stoi_trim input).
  destruct (Norm.trim input) as [|ch t]; done.
Qed.

(** * The original program *)

Section OriginalMore.
Import Cstd Stream Norm Spec More.

Lemma getline_failed (st st' : istream) (d : ascii) :
  getline st d = (None, st') -> good st' = false.
Proof.
  unfold getline. destruct (good st) eqn:Hg.
  - destruct (buf st) as [|ch s]; [by intros [= <-]|].
    by destruct (read_until d (String ch s)) as [f [r|]].
  - intros [= <-]. unfold good. simpl. by rewrite andb_false_r.
Qed.

Lemma getline_not_good (st : istream) (d : ascii) :
  good st = false -> (getline st d).1 = None.
Proof. intros H. unfold getline. by rewrite H. Qed.

Lemma reads_not_good (st : istream) (d : ascii) :
  good st = false -> reads st d = [].
Proof.
  intros H. pose proof (getline_not_good st d H) as Hg.
  destruct (getline st d) as [[str|] st'] eqn:E; [done|].
  by apply (reads_stop _ _ _ E).
Qed.

Lemma collect_reads (ss : istream) :
  for_each_line ss comma (fun prereq ps => ps ++ [prereq]) [] = reads ss comma.
Proof. reflexivity. Qed.

(** The original parser keeps the fields of a line as they are. *)
Lemma parseLine_fields (line : string) :
  Original.parseLine line = verbatim (fields line).
Proof.
  unfold Original.parseLine, Original.getField, fields.
  destruct (getline (open line) comma) as [[f1|] ss1] eqn:H1.
  - rewrite (reads_step _ _ _ _ H1).
    destruct (getline ss1 comma) as [[f2|] ss2] eqn:H2.
    + rewrite (reads_step _ _ _ _ H2). by rewrite collect_reads.
    + rewrite (reads_stop _ _ _ H2), collect_reads.
      by rewrite (reads_not_good _ _ (getline_failed _ _ _ H2)).
  - rewrite (reads_stop _ _ _ H1).
    pose proof (getline_failed _ _ _ H1) as Hbad.
    pose proof (getline_not_good ss1 comma Hbad) as H2.
    destruct (getline ss1 comma) as [[f2|] ss2] eqn:E2; [done|].
    rewrite collect_reads.
    by rewrite (reads_not_good _ _ (getline_failed _ _ _ E2)).
Qed.

Lemma fold_snoc_map {A B : Type} (f : A -> B) (l : list A) (acc : list B) :
  fold_left (fun a x => a ++ [f x]) l acc = acc ++ map f l.
Proof.
  revert acc. induction l as [|x l IH]; intros acc; simpl.
  - by rewrite app_nil_r.
  - by rewrite IH, <- app_assoc.
Qed.

Lemma first_match_None (k : string) (cs : list Course) :
  first_match k cs = None <-> k ∉ numbers cs.
Proof.
  unfold first_match, numbers. induction cs as [|c cs IH]; simpl.
  - split; [intros _ H; by apply elem_of_nil in H | done].
  - rewrite not_elem_of_cons.
    destruct (String.eqb (courseNumber c) k) eqn:Hk.
    + apply String.eqb_eq in Hk. split; [done | by intros [? _]].
    + apply String.eqb_neq in Hk. rewrite IH. split; [by split | by intros [_ ?]].
Qed.

End OriginalMore.

#[local] Instance course_le_total : Total Original.course_le.
Proof. intros a b. unfold Original.course_le. apply (total String.le). Qed.

(** X17.  The original [parseFile] stores one course per line with the
    fields as they are in the file: the first as identifier, the second
    as title, the others as prerequisites, without trimming, case
    folding or dropping empty ones; a missing field is left empty. *)
Theorem original_parse_verbatim (content : string) :
  Original.parseFile (Stream.open content)
  = map (fun line => More.verbatim (Spec.fields line)) (Spec.lines content).
Proof.
  unfold Original.parseFile, Spec.lines. rewrite for_each_line_fold.
  rewrite (fold_snoc_map Original.parseLine). simpl.
  apply map_ext. intros line. apply parseLine_fields.
Qed.

(** X18.  [searchCourse] of the original program reports the first
    course of the list whose identifier equals the query character for
    character (a later duplicate is never shown), and the not-found
    line exactly when no course has that identifier. *)
Theorem original_search_first (number : string) (courses : list Course) :
  Original.searchCourse number courses
  = match More.first_match number courses with
    | Some c => Spec.detail_spaced c
    | None => "Error: Course not found" +:+ Cstd.endl
    end
  /\ (More.first_match number courses = None
      <-> number ∉ Spec.numbers courses).
Proof.
  split; [|apply first_match_None].
  unfold More.first_match.
  induction courses as [|c courses IH]; simpl; [done|].
  destruct (String.eqb (courseNumber c) number); [|exact IH].
  apply original_printCourse.
Qed.

(** X19.  [printSortedCourses] of the original program writes one line
    for every course of the list, duplicates included, in non-decreasing
    order of identifier. *)
Theorem original_listing (courses : list Course) :
  exists sorted,
    Original.printSortedCourses courses
    = String.concat EmptyString (map Original.courseLine sorted)
    /\ sorted ≡ₚ courses
    /\ Sorted Original.course_le sorted.
Proof.
  exists (merge_sort Original.course_le courses). split; [done|]. split.
  - apply merge_sort_Permutation.
  - apply (Sorted_merge_sort Original.course_le).
Qed.

(** * The database program *)

Section DbStart.
Import Cstd Stream.

(** Once the file opens, the load starts from two empty tables. *)
Lemma db_load_start (fs : FileSystem) (fileName content : string)
    (db : Part3.Database) :
  fs fileName = Some content ->
  Part3.loadCoursesFromCSV fs fileName db
  = for_each_line_try (open content) nl Part3.loadLine (Part3.mkDb [] []).
Proof.
  intros Hfs. unfold Part3.loadCoursesFromCSV. rewrite Hfs. reflexivity.
Qed.

End DbStart.

(** X20.  A load of the database program does not depend on what the two
    tables held: once the file opens both are emptied first.  So when a
    load runs only statements of the four forms the loader is written to
    build (the model gives its result), a load of the same source from any
    other contents, and a second load in succession, give the same result
    and the same tables. *)
Theorem db_load_twice (fs : FileSystem) (fileName : string)
    (db : Part3.Database) (r : bool * Part3.Database) :
  Part3.loadCoursesFromCSV fs fileName db = Some r ->
  Part3.loadCoursesFromCSV fs fileName r.2 = Some r
  /\ (forall content db', fs fileName = Some content ->
        Part3.loadCoursesFromCSV fs fileName db' = Some r).
Proof.
  intros Hr. destruct (fs fileName) as [content|] eqn:Hfs.
  - rewrite (db_load_start _ _ _ _ Hfs) in Hr. split.
    + by rewrite (db_load_start _ _ _ _ Hfs).
    + intros content' db' [= <-]. by rewrite (db_load_start _ _ _ _ Hfs).
  - unfold Part3.loadCoursesFromCSV in *. rewrite Hfs in *.
    injection Hr as <-. by split.
Qed.

Lemma db_load_twice_witness :
  Part3.loadCoursesFromCSV sample "courses.csv"
    (Part3.mkDb [("MATH1", "Calculus")] [])
  = Some (true,
          Part3.mkDb [("CS101", "Intro to CS"); ("CS100", "Fundamentals")]
                     [("CS101", "CS100")]).
Proof.
  exact (proj2 (db_load_twice sample "courses.csv" (Part3.mkDb [] []) _
                  eq_refl)
           _ (Part3.mkDb [("MATH1", "Calculus")] []) eq_refl).
Defined.

(** * Lines and fields of well-formed text *)

Section WellFormed.
Import Cstd Stream Norm Spec More.

Lemma reads_terminated_all (d : ascii) (ls : list string) :
  Forall (fun l => contains d l = false) ls ->
  reads (open (terminated d ls)) d = ls.
Proof.
  induction 1 as [|l ls Hl _ IH]; simpl.
  - apply (reads_stop _ _ _ (getline_empty d)).
  - by rewrite (reads_step _ _ _ _ (getline_found d l _ Hl)), IH.
Qed.

Lemma reads_unterminated (d : ascii) (ls : list string) (l : string) :
  Forall (fun l => contains d l = false) ls ->
  contains d l = false -> l <> EmptyString ->
  reads (open (terminated d ls +:+ l)) d = ls ++ [l].
Proof.
  intros Hls Hl Hne. induction Hls as [|x ls Hx _ IH]; simpl.
  - rewrite (reads_step _ _ _ _ (getline_end d l Hl Hne)).
    by rewrite (reads_stop _ _ _ (getline_eof d)).
  - change ((x +:+ String d (terminated d ls)) +:+ l)
      with ((x +:+ String d (terminated d ls)) +:+ l).
    rewrite append_assoc. simpl.
    by rewrite (reads_step _ _ _ _ (getline_found d x _ Hx)), IH.
Qed.

End WellFormed.

(** X21.  A [while (getline ...)] loop visits the pieces of a text once
    each and in order: when every piece is followed by the delimiter,
    and also when the last one is not (and is not empty).  So a final
    newline adds no line to a file, and a comma at the end of a line adds
    no field. *)
Theorem getline_loop_visits (d : ascii) (ls : list string) (l : string)
    (A : Type) (body : string -> A -> A) (acc : A) :
  Forall (fun x => Spec.contains d x = false) ls ->
  Stream.for_each_line (Stream.open (More.terminated d ls)) d body acc
  = fold_left (fun a x => body x a) ls acc
  /\ (Spec.contains d l = false -> l <> EmptyString ->
      Stream.for_each_line (Stream.open (More.terminated d ls +:+ l)) d body acc
      = fold_left (fun a x => body x a) (ls ++ [l]) acc).
Proof.
  intros Hls. split.
  - by rewrite for_each_line_fold, reads_terminated_all.
  - intros Hl Hne. by rewrite for_each_line_fold, reads_unterminated.
Qed.

Lemma getline_loop_visits_witness :
  Spec.lines ("a" +:+ Cstd.endl +:+ "b" +:+ Cstd.endl) = ["a"; "b"].
Proof.
  exact (proj1 (getline_loop_visits Cstd.nl ["a"; "b"] EmptyString
                  (list string) (fun str acc => acc ++ [str]) []
                  ltac:(by repeat constructor))).
Defined.

(** * Writing courses as lines and reading them back *)

Section RoundTrip.
Import Cstd Stream Norm Spec More.

#[local] Abbreviation sep := (String comma EmptyString).

Lemma concat_cons2 (x y : string) (l : list string) :
  String.concat sep (x :: y :: l)
  = x +:+ String comma (String.concat sep (y :: l)).
Proof. reflexivity. Qed.

Lemma reads_concat (fs : list string) :
  Forall (fun f => contains comma f = false) fs ->
  (forall l, last fs = Some l -> l <> EmptyString) ->
  fs <> [] ->
  fields (String.concat sep fs) = fs.
Proof.
  unfold fields. induction fs as [|x [|y fs] IH]; intros Hall Hlast Hne.
  - done.
  - simpl. apply Forall_cons in Hall as [Hx _].
    rewrite (reads_step _ _ _ _ (getline_end comma x Hx (Hlast x eq_refl))).
    by rewrite (reads_stop _ _ _ (getline_eof comma)).
  - rewrite concat_cons2. apply Forall_cons in Hall as [Hx Hall].
    rewrite (reads_step _ _ _ _ (getline_found comma x _ Hx)).
    f_equal. apply IH; [done | | done].
    intros l Hl. apply Hlast. exact Hl.
Qed.

Lemma tailspace_app (a b : string) :
  b <> EmptyString -> tailspace (a +:+ b) = tailspace b.
Proof.
  intros Hb. induction a as [|ch a IH]; [done|].
  change (String ch a +:+ b) with (String ch (a +:+ b)).
  destruct (a +:+ b) as [|c' r] eqn:E.
  - destruct a; [by destruct b | done].
  - exact IH.
Qed.

Lemma headspace_app (a b : string) :
  a <> EmptyString -> headspace (a +:+ b) = headspace a.
Proof. by destruct a. Qed.

Lemma rstrip_fixed (s : string) : tailspace s = false -> rstrip s = s.
Proof.
  induction s as [|ch s IH]; [done|].
  destruct s as [|c' r].
  - simpl. by intros ->.
  - intros H. change (tailspace (String c' r) = false) in H.
    change (rstrip (String ch (String c' r)))
      with (match rstrip (String c' r) with
            | EmptyString => if isspace ch then EmptyString
                             else String ch EmptyString
            | String _ _ as rest' => String ch rest'
            end).
    by rewrite (IH H).
Qed.

Lemma trim_fixed (s : string) :
  headspace s = false -> tailspace s = false -> trim s = s.
Proof.
  intros Hh Ht. by rewrite trim_spec, (lstrip_fixed _ Hh), (rstrip_fixed _ Ht).
Qed.

Lemma headspace_toUpper (s : string) : headspace (toUpper s) = headspace s.
Proof. destruct s; simpl; [done | apply isspace_toupper]. Qed.

Lemma tailspace_toUpper (s : string) : tailspace (toUpper s) = tailspace s.
Proof.
  induction s as [|ch s IH]; [done|].
  destruct s as [|c' r]; simpl in *; [apply isspace_toupper | exact IH].
Qed.

Lemma trimmed_ends (s : string) :
  trim s = s -> headspace s = false /\ tailspace s = false.
Proof.
  intros <-. rewrite trim_spec. split.
  - apply headspace_rstrip, headspace_lstrip.
  - apply tailspace_rstrip.
Qed.

Lemma normal_ends (s : string) :
  normalizeCourseNumber s = s -> headspace s = false /\ tailspace s = false.
Proof.
  intros <-. unfold normalizeCourseNumber.
  rewrite headspace_toUpper, tailspace_toUpper.
  apply trimmed_ends, trim_idem.
Qed.

Lemma tailspace_concat (fs : list string) (l : string) :
  last fs = Some l -> l <> EmptyString ->
  tailspace (String.concat sep fs) = tailspace l.
Proof.
  induction fs as [|x [|y fs] IH]; intros Hl Hne.
  - done.
  - by injection Hl as ->.
  - rewrite concat_cons2.
    assert (Hc : String.concat sep (y :: fs) <> EmptyString).
    { destruct fs as [|z fs]; simpl.
      - injection Hl as ->. done.
      - destruct y; done. }
    rewrite tailspace_app by done.
    change (tailspace (String comma (String.concat sep (y :: fs))))
      with (match String.concat sep (y :: fs) with
            | EmptyString => isspace comma
            | String _ _ => tailspace (String.concat sep (y :: fs))
            end).
    destruct (String.concat sep (y :: fs)) eqn:E; [done|].
    by apply IH.
Qed.

Lemma contains_app (ch : ascii) (a b : string) :
  contains ch (a +:+ b) = contains ch a || contains ch b.
Proof.
  induction a as [|c' a IH]; [done|].
  change (String c' a +:+ b) with (String c' (a +:+ b)). simpl.
  by rewrite IH, orb_assoc.
Qed.

Lemma contains_concat (ch : ascii) (fs : list string) :
  Ascii.eqb comma ch = false ->
  Forall (fun f => contains ch f = false) fs ->
  contains ch (String.concat sep fs) = false.
Proof.
  intros Hch. induction fs as [|x [|y fs] IH]; intros Hall.
  - done.
  - by apply Forall_cons in Hall as [Hx _].
  - rewrite concat_cons2, contains_app. apply Forall_cons in Hall as [Hx Hall].
    rewrite Hx. cbn [orb contains]. rewrite Hch. by apply IH.
Qed.

Lemma prereqs_of_fixed (ps : list string) :
  Forall (fun p => p <> EmptyString /\ normalizeCourseNumber p = p) ps ->
  prereqs_of ps = ps.
Proof.
  unfold prereqs_of. induction 1 as [|p ps [Hne Hp] _ IH]; simpl; [done|].
  rewrite filter_cons, Hp, decide_True by done. by rewrite IH.
Qed.

(** A well-formed course written as a line is read back as it was. *)
Lemma parse_csv_line (c : Course) :
  well_formed c -> parse_line (csv_line c) = Some c.
Proof.
  intros ((Hn & Ht & Hps) & Hplain & Hne & Htne).
  set (fs := courseNumber c :: title c :: prerequisites c).
  assert (Hlast : forall l, last fs = Some l ->
            l <> EmptyString /\ tailspace l = false).
  { intros l Hl. subst fs.
    destruct (prerequisites c) as [|p ps] eqn:Hp.
    - injection Hl as <-. split; [done|]. by apply trimmed_ends.
    - assert (Hin : l ∈ p :: ps).
      { change (last (courseNumber c :: title c :: p :: ps))
          with (last (p :: ps)) in Hl.
        by apply last_Some_elem_of. }
      rewrite Forall_forall in Hps. destruct (Hps _ Hin) as [Hl1 Hl2].
      split; [done|]. by apply normal_ends. }
  assert (Htrim : trim (csv_line c) = csv_line c).
  { apply trim_fixed.
    - unfold csv_line. fold fs. subst fs. rewrite concat_cons2.
      rewrite headspace_app by done. by apply normal_ends.
    - destruct (last fs) as [l|] eqn:Hl; [|by apply last_None in Hl].
      destruct (Hlast l eq_refl) as [Hl1 Hl2].
      unfold csv_line. fold fs. by rewrite (tailspace_concat fs l). }
  unfold parse_line. rewrite Htrim. unfold csv_line. fold fs.
  rewrite reads_concat.
  - subst fs. cbv iota. rewrite Hn, Ht.
    apply empty_false in Hne, Htne. rewrite Hne, Htne. simpl.
    rewrite (prereqs_of_fixed _ Hps). by destruct c.
  - eapply Forall_impl; [exact Hplain|]. by intros f [? _].
  - intros l Hl. by apply Hlast.
  - done.
Qed.

Lemma csv_line_no_newline (c : Course) :
  plain_course c -> contains nl (csv_line c) = false.
Proof.
  intros Hplain. apply contains_concat; [done|].
  eapply Forall_impl; [exact Hplain|]. by intros f [_ ?].
Qed.

Lemma records_csv (cs : list Course) :
  Forall well_formed cs ->
  records (terminated nl (map csv_line cs)) = cs
  /\ records_unchecked (terminated nl (map csv_line cs)) = cs.
Proof.
  intros Hcs. unfold records, records_unchecked, lines.
  rewrite reads_terminated_all.
  2: { apply Forall_fmap. eapply Forall_impl; [exact Hcs|].
       intros c (_ & Hp & _). by apply csv_line_no_newline. }
  induction Hcs as [|c cs Hc _ [IH1 IH2]]; [done|]. simpl.
  rewrite (parse_line_checked _ _ (parse_csv_line c Hc)), (parse_csv_line c Hc).
  simpl. split; f_equal; [exact IH1 | exact IH2].
Qed.

End RoundTrip.

(** X22.  Round trip through the input format.  Courses in normal form,
    with identifier and title, whose fields hold no comma or newline,
    written one per line with commas between the fields, are read back
    by the map and tree loaders as they were: the load succeeds and a
    key finds the last of the courses with that identifier. *)
Theorem load_round_trip (fs : FileSystem) (fileName : string)
    (cs : list Course) (old : gmap string Course)
    (oldTree : Artifact2.CourseBST) :
  Forall More.well_formed cs ->
  fs fileName = Some (More.terminated Cstd.nl (map More.csv_line cs)) ->
  Part1.loadCoursesFromCsv fs fileName old
  = (true, fold_left Spec.store cs ∅)
  /\ (forall k, (Part1.loadCoursesFromCsv fs fileName old).2 !! k
                = Spec.latest k cs)
  /\ Artifact2.loadCoursesFromCsv fs fileName oldTree
     = (true, fold_left Artifact2.bst_insert cs Artifact2.empty_bst)
  /\ (forall k, Artifact2.bst_search
                  (Artifact2.loadCoursesFromCsv fs fileName oldTree).2 k
                = Spec.latest k cs).
Proof.
  intros Hcs Hfs. destruct (records_csv cs Hcs) as [Hr Hu].
  rewrite (map_load_spec _ _ _ _ Hfs), (tree_load_spec _ _ _ _ Hfs), Hr, Hu.
  cbn [snd]. split; [done|]. split; [|split; [done|]].
  - intros k. rewrite lookup_fold_store, lookup_empty.
    by destruct (Spec.latest k cs).
  - intros k. unfold Artifact2.bst_search.
    rewrite root_fold_bst_insert, search_fold_insert. simpl.
    by destruct (Spec.latest k cs).
Qed.

Lemma load_round_trip_witness :
  let cs := [mkCourse "CS100" "Fundamentals" [];
             mkCourse "CS101" "Intro to CS" ["CS100"]] in
  let fs : FileSystem := fun _ =>
    Some (More.terminated Cstd.nl (map More.csv_line cs)) in
  Part1.loadCoursesFromCsv fs "courses.csv" ∅
  = (true, fold_left Spec.store cs ∅).
Proof.
  intros cs fs.
  refine (proj1 (load_round_trip fs "courses.csv" cs ∅ Artifact2.empty_bst
                   _ eq_refl)).
  repeat first [ apply Forall_cons; split | apply Forall_nil | split ];
    by vm_compute.
Defined.

(** * The database loader on well-formed input *)

Section DbLoader.
Import Cstd Stream Norm Spec More.

Lemma while_getline_try_fold {A : Type} (d : ascii)
    (body : string -> A -> option (bool * A)) :
  forall (fuel : nat) (st : istream) (acc : A),
  while_getline_try fuel st d body acc
  = fold_try body (while_getline fuel st d (fun str l => l ++ [str]) []) acc.
Proof.
  induction fuel as [|fuel IH]; intros st acc; simpl; [done|].
  destruct (getline st d) as [[str|] st']; [|done].
  rewrite while_getline_snoc. simpl.
  destruct (body str acc) as [[[] acc']|]; [apply IH | done | done].
Qed.

Lemma for_each_line_try_fold {A : Type} (st : istream) (d : ascii)
    (body : string -> A -> option (bool * A)) (acc : A) :
  for_each_line_try st d body acc = fold_try body (reads st d) acc.
Proof. apply while_getline_try_fold. Qed.

(** The line loop body of the database loader in terms of the fields of
    the line. *)
Lemma db_loadLine_fields (line : string) (db : Part3.Database) :
  Part3.loadLine line db
  = match fields (trim line) with
    | raw :: rawTitle :: rest =>
        match Part3.execute db
                (Part3.insertCourseSQL (normalizeCourseNumber raw)
                                       (trim rawTitle)) with
        | None => None
        | Some (false, db') => Some (false, db')
        | Some (true, db') =>
            fold_try (Part3.loadPrereq (normalizeCourseNumber raw)) rest db'
        end
    | _ => Some (true, db)
    end.
Proof.
  unfold Part3.loadLine, fields.
  destruct (trim line) as [|a t] eqn:Ht; [done|].
  cbn [empty].
  destruct (getline (open (String a t)) comma) as [[cn|] ss1] eqn:H1.
  2: { by rewrite (reads_stop _ _ _ H1). }
  rewrite (reads_step _ _ _ _ H1).
  destruct (getline ss1 comma) as [[ti|] ss2] eqn:H2.
  2: { by rewrite (reads_stop _ _ _ H2). }
  rewrite (reads_step _ _ _ _ H2).
  destruct (Part3.execute db _) as [[[] db']|]; [|done|done].
  apply for_each_line_try_fold.
Qed.

(** A string without NUL is its own C string. *)
Lemma c_str_fixed (s : string) : contains nul s = false -> c_str s = s.
Proof.
  induction s as [|ch s IH]; simpl; [done|].
  intros [Hch Hs]%orb_false_elim. by rewrite Hch, IH.
Qed.

Lemma c_str_no_nul (s : string) : contains nul (c_str s) = false.
Proof.
  induction s as [|ch s IH]; simpl; [done|].
  destruct (Ascii.eqb ch nul) eqn:E; simpl; [done | by rewrite E].
Qed.

Lemma toupper_nul (ch : ascii) :
  Ascii.eqb (toupper ch) nul = Ascii.eqb ch nul.
Proof. destruct ch as [[] [] [] [] [] [] [] []]; reflexivity. Qed.

Lemma contains_nul_toUpper (s : string) :
  contains nul (toUpper s) = contains nul s.
Proof.
  induction s as [|ch s IH]; simpl; [done|]. by rewrite toupper_nul, IH.
Qed.

Lemma normalize_no_nul (s : string) :
  contains nul s = false -> contains nul (normalizeCourseNumber s) = false.
Proof.
  intros H. unfold normalizeCourseNumber.
  rewrite contains_nul_toUpper. by apply contains_trim.
Qed.

Lemma strip_prefix_app (p x : string) :
  Part3.strip_prefix p (p +:+ x) = Some x.
Proof.
  induction p as [|ch p IH]; [by destruct x|].
  change (String ch p +:+ x) with (String ch (p +:+ x)). simpl.
  by rewrite Ascii.eqb_refl.
Qed.

Lemma read_literal_plain (v rest : string) :
  contains Part3.quote v = false ->
  match rest with
  | EmptyString => True
  | String ch _ => Ascii.eqb ch Part3.quote = false
  end ->
  Part3.read_literal (v +:+ String Part3.quote rest) = Some (v, rest).
Proof.
  intros Hv Hrest. induction v as [|ch v IH].
  - change (EmptyString +:+ String Part3.quote rest)
      with (String Part3.quote rest).
    cbn [Part3.read_literal]. rewrite Ascii.eqb_refl.
    destruct rest as [|b rest]; [done | by rewrite Hrest].
  - change (String ch v +:+ String Part3.quote rest)
      with (String ch (v +:+ String Part3.quote rest)).
    simpl in Hv. apply orb_false_elim in Hv as [Hch Hv].
    cbn [Part3.read_literal]. rewrite Hch, (IH Hv). done.
Qed.

Lemma two_values_built (prefix v1 v2 : string) :
  contains Part3.quote v1 = false -> contains Part3.quote v2 = false ->
  Part3.two_values prefix
    ((prefix +:+ "('") +:+ v1 +:+ "', '" +:+ v2 +:+ "');")
  = Some (v1, v2).
Proof.
  intros H1 H2. unfold Part3.two_values.
  rewrite strip_prefix_app. cbn [mbind option_bind].
  change (v1 +:+ "', '" +:+ v2 +:+ "');")
    with (v1 +:+ String Part3.quote (", '" +:+ v2 +:+ "');")).
  rewrite (read_literal_plain v1 _ H1) by done. cbn [mbind option_bind].
  change (", '" +:+ v2 +:+ "');") with (", '" +:+ (v2 +:+ "');")).
  rewrite strip_prefix_app. cbn [mbind option_bind].
  change (v2 +:+ "');") with (v2 +:+ String Part3.quote ");").
  rewrite (read_literal_plain v2 _ H2) by done. cbn [mbind option_bind].
  done.
Qed.

(** The text the loader builds from two values without a quote spells
    the statement it is meant to. *)
Lemma parse_insertCourse (n t : string) :
  contains Part3.quote n = false -> contains Part3.quote t = false ->
  Part3.parse (Part3.insertCourseSQL n t)
  = Some (Part3.InsertOrReplaceCourse n t).
Proof.
  intros Hn Ht. unfold Part3.parse.
  change (String.eqb (Part3.insertCourseSQL n t) "DELETE FROM prerequisites;")
    with false.
  change (String.eqb (Part3.insertCourseSQL n t) "DELETE FROM courses;")
    with false.
  cbv iota.
  change (Part3.insertCourseSQL n t)
    with (("INSERT OR REPLACE INTO courses VALUES " +:+ "('")
          +:+ n +:+ "', '" +:+ t +:+ "');").
  by rewrite two_values_built.
Qed.

Lemma parse_insertPrereq (n p : string) :
  contains Part3.quote n = false -> contains Part3.quote p = false ->
  Part3.parse (Part3.insertPrereqSQL n p)
  = Some (Part3.InsertPrerequisite n p).
Proof.
  intros Hn Hp. unfold Part3.parse.
  change (String.eqb (Part3.insertPrereqSQL n p) "DELETE FROM prerequisites;")
    with false.
  change (String.eqb (Part3.insertPrereqSQL n p) "DELETE FROM courses;")
    with false.
  cbv iota.
  change (Part3.two_values "INSERT OR REPLACE INTO courses VALUES "
            (Part3.insertPrereqSQL n p)) with (@None (string * string)).
  cbv iota.
  change (Part3.insertPrereqSQL n p)
    with (("INSERT INTO prerequisites VALUES " +:+ "('")
          +:+ n +:+ "', '" +:+ p +:+ "');").
  by rewrite two_values_built.
Qed.

(** Without a NUL in the two values the engine is given the whole text. *)
Lemma c_str_insertCourse (n t : string) :
  contains nul n = false -> contains nul t = false ->
  c_str (Part3.insertCourseSQL n t) = Part3.insertCourseSQL n t.
Proof.
  intros Hn Ht. apply c_str_fixed. unfold Part3.insertCourseSQL.
  by rewrite !contains_app, Hn, Ht.
Qed.

Lemma c_str_insertPrereq (n p : string) :
  contains nul n = false -> contains nul p = false ->
  c_str (Part3.insertPrereqSQL n p) = Part3.insertPrereqSQL n p.
Proof.
  intros Hn Hp. apply c_str_fixed. unfold Part3.insertPrereqSQL.
  by rewrite !contains_app, Hn, Hp.
Qed.

Lemma fold_try_prereqs (n : string) (rest : list string)
    (db : Part3.Database) :
  fold_try (Part3.loadPrereq n) rest db
  = fold_try (fun p d => Part3.execute d (Part3.insertPrereqSQL n p))
             (prereqs_of rest) db.
Proof.
  unfold prereqs_of. revert db.
  induction rest as [|p rest IH]; intros db; [done|].
  cbn [fold_try map]. unfold Part3.loadPrereq at 1.
  rewrite filter_cons.
  destruct (normalizeCourseNumber p) as [|a q] eqn:Hp.
  - cbn [empty]. rewrite decide_False by (intros H; by apply H). apply IH.
  - cbn [empty]. rewrite decide_True by done. cbn [fold_try].
    destruct (Part3.execute db _) as [[[] db']|]; [apply IH | done | done].
Qed.

(** The line loop body of the database loader in terms of the record of
    the line. *)
Lemma db_loadLine_parse (line : string) (db : Part3.Database) :
  Part3.loadLine line db
  = match parse_line_unchecked line with
    | Some c => db_store c db
    | None => Some (true, db)
    end.
Proof.
  rewrite db_loadLine_fields. unfold parse_line_unchecked.
  destruct (fields (trim line)) as [|raw [|rawTitle rest]]; [done | done |].
  unfold db_store. cbn [courseNumber title prerequisites].
  destruct (Part3.execute db _) as [[[] db']|]; [|done|done].
  apply fold_try_prereqs.
Qed.

Lemma fold_try_omap {A B C : Type} (f : B -> option C)
    (body : C -> A -> option (bool * A)) (l : list B) (acc : A) :
  fold_try (fun x a => match f x with
                       | Some y => body y a
                       | None => Some (true, a)
                       end) l acc
  = fold_try body (omap f l) acc.
Proof.
  revert acc. induction l as [|x l IH]; intros acc; [done|].
  cbn [fold_try]. change (omap f (x :: l))
    with (match f x with Some y => y :: omap f l | None => omap f l end).
  destruct (f x) as [y|]; [|apply IH].
  cbn [fold_try].
  destruct (body y acc) as [[[] acc']|]; [apply IH | done | done].
Qed.

Lemma fold_try_ext {A B : Type} (f g : B -> A -> option (bool * A))
    (l : list B) (acc : A) :
  (forall x a, f x a = g x a) -> fold_try f l acc = fold_try g l acc.
Proof.
  intros H. revert acc. induction l as [|x l IH]; intros acc; [done|].
  cbn [fold_try]. rewrite H.
  destruct (g x acc) as [[[] acc']|]; [apply IH | done | done].
Qed.

(** The database loader in terms of the records of the file. *)
Lemma db_load_spec (fs : FileSystem) (fileName content : string)
    (db : Part3.Database) :
  fs fileName = Some content ->
  Part3.loadCoursesFromCSV fs fileName db
  = fold_try db_store (records_unchecked content) (Part3.mkDb [] []).
Proof.
  intros Hfs. rewrite (db_load_start _ _ _ _ Hfs).
  rewrite for_each_line_try_fold.
  rewrite (fold_try_ext _ _ _ _ db_loadLine_parse).
  apply (fold_try_omap parse_line_unchecked db_store).
Qed.

End DbLoader.

(** * The tables after a load *)

Section DbTables.
Import Cstd Stream Norm Spec More.

Lemma has_course_false (db : Part3.Database) (n : string) :
  Part3.has_course db n = false <-> n ∉ map fst (Part3.courses db).
Proof.
  unfold Part3.has_course.
  induction (Part3.courses db) as [|row rows IH]; simpl.
  - split; [intros _; apply not_elem_of_nil | done].
  - rewrite orb_false_iff, IH, not_elem_of_cons, String.eqb_neq.
    split; intros [H1 H2]; split; auto.
Qed.

Lemma has_course_true (db : Part3.Database) (n : string) :
  Part3.has_course db n = true <-> n ∈ map fst (Part3.courses db).
Proof.
  destruct (Part3.has_course db n) eqn:E.
  - split; [intros _ | done].
    destruct (decide (n ∈ map fst (Part3.courses db))) as [|Hn]; [done|].
    apply has_course_false in Hn. congruence.
  - apply has_course_false in E. split; [done | by intros H].
Qed.

Lemma has_prerequisite_false (db : Part3.Database) (n p : string) :
  Part3.has_prerequisite db n p = false <-> (n, p) ∉ Part3.prerequisites db.
Proof.
  unfold Part3.has_prerequisite.
  induction (Part3.prerequisites db) as [|[a b] rows IH]; simpl.
  - split; [intros _; apply not_elem_of_nil | done].
  - rewrite orb_false_iff, IH, not_elem_of_cons, andb_false_iff,
      !String.eqb_neq.
    split.
    + intros [H1 H2]. split; [|done]. intros [= -> ->]. by destruct H1.
    + intros [H1 H2]. split; [|done].
      destruct (decide (a = n)) as [->|]; [|by left].
      right. intros ->. by apply H1.
Qed.

Lemma execute_insertCourse_fresh (db : Part3.Database) (n t : string) :
  contains Part3.quote n = false /\ contains nul n = false ->
  contains Part3.quote t = false /\ contains nul t = false ->
  n ∉ map fst (Part3.courses db) ->
  Part3.execute db (Part3.insertCourseSQL n t)
  = Some (true, Part3.mkDb (Part3.courses db ++ [(n, t)])
                           (Part3.prerequisites db)).
Proof.
  intros [Hn Hn0] [Ht Ht0] Hfresh. unfold Part3.execute.
  rewrite (c_str_insertCourse n t Hn0 Ht0), (parse_insertCourse n t Hn Ht).
  cbn [Part3.run].
  apply has_course_false in Hfresh. by rewrite Hfresh.
Qed.

Lemma execute_insertPrereq_fresh (db : Part3.Database) (n p : string) :
  contains Part3.quote n = false /\ contains nul n = false ->
  contains Part3.quote p = false /\ contains nul p = false ->
  n ∈ map fst (Part3.courses db) ->
  (n, p) ∉ Part3.prerequisites db ->
  Part3.execute db (Part3.insertPrereqSQL n p)
  = Some (true, Part3.mkDb (Part3.courses db)
                           (Part3.prerequisites db ++ [(n, p)])).
Proof.
  intros [Hn Hn0] [Hp Hp0] Hc Hfresh. unfold Part3.execute.
  rewrite (c_str_insertPrereq n p Hn0 Hp0), (parse_insertPrereq n p Hn Hp).
  cbn [Part3.run].
  apply has_course_true in Hc. apply has_prerequisite_false in Hfresh.
  by rewrite Hfresh, Hc.
Qed.

Lemma insert_prereqs_fresh (n : string) (ps : list string) :
  contains Part3.quote n = false /\ contains nul n = false ->
  Forall (fun p => contains Part3.quote p = false /\ contains nul p = false)
         ps ->
  NoDup ps ->
  forall db : Part3.Database,
  n ∈ map fst (Part3.courses db) ->
  (forall p, p ∈ ps -> (n, p) ∉ Part3.prerequisites db) ->
  fold_try (fun p d => Part3.execute d (Part3.insertPrereqSQL n p)) ps db
  = Some (true, Part3.mkDb (Part3.courses db)
                  (Part3.prerequisites db ++ map (fun p => (n, p)) ps)).
Proof.
  intros Hn Hq Hnd. induction Hq as [|p ps Hp _ IH]; intros db Hc Hfresh.
  - simpl. rewrite app_nil_r. by destruct db.
  - apply NoDup_cons in Hnd as [Hnotin Hnd]. cbn [fold_try].
    rewrite (execute_insertPrereq_fresh db n p Hn Hp Hc)
      by (apply Hfresh; left).
    rewrite (IH Hnd); cbn [Part3.courses Part3.prerequisites]; [| done |].
    + by rewrite <- app_assoc.
    + intros q Hqin Hin. apply elem_of_app in Hin as [Hin|Hin].
      * by apply (Hfresh q); [right|].
      * apply list_elem_of_singleton in Hin. injection Hin as ->. done.
Qed.

Lemma db_store_fresh (c : Course) (db : Part3.Database) :
  sql_safe c ->
  courseNumber c ∉ map fst (Part3.courses db) ->
  courseNumber c ∉ map fst (Part3.prerequisites db) ->
  db_store c db
  = Some (true, Part3.mkDb
             (Part3.courses db ++ [(courseNumber c, title c)])
             (Part3.prerequisites db
              ++ map (fun p => (courseNumber c, p)) (prerequisites c))).
Proof.
  intros [Hq Hnd] Hc Hp. unfold db_store.
  apply Forall_cons in Hq as [Hn Hq]. apply Forall_cons in Hq as [Ht Hq].
  rewrite (execute_insertCourse_fresh db _ _ Hn Ht Hc).
  rewrite (insert_prereqs_fresh _ _ Hn Hq Hnd); [done | |].
  - cbn [Part3.courses]. rewrite map_app. apply elem_of_app. right.
    simpl. left.
  - cbn [Part3.prerequisites]. intros p _ Hin. apply Hp.
    apply list_elem_of_fmap. by exists (courseNumber c, p).
Qed.

Lemma course_rows_numbers (cs : list Course) :
  map fst (course_rows cs) = numbers cs.
Proof. unfold course_rows, numbers. rewrite map_map. done. Qed.

Lemma prereq_rows_numbers (cs : list Course) (n : string) :
  n ∈ map fst (prereq_rows cs) -> n ∈ numbers cs.
Proof.
  unfold prereq_rows, numbers. induction cs as [|c cs IH]; simpl; [done|].
  rewrite map_app, elem_of_app. intros [H|H].
  - apply list_elem_of_fmap in H as ([a b] & -> & H).
    apply list_elem_of_fmap in H as (p & [= -> ->] & _). left.
  - right. by apply IH.
Qed.

Lemma course_rows_app (xs ys : list Course) :
  course_rows (xs ++ ys) = course_rows xs ++ course_rows ys.
Proof. apply map_app. Qed.

Lemma prereq_rows_app (xs ys : list Course) :
  prereq_rows (xs ++ ys) = prereq_rows xs ++ prereq_rows ys.
Proof. apply flat_map_app. Qed.

Lemma db_store_all (cs : list Course) :
  Forall sql_safe cs ->
  forall done : list Course,
  NoDup (numbers (done ++ cs)) ->
  fold_try db_store cs (Part3.mkDb (course_rows done) (prereq_rows done))
  = Some (true, Part3.mkDb (course_rows (done ++ cs))
                           (prereq_rows (done ++ cs))).
Proof.
  induction 1 as [|c cs Hc _ IH]; intros done Hnd.
  - by rewrite app_nil_r.
  - assert (Hfresh : courseNumber c ∉ numbers done).
    { unfold numbers in Hnd. rewrite map_app in Hnd.
      apply NoDup_app in Hnd as (_ & Hdis & _).
      intros Hin. apply (Hdis _ Hin). left. }
    cbn [fold_try]. rewrite (db_store_fresh c _ Hc).
    + cbn [Part3.courses Part3.prerequisites].
      replace (done ++ c :: cs) with ((done ++ [c]) ++ cs) in *
        by (by rewrite <- app_assoc).
      rewrite <- (IH (done ++ [c]) Hnd).
      rewrite course_rows_app, prereq_rows_app. simpl.
      by rewrite app_nil_r.
    + cbn [Part3.courses]. by rewrite course_rows_numbers.
    + cbn [Part3.prerequisites]. intros Hin.
      by apply Hfresh, prereq_rows_numbers.
Qed.

(** The rows a key selects in tables built from courses with distinct
    identifiers. *)
Lemma title_query_rows (k : string) (cs : list Course) (ps : list (string * string)) :
  Part3.title_query (Part3.mkDb (course_rows cs) ps) k
  = title <$> first_match k cs.
Proof.
  unfold Part3.title_query, first_match, course_rows.
  cbn [Part3.courses].
  induction cs as [|c cs IH]; [done|]. simpl.
  destruct (String.eqb (courseNumber c) k); [done | exact IH].
Qed.

Lemma filter_none {A : Type} (f : A -> bool) (l : list A) :
  (forall x, x ∈ l -> f x = false) -> List.filter f l = [].
Proof.
  induction l as [|x l IH]; intros H; [done|]. simpl.
  rewrite (H x) by left. apply IH. intros y Hy. apply H. by right.
Qed.

Lemma filter_prereq_rows_absent (k : string) (cs : list Course) :
  k ∉ numbers cs ->
  List.filter (fun r : string * string => String.eqb r.1 k) (prereq_rows cs)
  = [].
Proof.
  intros Hk. apply filter_none. intros [a b] Hin. simpl.
  apply String.eqb_neq. intros ->. apply Hk.
  apply prereq_rows_numbers. apply list_elem_of_fmap.
  by exists (k, b).
Qed.

Lemma filter_own_rows (n : string) (ps : list string) :
  List.filter (fun r : string * string => String.eqb r.1 n)
              (map (fun p => (n, p)) ps)
  = map (fun p => (n, p)) ps.
Proof.
  induction ps as [|p ps IH]; [done|]. simpl.
  by rewrite String.eqb_refl, IH.
Qed.

Lemma filter_prereq_rows (k : string) (cs : list Course) (c : Course) :
  NoDup (numbers cs) -> first_match k cs = Some c ->
  map snd (List.filter (fun r : string * string => String.eqb r.1 k)
                       (prereq_rows cs))
  = prerequisites c.
Proof.
  unfold first_match. induction cs as [|x cs IH]; intros Hnd Hf; [done|].
  simpl in Hnd. apply NoDup_cons in Hnd as [Hx Hnd].
  simpl in Hf. simpl. rewrite List.filter_app, map_app.
  destruct (String.eqb (courseNumber x) k) eqn:E.
  - injection Hf as <-. apply String.eqb_eq in E. subst k.
    rewrite filter_own_rows, (filter_prereq_rows_absent _ _ Hx), app_nil_r.
    rewrite map_map. simpl. apply map_id.
  - rewrite (IH Hnd Hf).
    replace (List.filter _ (map _ (prerequisites x))) with
      (@nil (string * string)); [done|].
    symmetry. apply filter_none. intros [a b] Hin. simpl.
    apply list_elem_of_fmap in Hin as (p & [= -> ->] & _). exact E.
Qed.

Lemma prereq_query_rows (k : string) (cs : list Course) (c : Course)
    (rows : list (string * string)) :
  NoDup (numbers cs) -> first_match k cs = Some c ->
  Part3.prereq_query (Part3.mkDb rows (prereq_rows cs)) k
  = merge_sort String.le (prerequisites c).
Proof.
  intros Hnd Hf. unfold Part3.prereq_query. cbn [Part3.prerequisites].
  by rewrite (filter_prereq_rows _ _ _ Hnd Hf).
Qed.

(** Sorting keeps the members of a list. *)
Lemma Forall_merge_sort (P : string -> Prop) (l : list string) :
  Forall P l -> Forall P (merge_sort String.le l).
Proof.
  intros H. by rewrite (merge_sort_Permutation String.le l).
Qed.

Lemma map_c_str_fixed (l : list string) :
  Forall (fun p => contains nul p = false) l -> map c_str l = l.
Proof.
  induction 1 as [|p l Hp _ IH]; simpl; [done|].
  by rewrite (c_str_fixed p Hp), IH.
Qed.

Lemma db_report_rows (cs : list Course) (number : string) :
  NoDup (numbers cs) -> Forall sql_safe cs ->
  Part3.printCourseDetails
    (Part3.mkDb (course_rows cs) (prereq_rows cs)) number
  = match first_match (c_str (normalizeCourseNumber number)) cs with
    | Some c =>
        detail_spaced (mkCourse (normalizeCourseNumber number) (title c)
                                (merge_sort String.le (prerequisites c)))
    | None => "Course not found" +:+ endl
    end.
Proof.
  intros Hnd Hsafe.
  destruct (first_match _ cs) as [c|] eqn:Hf.
  - assert (Hc : sql_safe c).
    { rewrite Forall_forall in Hsafe. apply Hsafe.
      unfold first_match in Hf. apply find_some in Hf as [Hin _].
      by apply list_elem_of_In. }
    destruct Hc as [Hq _].
    apply Forall_cons in Hq as [_ Hq]. apply Forall_cons in Hq as [[_ Ht] Hq].
    rewrite (db_report _ number (title c)).
    2: { by rewrite title_query_rows, Hf. }
    rewrite (prereq_query_rows _ _ _ _ Hnd Hf), (c_str_fixed _ Ht).
    rewrite map_c_str_fixed; [done|].
    apply Forall_merge_sort. eapply Forall_impl; [exact Hq|].
    by intros p [_ Hp].
  - unfold Part3.printCourseDetails. by rewrite title_query_rows, Hf.
Qed.

End DbTables.

(** X23.  The database loader on a file that SQL accepts.  When the
    records of the file (a line with at least two fields gives one, also
    with an empty identifier or title) have pairwise distinct identifiers,
    no record lists a prerequisite twice and no field holds a quote or a
    NUL character, the load succeeds, whatever the tables held before, and
    leaves one course row for each record and one prerequisite row for
    each prerequisite of each record. *)
Theorem db_load_rows (fs : FileSystem) (fileName content : string)
    (db : Part3.Database) :
  fs fileName = Some content ->
  NoDup (Spec.numbers (Spec.records_unchecked content)) ->
  Forall More.sql_safe (Spec.records_unchecked content) ->
  Part3.loadCoursesFromCSV fs fileName db
  = Some (true,
          Part3.mkDb (More.course_rows (Spec.records_unchecked content))
                     (More.prereq_rows (Spec.records_unchecked content))).
Proof.
  intros Hfs Hnd Hsafe. rewrite (db_load_spec _ _ _ _ Hfs).
  exact (db_store_all _ Hsafe [] Hnd).
Qed.

Lemma db_load_rows_witness :
  Part3.loadCoursesFromCSV sample "courses.csv"
    (Part3.mkDb [("MATH1", "Calculus")] [])
  = Some (true,
          Part3.mkDb [("CS101", "Intro to CS"); ("CS100", "Fundamentals")]
                     [("CS101", "CS100")]).
Proof.
  refine (db_load_rows sample "courses.csv" _ _ eq_refl _ _).
  - apply (bool_decide_unpack _). by vm_compute.
  - vm_compute.
    repeat first [ apply Forall_cons; split | apply Forall_nil | split
                 | apply NoDup_nil_2
                 | apply NoDup_singleton ].
Defined.

(** X24.  Load, then report, in the database program.  After a load of
    such a file, the detail report for a query finds the record whose
    identifier is the normalised query as a C string.  It writes the
    normalised query and the title of the record, then its prerequisites
    in increasing order (not in input order), each followed by one space,
    or [None]; it is the not-found message when no record has that
    identifier.  For a query without a NUL character the first line is
    the line of the record. *)
Theorem db_report_after_load (fs : FileSystem) (fileName content : string)
    (db : Part3.Database) (r : bool * Part3.Database) (number : string) :
  fs fileName = Some content ->
  NoDup (Spec.numbers (Spec.records_unchecked content)) ->
  Forall More.sql_safe (Spec.records_unchecked content) ->
  let key := Norm.normalizeCourseNumber number in
  Part3.loadCoursesFromCSV fs fileName db = Some r ->
  Part3.printCourseDetails r.2 number
  = match More.first_match (Cstd.c_str key)
            (Spec.records_unchecked content) with
    | Some c =>
        Spec.detail_spaced
          (mkCourse key (title c) (merge_sort String.le (prerequisites c)))
    | None => "Course not found" +:+ Cstd.endl
    end
  /\ (Spec.contains Cstd.nul number = false ->
      Part3.printCourseDetails r.2 number
      = match More.first_match key (Spec.records_unchecked content) with
        | Some c => Spec.detail_spaced (More.by_prerequisite c)
        | None => "Course not found" +:+ Cstd.endl
        end).
Proof.
  intros Hfs Hnd Hsafe key Hr.
  rewrite (db_load_spec _ _ _ _ Hfs) in Hr.
  change (Part3.mkDb [] [])
    with (Part3.mkDb (More.course_rows []) (More.prereq_rows [])) in Hr.
  rewrite (db_store_all _ Hsafe [] Hnd) in Hr. injection Hr as <-.
  cbn [snd app].
  assert (Hrep := db_report_rows _ number Hnd Hsafe). fold key in Hrep.
  split; [exact Hrep|].
  intros Hnul. rewrite Hrep.
  rewrite (c_str_fixed key) by (by apply normalize_no_nul).
  destruct (More.first_match key _) as [c|] eqn:Hf; [|done].
  unfold More.first_match in Hf. apply find_some in Hf as [_ Hk].
  apply String.eqb_eq in Hk. unfold More.by_prerequisite. by rewrite Hk.
Qed.

(** A course whose prerequisites are not listed in increasing order. *)
Lemma db_report_after_load_witness :
  let fs : FileSystem := fun _ =>
    Some "CS300,Algorithms,math201, cs100 ,CS200" in
  let loaded :=
    Part3.mkDb [("CS300", "Algorithms")]
               [("CS300", "MATH201"); ("CS300", "CS100");
                ("CS300", "CS200")] in
  Part3.loadCoursesFromCSV fs "courses.csv" (Part3.mkDb [] [])
  = Some (true, loaded)
  /\ Part3.printCourseDetails loaded " cs300"
     = "CS300, Algorithms" +:+ Cstd.endl +:+
       "Prerequisites: CS100 CS200 MATH201 " +:+ Cstd.endl.
Proof.
  intros fs loaded. split; [reflexivity|].
  refine (proj1 (db_report_after_load fs "courses.csv" _ (Part3.mkDb [] [])
                   (true, loaded) " cs300" eq_refl _ _ eq_refl)).
  - apply (bool_decide_unpack _). by vm_compute.
  - vm_compute.
    repeat first [ apply Forall_cons; split | apply Forall_nil | split
                 | apply NoDup_nil_2 | apply NoDup_singleton
                 | apply (bool_decide_unpack _); by vm_compute ].
Defined.
